(** * Heat acclimation calendar (app.py): scheduling and calendar grids

    A shallow embedding of the date arithmetic of [app.py] and of the part of
    Python's [datetime] and [calendar] modules it calls, followed by the
    properties of the two protocols and of the month grids. *)

From Stdlib Require Import ZArith Lia.
From stdpp Require Import base option list countable strings gmap sets sorting.

Local Open Scope Z_scope.

(** ** Python's proleptic Gregorian calendar ([datetime] module) *)

Module PyDate.

Definition MINYEAR : Z := 1.
Definition MAXYEAR : Z := 9999.
Definition MAXORDINAL : Z := 3652059.

(** [_DAYS_IN_MONTH], indexed by month; index 0 is a placeholder. *)
Definition DAYS_IN_MONTH : list Z :=
  [-1; 31; 28; 31; 30; 31; 30; 31; 31; 30; 31; 30; 31].

(** [_DAYS_BEFORE_MONTH], indexed by month; index 0 is a placeholder. *)
Definition DAYS_BEFORE_MONTH : list Z :=
  [-1; 0; 31; 59; 90; 120; 151; 181; 212; 243; 273; 304; 334].

Definition table (t : list Z) (i : Z) : Z := nth (Z.to_nat i) t 0.

(** [_is_leap]: year % 4 == 0 and (year % 100 != 0 or year % 400 == 0) *)
Definition is_leap (y : Z) : bool :=
  (y mod 4 =? 0) && (negb (y mod 100 =? 0) || (y mod 400 =? 0)).

Definition b2z (b : bool) : Z := if b then 1 else 0.

(** [_days_before_year] *)
Definition days_before_year (y : Z) : Z :=
  let y' := y - 1 in y' * 365 + y' / 4 - y' / 100 + y' / 400.

(** [_days_in_month] *)
Definition days_in_month (y m : Z) : Z :=
  if (m =? 2) && is_leap y then 29 else table DAYS_IN_MONTH m.

(** [_days_before_month] *)
Definition days_before_month (y m : Z) : Z :=
  table DAYS_BEFORE_MONTH m + b2z ((2 <? m) && is_leap y).

(** [_ymd2ord] *)
Definition ymd2ord (y m d : Z) : Z :=
  days_before_year y + days_before_month y m + d.

Definition DI400Y : Z := 146097.
Definition DI100Y : Z := 36524.
Definition DI4Y : Z := 1461.

(** [_ord2ymd] *)
Definition ord2ymd (n0 : Z) : Z * Z * Z :=
  let n := n0 - 1 in
  let n400 := n / DI400Y in
  let n := n mod DI400Y in
  let year := n400 * 400 + 1 in
  let n100 := n / DI100Y in
  let n := n mod DI100Y in
  let n4 := n / DI4Y in
  let n := n mod DI4Y in
  let n1 := n / 365 in
  let n := n mod 365 in
  let year := year + (n100 * 100 + n4 * 4 + n1) in
  if (n1 =? 4) || (n100 =? 4) then (year - 1, 12, 31)
  else
    let leapyear := (n1 =? 3) && (negb (n4 =? 24) || (n100 =? 3)) in
    let month := Z.shiftr (n + 50) 5 in
    let preceding := table DAYS_BEFORE_MONTH month + b2z ((2 <? month) && leapyear) in
    if n <? preceding then
      let month := month - 1 in
      let preceding :=
        preceding - (table DAYS_IN_MONTH month + b2z ((month =? 2) && leapyear)) in
      (year, month, n - preceding + 1)
    else (year, month, n - preceding + 1).

(** The date fields accepted by the [date]/[datetime] constructors
    ([_check_date_fields]). *)
Definition valid_ymd (y m d : Z) : Prop :=
  MINYEAR <= y <= MAXYEAR /\ 1 <= m <= 12 /\ 1 <= d <= days_in_month y m.

Definition valid_ymdb (y m d : Z) : bool :=
  (MINYEAR <=? y) && (y <=? MAXYEAR) && (1 <=? m) && (m <=? 12)
  && (1 <=? d) && (d <=? days_in_month y m).

End PyDate.

Import PyDate.

(** *** The day-of-year part of [ord2ymd] *)

(** The month and day computed from a zero-based day-of-year [n]. *)
Definition split_yday (leapyear : bool) (n : Z) : Z * Z :=
  let month := Z.shiftr (n + 50) 5 in
  let preceding := table DAYS_BEFORE_MONTH month + b2z ((2 <? month) && leapyear) in
  if n <? preceding then
    let month := month - 1 in
    let preceding :=
      preceding - (table DAYS_IN_MONTH month + b2z ((month =? 2) && leapyear)) in
    (month, n - preceding + 1)
  else (month, n - preceding + 1).

Definition dim (leapyear : bool) (m : Z) : Z :=
  if (m =? 2) && leapyear then 29 else table DAYS_IN_MONTH m.

Definition dbm (leapyear : bool) (m : Z) : Z :=
  table DAYS_BEFORE_MONTH m + b2z ((2 <? m) && leapyear).

Definition split_yday_ok (leapyear : bool) (n : Z) : bool :=
  let '(m, d) := split_yday leapyear n in
  (1 <=? m) && (m <=? 12) && (1 <=? d) && (d <=? dim leapyear m)
  && (dbm leapyear m + d =? n + 1).


(** ** [datetime] values *)

Record datetime : Type := Datetime {
  year : Z; month : Z; day : Z;
  hour : Z; minute : Z; second : Z; microsecond : Z
}.

Global Instance datetime_eq_dec : EqDecision datetime.
Proof. solve_decision. Defined.

Definition datetime_fields (d : datetime) : Z * Z * Z * Z * Z * Z * Z :=
  (year d, month d, day d, hour d, minute d, second d, microsecond d).

Definition datetime_of_fields (t : Z * Z * Z * Z * Z * Z * Z) : datetime :=
  let '(y, m, d, hh, mm, ss, us) := t in Datetime y m d hh mm ss us.

Global Instance datetime_countable : Countable datetime.
Proof.
  apply (inj_countable' datetime_fields datetime_of_fields).
  intros []. reflexivity.
Defined.

(** The invariant of a [datetime] object: the ranges its constructor checks. *)
Definition valid_datetime (d : datetime) : Prop :=
  valid_ymd (year d) (month d) (day d)
  /\ 0 <= hour d < 24 /\ 0 <= minute d < 60 /\ 0 <= second d < 60
  /\ 0 <= microsecond d < 1000000.

(** [datetime(year, month, day)]: midnight of that day, [ValueError] (here
    [None]) when the fields are not a date. *)
Definition new_datetime (y m d : Z) : option datetime :=
  if valid_ymdb y m d then Some (Datetime y m d 0 0 0 0) else None.

(** [d.replace(hour=0, minute=0, second=0, microsecond=0)] *)
Definition replace_midnight (d : datetime) : datetime :=
  Datetime (year d) (month d) (day d) 0 0 0 0.

(** [d.toordinal()] *)
Definition toordinal (d : datetime) : Z := ymd2ord (year d) (month d) (day d).

(** [d.weekday()]: 0 is Monday, 6 is Sunday. *)
Definition weekday (d : datetime) : Z := (toordinal d + 6) mod 7.

(** [datetime.combine(date.fromordinal(n), t.time())] *)
Definition combine_ordinal (n : Z) (t : datetime) : datetime :=
  let '(y, m, dd) := ord2ymd n in
  Datetime y m dd (hour t) (minute t) (second t) (microsecond t).

(** [d + timedelta(days=k)]: the day moves through the ordinal, the time of
    day is kept, and a result outside years 1..9999 is an [OverflowError]
    (here [None]). *)
Definition add_days (d : datetime) (k : Z) : option datetime :=
  let n := toordinal d + k in
  if (0 <? n) && (n <=? MAXORDINAL) then Some (combine_ordinal n d) else None.

(** [d - timedelta(days=k)], which Python computes as [d + (-timedelta)]. *)
Definition sub_days (d : datetime) (k : Z) : option datetime := add_days d (- k).

(** ** [calendar.monthcalendar] *)

Module PyCalendar.

Definition mdays : list Z := [0; 31; 28; 31; 30; 31; 30; 31; 31; 30; 31; 30; 31].

Definition firstweekday : Z := 0.

(** [calendar.weekday]: years outside 1..9999 are mapped into the 400-year
    cycle first. *)
Definition weekday (y m d : Z) : Z :=
  let y := if (MINYEAR <=? y) && (y <=? MAXYEAR) then y else 2000 + y mod 400 in
  (ymd2ord y m d + 6) mod 7.

(** [calendar.monthrange]: weekday of the first day and number of days;
    [IllegalMonthError] (here [None]) for a month outside 1..12. *)
Definition monthrange (y m : Z) : option (Z * Z) :=
  if (1 <=? m) && (m <=? 12) then
    Some (weekday y m 1, table mdays m + b2z ((m =? 2) && is_leap y))
  else None.

(** [Calendar.itermonthdays]: day numbers, 0 for the padding days. *)
Definition itermonthdays (y m : Z) : option (list Z) :=
  '(day1, ndays) ← monthrange y m;
  let days_before := (day1 - firstweekday) mod 7 in
  let days_after := (firstweekday - day1 - ndays) mod 7 in
  Some (replicate (Z.to_nat days_before) 0 ++ seqZ 1 ndays
        ++ replicate (Z.to_nat days_after) 0).

(** [range(0, n, 7)] *)
Definition range7 (n : nat) : list nat := (λ k, 7 * k)%nat <$> seq 0 ((n + 6) / 7).

(** [Calendar.monthdayscalendar]:
    [[days[i:i+7] for i in range(0, len(days), 7)]] *)
Definition monthcalendar (y m : Z) : option (list (list Z)) :=
  days ← itermonthdays y m;
  Some ((λ i, take 7 (drop i days)) <$> range7 (length days)).

End PyCalendar.

(** ** The schedulers of [app.py] *)

Definition PROTOCOL1_BOUT_START_DAYS_OUT : Z := 19.
Definition PROTOCOL1_BOUT_DAYS : Z := 10.
Definition PROTOCOL1_MAINTENANCE_DAYS : list Z := [7; 5].

(** [protocol1_sessions]; [None] stands for the [OverflowError] of the date
    arithmetic. *)
Definition protocol1_sessions (race_date : datetime)
  : option (list datetime * list datetime) :=
  first_day ← sub_days race_date PROTOCOL1_BOUT_START_DAYS_OUT;
  bout ← mapM (λ i, add_days first_day i) (seqZ 0 PROTOCOL1_BOUT_DAYS);
  maintenance ← mapM (λ d, sub_days race_date d) PROTOCOL1_MAINTENANCE_DAYS;
  Some (bout, maintenance).

(** A [for] loop over a list whose body may raise. *)
Fixpoint for_each {A S : Type} (body : S → A → option S) (s : S) (l : list A)
  : option S :=
  match l with
  | [] => Some s
  | x :: l' => s' ← body s x; for_each body s' l'
  end.

(** [offset = race_norm.weekday() - 5] *)
Definition weekday_offset (race_norm : datetime) : Z := weekday race_norm - 5.

(** [monday_6w]: the Monday of the week of [race_norm - 42 days]. *)
Definition monday_6w (race_norm : datetime) : option datetime :=
  c ← sub_days race_norm 42;
  sub_days c (weekday c).

(** [block_start = monday_6w + timedelta(days=offset)] *)
Definition block_start (race_norm : datetime) (offset : Z) : option datetime :=
  m ← monday_6w race_norm;
  add_days m offset.

Definition bout1_offsets : list Z := [0; 1; 3; 4; 5; 7; 8; 10; 11; 12; 13].

(** [monday_of_week] of one round of the maintenance loop. *)
Definition monday_of_week (race_norm : datetime) (weeks_out : Z) : option datetime :=
  week_center ← sub_days race_norm (weeks_out * 7);
  sub_days week_center (weekday week_center).

(** [block_start_m = monday_of_week + timedelta(days=offset)] *)
Definition block_start_m (race_norm : datetime) (offset weeks_out : Z)
  : option datetime :=
  m ← monday_of_week race_norm weeks_out;
  add_days m offset.

(** The body of the maintenance loop: two appends to [maintenance]. *)
Definition maintenance_body (race_norm : datetime) (offset : Z)
    (maintenance : list datetime) (weeks_out : Z) : option (list datetime) :=
  b ← block_start_m race_norm offset weeks_out;
  s2 ← add_days b 2;
  s5 ← add_days b 5;
  Some ((maintenance ++ [s2]) ++ [s5]).

Definition bout2_week1_offsets : list Z := [12; 11; 9; 8; 7; 6].

(** [protocol2_sessions] *)
Definition protocol2_sessions (race_date : datetime)
  : option (list datetime * list datetime * list datetime) :=
  let race_norm := replace_midnight race_date in
  let offset := weekday_offset race_norm in
  block_start ← block_start race_norm offset;
  bout1 ← mapM (λ i, add_days block_start i) bout1_offsets;
  maintenance ← for_each (maintenance_body race_norm offset) [] [4; 3; 2];
  bout2_week1 ← mapM (λ d, sub_days race_norm d) bout2_week1_offsets;
  bout2_week2 ← mapM (λ d, sub_days race_norm d) [5; 4; 2];
  let bout2 := bout2_week1 ++ bout2_week2 in
  Some (bout1, maintenance, bout2).

(** ** Normalised date sets *)

(** [sessions_to_set] *)
Definition sessions_to_set (sessions : list datetime) : gset datetime :=
  list_to_set (replace_midnight <$> sessions).

(** ** Month grids *)

(** A cell is [(None, None)] or [(day, cell_type)]. *)
Definition cell : Type := option Z * option string.

Definition cell_type_protocol1 (bout_set maint_set : gset datetime)
    (race_norm : option datetime) (d_norm : datetime) : option string :=
  if bool_decide (race_norm = Some d_norm) then Some "race"
  else if bool_decide (d_norm ∈ bout_set) then Some "bout"
  else if bool_decide (d_norm ∈ maint_set) then Some "maintenance"
  else None.

(** [month_calendar_data_protocol1]; [None] stands for the exceptions of
    [monthcalendar] and of the [datetime] constructor. *)
Definition month_calendar_data_protocol1 (y m : Z)
    (bout_set maint_set : gset datetime) (race_date : option datetime)
  : option (list (list cell)) :=
  weeks ← PyCalendar.monthcalendar y m;
  let race_norm := replace_midnight <$> race_date in
  mapM (λ week,
    mapM (λ dy : Z,
      if dy =? 0 then Some (None, None)
      else
        d ← new_datetime y m dy;
        let d_norm := replace_midnight d in
        Some (Some dy, cell_type_protocol1 bout_set maint_set race_norm d_norm))
      week) weeks.

Definition cell_type_protocol2 (bout1_set maint_set bout2_set : gset datetime)
    (race_norm : option datetime) (d_norm : datetime) : option string :=
  if bool_decide (race_norm = Some d_norm) then Some "race"
  else if bool_decide (d_norm ∈ bout1_set) then Some "bout1"
  else if bool_decide (d_norm ∈ maint_set) then Some "maintenance"
  else if bool_decide (d_norm ∈ bout2_set) then Some "bout2"
  else None.

(** [month_calendar_data_protocol2] *)
Definition month_calendar_data_protocol2 (y m : Z)
    (bout1_set maint_set bout2_set : gset datetime) (race_date : option datetime)
  : option (list (list cell)) :=
  weeks ← PyCalendar.monthcalendar y m;
  let race_norm := replace_midnight <$> race_date in
  mapM (λ week,
    mapM (λ dy : Z,
      if dy =? 0 then Some (None, None)
      else
        d ← new_datetime y m dy;
        let d_norm := replace_midnight d in
        Some (Some dy,
              cell_type_protocol2 bout1_set maint_set bout2_set race_norm d_norm))
      week) weeks.

(** Python's order on [(year, month)] tuples. *)
Definition month_le (a b : Z * Z) : Prop :=
  a.1 < b.1 ∨ (a.1 = b.1 ∧ a.2 <= b.2).

Global Instance month_le_dec : RelDecision month_le.
Proof. intros a b. unfold month_le. apply _. Defined.

(** [months_to_show] *)
Definition months_to_show (dates : list datetime) (race_date : datetime)
  : list (Z * Z) :=
  let all_d : gset datetime := list_to_set (replace_midnight <$> dates) in
  let all_d := all_d ∪ {[ replace_midnight race_date ]} in
  let months : gset (Z * Z) := set_map (λ d, (year d, month d)) all_d in
  merge_sort month_le (elements months).

(** ** The computation of [index] for a parsed race date *)

Definition month_grid : Type := Z * Z * list (list cell).

Definition index_calendars (race_date : datetime)
  : option (list month_grid * list month_grid) :=
  '(protocol1_bout, protocol1_maintenance) ← protocol1_sessions race_date;
  '(protocol2_bout1, protocol2_maint, protocol2_bout2) ← protocol2_sessions race_date;
  let p1_all := protocol1_bout ++ protocol1_maintenance in
  let p1_bout_set := sessions_to_set protocol1_bout in
  let p1_maint_set := sessions_to_set protocol1_maintenance in
  protocol1_calendar_months ←
    mapM (λ '(y, m),
      grid ← month_calendar_data_protocol1 y m p1_bout_set p1_maint_set
               (Some race_date);
      Some (y, m, grid)) (months_to_show p1_all race_date);
  let p2_bout1_set := sessions_to_set protocol2_bout1 in
  let p2_maint_set := sessions_to_set protocol2_maint in
  let p2_bout2_set := sessions_to_set protocol2_bout2 in
  let p2_all := (protocol2_bout1 ++ protocol2_maint) ++ protocol2_bout2 in
  protocol2_calendar_months ←
    mapM (λ '(y, m),
      grid ← month_calendar_data_protocol2 y m p2_bout1_set p2_maint_set
               p2_bout2_set (Some race_date);
      Some (y, m, grid)) (months_to_show p2_all race_date);
  Some (protocol1_calendar_months, protocol2_calendar_months).

(** ** Auxiliary notions for the statements *)

(** The time-of-day part of the [datetime] invariant. *)
Definition valid_time (t : datetime) : Prop :=
  0 <= hour t < 24 /\ 0 <= minute t < 60 /\ 0 <= second t < 60
  /\ 0 <= microsecond t < 1000000.

(** The ordinals of the representable dates 0001-01-01 .. 9999-12-31. *)
Definition in_range (n : Z) : bool := (0 <? n) && (n <=? MAXORDINAL).

Global Instance valid_datetime_dec d : Decision (valid_datetime d).
Proof. unfold valid_datetime, valid_ymd. apply _. Defined.

(** The race date of the example of the specification: Saturday 2024-08-10. *)
Definition example_race : datetime := Datetime 2024 8 10 0 0 0 0.

(** A date in the first days of year 1, too early to have a date 19 days
    before it. *)
Definition early_race : datetime := Datetime 1 1 5 0 0 0 0.

(** A race date late enough for Protocol 1 (ordinal 41) but not for
    Protocol 2. *)
Definition february_race : datetime := Datetime 1 2 10 0 0 0 0.

(** A race on a Monday: 2024-08-12. *)
Definition monday_race : datetime := Datetime 2024 8 12 0 0 0 0.

(** The ordinal of the Monday of the calendar week (Monday to Sunday) of [d],
    the week notion of [d - timedelta(days=d.weekday())]. *)
Definition week_monday (d : datetime) : Z := toordinal d - weekday d.

(** The calendar weeks in which a list of dates falls, each once. *)
Definition calendar_weeks (ds : list datetime) : list Z :=
  remove_dups (week_monday <$> ds).

(** One round of the maintenance loop, as the specification words it: the
    Monday of the week containing R - 7 * weeks_out, the anchor shifted from
    it by weekday(R) - 5, and the sessions at anchor + 2 and anchor + 5. *)
Definition maintenance_week (R : datetime) (weeks_out : Z)
    (monday anchor s2 s5 : datetime) : Prop :=
  monday_of_week (replace_midnight R) weeks_out = Some monday
  /\ weekday monday = 0
  /\ toordinal monday <= toordinal R - weeks_out * 7 < toordinal monday + 7
  /\ add_days monday (weekday R - 5) = Some anchor
  /\ add_days anchor 2 = Some s2
  /\ add_days anchor 5 = Some s5.

(** The fixed absolute offsets of Protocol 2's first bout and maintenance
    sessions, in days before the race. *)
Definition bout1_days_out : list Z := [47; 46; 44; 43; 42; 40; 39; 37; 36; 35; 34].
Definition maintenance_days_out : list Z := [31; 28; 24; 21; 17; 14].

(** Protocol 2's first bout and maintenance computed from the race date by
    the fixed offsets alone, with no weekday and no Monday. *)
Definition protocol2_fixed_offsets (race_date : datetime)
  : option (list datetime * list datetime) :=
  let race_norm := replace_midnight race_date in
  bout1 ← mapM (λ d, sub_days race_norm d) bout1_days_out;
  maintenance ← mapM (λ d, sub_days race_norm d) maintenance_days_out;
  Some (bout1, maintenance).

(** The loop shared by the two grid builders, for any way [ct] of choosing
    the cell type of a day. *)
Definition grid_of (y m : Z) (ct : datetime → option string)
  : option (list (list cell)) :=
  weeks ← PyCalendar.monthcalendar y m;
  mapM (λ week,
    mapM (λ dy : Z,
      if dy =? 0 then Some (None, None)
      else
        d ← new_datetime y m dy;
        let d_norm := replace_midnight d in
        Some (Some dy, ct d_norm))
      week) weeks.

(** A calendar (a list of month grids) shows date [d] with cell type [c]: the
    grid of the month of [d] has the in-month cell [(d.day, c)]. *)
Definition shown (cal : list month_grid) (d : datetime) (c : option string) : Prop :=
  ∃ grid week,
    (year d, month d, grid) ∈ cal /\ week ∈ grid /\ (Some (day d), c) ∈ week.

(** Synthetic category sets that overlap, for the precedence of the cells of
    August 2024: the 10th (the race day of [example_race]) and the 11th in
    the primary bout set, the 11th and the 12th in the maintenance set, the
    12th and the 13th in the bout2 set. *)
Definition august_2024 (dy : Z) : datetime := Datetime 2024 8 dy 0 0 0 0.
Definition overlap_bout : gset datetime := {[ august_2024 10; august_2024 11 ]}.
Definition overlap_maint : gset datetime := {[ august_2024 11; august_2024 12 ]}.
Definition overlap_bout2 : gset datetime := {[ august_2024 12; august_2024 13 ]}.

(** ** Notions for the properties of the schedulers *)

(** The time-of-day fields of a [datetime]. *)
Definition time_of (d : datetime) : Z * Z * Z * Z :=
  (hour d, minute d, second d, microsecond d).

(** A list of dates in strictly increasing order of their days. *)
Definition chronological (ds : list datetime) : Prop :=
  StronglySorted Z.lt (toordinal <$> ds).

(** Python's strict order on [(year, month)] tuples. *)
Definition month_lt (a b : Z * Z) : Prop :=
  a.1 < b.1 ∨ (a.1 = b.1 ∧ a.2 < b.2).

(** Date [d] is day [dy] of month [m] of year [y]. *)
Definition on_day (d : datetime) (y m dy : Z) : Prop :=
  year d = y /\ month d = m /\ day d = dy.

(** Months counted from year 0: the index of month [m] of year [y], and the
    month of an index. *)
Definition month_index (y m : Z) : Z := y * 12 + (m - 1).

Definition month_of_index (i : Z) : Z * Z := (i / 12, i mod 12 + 1).

(** The ordinal of the last day before month [i]. *)
Definition month_start (i : Z) : Z :=
  days_before_year (month_of_index i).1
  + days_before_month (month_of_index i).1 (month_of_index i).2.

(** ** The view function [index] *)

(** The template variables that [index] passes to [render_template]
    ([month_name], a constant of the [calendar] module, is left out). *)
Record page : Type := Page {
  page_race_date : option datetime;
  page_protocol1_bout : list datetime;
  page_protocol1_maintenance : list datetime;
  page_protocol2_bout1 : list datetime;
  page_protocol2_maintenance : list datetime;
  page_protocol2_bout2 : list datetime;
  page_protocol1_calendar_months : list month_grid;
  page_protocol2_calendar_months : list month_grid;
  page_error : option string
}.

Section Index.
(** [str.strip] and [datetime.strptime(_, "%Y-%m-%d")] of the Python library,
    the latter with [None] for its [ValueError]. *)
Variable strip : string → string.
Variable strptime : string → option datetime.

(** [index] for a request with the given method and form fields; [None]
    stands for an exception that the function does not catch. *)
Definition index (method : string) (form : gmap string string) : option page :=
  if bool_decide (method = "POST") then
    let date_str := strip (default "" (form !! "race_date")) in
    if bool_decide (date_str = "") then
      Some (Page None [] [] [] [] [] [] [] (Some "Please enter a race date."))
    else
      match strptime date_str with
      | None =>
          Some (Page None [] [] [] [] [] [] []
                  (Some "Invalid date format. Use YYYY-MM-DD."))
      | Some race_date =>
          '(protocol1_bout, protocol1_maintenance) ← protocol1_sessions race_date;
          '(protocol2_bout1, protocol2_maint, protocol2_bout2) ←
            protocol2_sessions race_date;
          let p1_all := protocol1_bout ++ protocol1_maintenance in
          let p1_bout_set := sessions_to_set protocol1_bout in
          let p1_maint_set := sessions_to_set protocol1_maintenance in
          protocol1_calendar_months ←
            mapM (λ '(y, m),
              grid ← month_calendar_data_protocol1 y m p1_bout_set p1_maint_set
                       (Some race_date);
              Some (y, m, grid)) (months_to_show p1_all race_date);
          let p2_bout1_set := sessions_to_set protocol2_bout1 in
          let p2_maint_set := sessions_to_set protocol2_maint in
          let p2_bout2_set := sessions_to_set protocol2_bout2 in
          let p2_all := (protocol2_bout1 ++ protocol2_maint) ++ protocol2_bout2 in
          protocol2_calendar_months ←
            mapM (λ '(y, m),
              grid ← month_calendar_data_protocol2 y m p2_bout1_set p2_maint_set
                       p2_bout2_set (Some race_date);
              Some (y, m, grid)) (months_to_show p2_all race_date);
          Some (Page (Some race_date) protocol1_bout protocol1_maintenance
                  protocol2_bout1 protocol2_maint protocol2_bout2
                  protocol1_calendar_months protocol2_calendar_months None)
      end
  else Some (Page None [] [] [] [] [] [] [] None).
End Index.
(** * Properties of the calendar arithmetic *)

Lemma valid_ymdb_spec y m d : valid_ymdb y m d = true <-> valid_ymd y m d.
Proof.
  unfold valid_ymdb, valid_ymd.
  rewrite !andb_true_iff, !Z.leb_le. tauto.
Qed.

(** *** The day-of-year part of [ord2ymd] *)

Lemma split_yday_ok_all leapyear :
  forallb (split_yday_ok leapyear) (seqZ 0 (365 + b2z leapyear)) = true.
Proof. destruct leapyear; vm_compute; reflexivity. Qed.

Lemma split_yday_spec leapyear n :
  0 <= n < 365 + b2z leapyear ->
  let '(m, d) := split_yday leapyear n in
  1 <= m <= 12 /\ 1 <= d <= dim leapyear m /\ dbm leapyear m + d = n + 1.
Proof.
  intros Hn.
  pose proof (split_yday_ok_all leapyear) as Hall.
  rewrite forallb_forall in Hall.
  assert (Hin : In n (seqZ 0 (365 + b2z leapyear))).
  { apply list_elem_of_In, elem_of_seqZ. lia. }
  specialize (Hall n Hin). unfold split_yday_ok in Hall.
  destruct (split_yday leapyear n) as [m d].
  rewrite !andb_true_iff, !Z.leb_le, Z.eqb_eq in Hall. lia.
Qed.

(** *** The year part of [ord2ymd] *)

Lemma is_leap_decomposed a b c e :
  0 <= b <= 3 -> 0 <= c <= 24 -> 0 <= e <= 3 ->
  is_leap (a * 400 + 1 + (b * 100 + c * 4 + e))
  = (e =? 3) && (negb (c =? 24) || (b =? 3)).
Proof.
  intros Hb Hc He. unfold is_leap.
  set (Y := a * 400 + 1 + (b * 100 + c * 4 + e)).
  assert (H4 : Y mod 4 = (e + 1) mod 4).
  { unfold Y. replace (a * 400 + 1 + (b * 100 + c * 4 + e))
      with (e + 1 + (a * 100 + b * 25 + c) * 4) by lia.
    apply Z_mod_plus_full. }
  assert (H100 : Y mod 100 = (c * 4 + e + 1) mod 100).
  { unfold Y. replace (a * 400 + 1 + (b * 100 + c * 4 + e))
      with (c * 4 + e + 1 + (a * 4 + b) * 100) by lia.
    apply Z_mod_plus_full. }
  assert (H400 : Y mod 400 = (b * 100 + c * 4 + e + 1) mod 400).
  { unfold Y. replace (a * 400 + 1 + (b * 100 + c * 4 + e))
      with (b * 100 + c * 4 + e + 1 + a * 400) by lia.
    apply Z_mod_plus_full. }
  rewrite H4, H100, H400.
  destruct (Z.eqb_spec e 3) as [->|He3].
  - destruct (Z.eqb_spec c 24) as [->|Hc24].
    + destruct (Z.eqb_spec b 3) as [->|Hb3]; [reflexivity|].
      assert (b = 0 \/ b = 1 \/ b = 2) as [->|[->| ->]] by lia; reflexivity.
    + replace ((3 + 1) mod 4) with 0 by reflexivity. simpl.
      rewrite (Z.mod_small (c * 4 + 3 + 1) 100) by lia.
      destruct (Z.eqb_spec (c * 4 + 3 + 1) 0); [lia|]. reflexivity.
  - rewrite (Z.mod_small (e + 1) 4) by lia.
    destruct (Z.eqb_spec (e + 1) 0); [lia|]. reflexivity.
Qed.

Lemma days_before_year_decomposed a b c e :
  0 <= b <= 3 -> 0 <= c <= 24 -> 0 <= e <= 3 ->
  days_before_year (a * 400 + 1 + (b * 100 + c * 4 + e))
  = a * DI400Y + b * DI100Y + c * DI4Y + e * 365.
Proof.
  intros Hb Hc He. unfold days_before_year, DI400Y, DI100Y, DI4Y. cbv zeta.
  replace (a * 400 + 1 + (b * 100 + c * 4 + e) - 1)
    with (a * 400 + b * 100 + c * 4 + e) by lia.
  assert ((a * 400 + b * 100 + c * 4 + e) / 4 = a * 100 + b * 25 + c) as ->.
  { symmetry. apply (Z.div_unique _ 4 _ e); lia. }
  assert ((a * 400 + b * 100 + c * 4 + e) / 100 = a * 4 + b) as ->.
  { symmetry. apply (Z.div_unique _ 100 _ (c * 4 + e)); lia. }
  assert ((a * 400 + b * 100 + c * 4 + e) / 400 = a) as ->.
  { symmetry. apply (Z.div_unique _ 400 _ (b * 100 + c * 4 + e)); lia. }
  lia.
Qed.

Lemma days_in_month_dim y m : days_in_month y m = dim (is_leap y) m.
Proof. reflexivity. Qed.

Lemma days_before_month_dbm y m : days_before_month y m = dbm (is_leap y) m.
Proof. reflexivity. Qed.

(** [ord2ymd] in terms of the year and the day of the year. *)
Lemma ord2ymd_unfold n0 :
  ord2ymd n0 =
    let n := n0 - 1 in
    let n400 := n / DI400Y in
    let n100 := (n mod DI400Y) / DI100Y in
    let n4 := ((n mod DI400Y) mod DI100Y) / DI4Y in
    let n1 := (((n mod DI400Y) mod DI100Y) mod DI4Y) / 365 in
    let r := (((n mod DI400Y) mod DI100Y) mod DI4Y) mod 365 in
    let year := n400 * 400 + 1 + (n100 * 100 + n4 * 4 + n1) in
    if (n1 =? 4) || (n100 =? 4) then (year - 1, 12, 31)
    else
      let leapyear := (n1 =? 3) && (negb (n4 =? 24) || (n100 =? 3)) in
      (year, (split_yday leapyear r).1, (split_yday leapyear r).2).
Proof.
  unfold ord2ymd, split_yday. cbv zeta.
  repeat match goal with |- context [if ?b then _ else _] => destruct b end;
    reflexivity.
Qed.

Lemma ord2ymd_spec n0 :
  1 <= n0 ->
  let '(y, m, d) := ord2ymd n0 in
  ymd2ord y m d = n0 /\ 1 <= m <= 12 /\ 1 <= d <= days_in_month y m
  /\ days_before_year y < n0 <= days_before_year (y + 1).
Proof.
  intros Hn0. rewrite ord2ymd_unfold. cbv zeta.
  set (n := n0 - 1).
  set (n400 := n / DI400Y).
  set (r400 := n mod DI400Y).
  set (n100 := r400 / DI100Y).
  set (r100 := r400 mod DI100Y).
  set (n4 := r100 / DI4Y).
  set (r4 := r100 mod DI4Y).
  set (n1 := r4 / 365).
  set (r := r4 mod 365).
  assert (Hdec : n = n400 * DI400Y + n100 * DI100Y + n4 * DI4Y + n1 * 365 + r
                 /\ 0 <= r400 < DI400Y /\ r400 = n100 * DI100Y + r100
                 /\ 0 <= r100 < DI100Y /\ r100 = n4 * DI4Y + r4
                 /\ 0 <= r4 < DI4Y /\ r4 = n1 * 365 + r /\ 0 <= r < 365).
  { unfold r, n1, r4, n4, r100, n100, r400, n400, DI400Y, DI100Y, DI4Y.
    Z.div_mod_to_equations. lia. }
  destruct Hdec as (Hn & Hr400 & Hr400' & Hr100 & Hr100' & Hr4 & Hr4' & Hr).
  unfold DI400Y, DI100Y, DI4Y in *.
  assert (Hb100 : 0 <= n100 <= 4) by lia.
  assert (Hb4 : 0 <= n4 <= 24) by lia.
  assert (Hb1 : 0 <= n1 <= 4) by lia.
  destruct (Z.eqb_spec n1 4) as [E1|E1]; [|destruct (Z.eqb_spec n100 4) as [E100|E100]];
    cbn [orb].
  - (* last day of a leap year closing a 4-year cycle *)
    assert (r = 0) by lia. subst r.
    replace (n400 * 400 + 1 + (n100 * 100 + n4 * 4 + n1) - 1)
      with (n400 * 400 + 1 + (n100 * 100 + n4 * 4 + 3)) by lia.
    assert (Hb100' : 0 <= n100 <= 3) by lia.
    pose proof (is_leap_decomposed n400 n100 n4 3 Hb100' Hb4 ltac:(lia)) as Hleap.
    pose proof (days_before_year_decomposed n400 n100 n4 3 Hb100' Hb4 ltac:(lia)) as Hdby.
    assert (Hl : is_leap (n400 * 400 + 1 + (n100 * 100 + n4 * 4 + 3)) = true).
    { rewrite Hleap. destruct (Z.eqb_spec n4 24); [|reflexivity].
      destruct (Z.eqb_spec n100 3); [reflexivity|]. lia. }
    unfold ymd2ord. rewrite days_before_month_dbm, days_in_month_dim, Hl, Hdby.
    unfold DI400Y, DI100Y, DI4Y.
    replace (dbm true 12) with 335 by reflexivity.
    replace (dim true 12) with 31 by reflexivity.
    assert (Hnext : days_before_year (n400 * 400 + 1 + (n100 * 100 + n4 * 4 + 3) + 1)
                    = n0).
    { unfold days_before_year. cbv zeta. Z.div_mod_to_equations. lia. }
    rewrite Hnext. lia.
  - (* last day of a 400-year cycle *)
    assert (r100 = 0) by lia. assert (n4 = 0) by lia. assert (n1 = 0) by lia.
    assert (r = 0) by lia.
    replace (n400 * 400 + 1 + (n100 * 100 + n4 * 4 + n1) - 1)
      with (n400 * 400 + 1 + (3 * 100 + 24 * 4 + 3)) by lia.
    pose proof (is_leap_decomposed n400 3 24 3 ltac:(lia) ltac:(lia) ltac:(lia)) as Hleap.
    pose proof (days_before_year_decomposed n400 3 24 3 ltac:(lia) ltac:(lia) ltac:(lia))
      as Hdby.
    cbn in Hleap.
    unfold ymd2ord. rewrite days_before_month_dbm, days_in_month_dim, Hleap, Hdby.
    unfold DI400Y, DI100Y, DI4Y.
    replace (dbm true 12) with 335 by reflexivity.
    replace (dim true 12) with 31 by reflexivity.
    assert (Hnext : days_before_year (n400 * 400 + 1 + (3 * 100 + 24 * 4 + 3) + 1) = n0).
    { unfold days_before_year. cbv zeta. Z.div_mod_to_equations. lia. }
    rewrite Hnext. lia.
  - (* the general case *)
    assert (Hb100' : 0 <= n100 <= 3) by lia.
    assert (Hb1' : 0 <= n1 <= 3) by lia.
    pose proof (is_leap_decomposed n400 n100 n4 n1 Hb100' Hb4 Hb1') as Hleap.
    pose proof (days_before_year_decomposed n400 n100 n4 n1 Hb100' Hb4 Hb1') as Hdby.
    set (leapyear := (n1 =? 3) && (negb (n4 =? 24) || (n100 =? 3))) in *.
    pose proof (split_yday_spec leapyear r ltac:(destruct leapyear; simpl; lia)) as Hs.
    destruct (split_yday leapyear r) as [m d]. cbn [fst snd].
    destruct Hs as (Hm & Hd & Hsum).
    unfold ymd2ord. rewrite days_before_month_dbm, days_in_month_dim, Hleap, Hdby.
    unfold DI400Y, DI100Y, DI4Y.
    assert (Hnext : days_before_year (n400 * 400 + 1 + (n100 * 100 + n4 * 4 + n1) + 1)
                    = n400 * 146097 + n100 * 36524 + n4 * 1461 + n1 * 365
                      + 365 + b2z leapyear).
    { unfold leapyear.
      destruct (Z.eqb_spec n1 3) as [->|]; cbn [andb].
      - destruct (Z.eqb_spec n4 24) as [->|]; cbn [negb orb].
        + destruct (Z.eqb_spec n100 3) as [->|]; cbn [b2z];
            unfold days_before_year; cbv zeta; Z.div_mod_to_equations; lia.
        + cbn [b2z]. unfold days_before_year; cbv zeta; Z.div_mod_to_equations; lia.
      - cbn [b2z]. unfold days_before_year; cbv zeta; Z.div_mod_to_equations; lia. }
    rewrite Hnext.
    assert (r < 365 + b2z leapyear) by (destruct leapyear; simpl; lia).
    lia.
Qed.

(** ** Ordinals of valid dates *)

Lemma days_before_year_succ y :
  days_before_year (y + 1) = days_before_year y + 365 + b2z (is_leap y).
Proof.
  unfold days_before_year, is_leap. cbv zeta.
  replace (y + 1 - 1) with y by lia.
  destruct (Z.eqb_spec (y mod 4) 0) as [H4|H4];
    destruct (Z.eqb_spec (y mod 100) 0) as [H100|H100];
    destruct (Z.eqb_spec (y mod 400) 0) as [H400|H400];
    cbn [andb orb negb b2z]; Z.div_mod_to_equations; lia.
Qed.

Lemma days_before_year_mono y y' :
  y <= y' -> days_before_year y <= days_before_year y'.
Proof. unfold days_before_year. cbv zeta. intros. Z.div_mod_to_equations. lia. Qed.

Lemma dim_bounds leapyear m d :
  1 <= m <= 12 -> 1 <= d <= dim leapyear m ->
  1 <= dbm leapyear m + d <= 365 + b2z leapyear.
Proof.
  intros Hm Hd.
  assert (m = 1 \/ m = 2 \/ m = 3 \/ m = 4 \/ m = 5 \/ m = 6 \/ m = 7 \/ m = 8
          \/ m = 9 \/ m = 10 \/ m = 11 \/ m = 12) as Hcases by lia.
  destruct leapyear;
    repeat (destruct Hcases as [->|Hcases]); try subst m;
    repeat match goal with
    | H : context [dim ?b ?m] |- _ =>
        let v := eval vm_compute in (dim b m) in change (dim b m) with v in H
    | |- context [dbm ?b ?m] =>
        let v := eval vm_compute in (dbm b m) in change (dbm b m) with v
    end; cbn [b2z]; lia.
Qed.

Lemma toordinal_range y m d :
  valid_ymd y m d -> 1 <= ymd2ord y m d <= MAXORDINAL.
Proof.
  intros ([Hy1 Hy2] & Hm & Hd). unfold ymd2ord.
  rewrite days_before_month_dbm. rewrite days_in_month_dim in Hd.
  pose proof (dim_bounds _ _ _ Hm Hd) as Hb.
  pose proof (days_before_year_mono 1 y Hy1) as Hlo.
  pose proof (days_before_year_mono (y + 1) 10000 ltac:(unfold MAXYEAR in *; lia)) as Hhi.
  rewrite days_before_year_succ in Hhi.
  change (days_before_year 1) with 0 in Hlo.
  change (days_before_year 10000) with 3652059 in Hhi.
  unfold MAXORDINAL. lia.
Qed.

Lemma ord2ymd_valid n :
  1 <= n <= MAXORDINAL ->
  let '(y, m, d) := ord2ymd n in valid_ymd y m d /\ ymd2ord y m d = n.
Proof.
  intros [Hlo Hhi]. pose proof (ord2ymd_spec n Hlo) as Hs.
  destruct (ord2ymd n) as [[y m] d].
  destruct Hs as (Heq & Hm & Hd & Hy1 & Hy2).
  split; [|exact Heq]. split; [|split; assumption].
  unfold MINYEAR, MAXYEAR, MAXORDINAL in *.
  destruct (Z_le_gt_dec y 0) as [Hy0|Hy0].
  { pose proof (days_before_year_mono (y + 1) 1 ltac:(lia)) as Hc.
    change (days_before_year 1) with 0 in Hc. lia. }
  destruct (Z_le_gt_dec 10000 y) as [Hy9|Hy9].
  { pose proof (days_before_year_mono 10000 y Hy9) as Hc.
    change (days_before_year 10000) with 3652059 in Hc. lia. }
  lia.
Qed.

(** ** [datetime] arithmetic through ordinals *)

Lemma in_range_spec n : in_range n = true <-> 1 <= n <= MAXORDINAL.
Proof. unfold in_range. rewrite andb_true_iff, Z.ltb_lt, Z.leb_le. lia. Qed.

Lemma add_days_eq d k :
  add_days d k
  = if in_range (toordinal d + k) then Some (combine_ordinal (toordinal d + k) d)
    else None.
Proof. reflexivity. Qed.

Lemma toordinal_combine n t : 1 <= n -> toordinal (combine_ordinal n t) = n.
Proof.
  intros Hn. pose proof (ord2ymd_spec n Hn) as Hs.
  unfold combine_ordinal, toordinal.
  destruct (ord2ymd n) as [[y m] d]. cbn. tauto.
Qed.

Lemma combine_combine n n' t :
  combine_ordinal n (combine_ordinal n' t) = combine_ordinal n t.
Proof.
  unfold combine_ordinal.
  destruct (ord2ymd n) as [[y m] d], (ord2ymd n') as [[y' m'] d']. reflexivity.
Qed.

Lemma replace_midnight_combine n t :
  replace_midnight (combine_ordinal n t) = combine_ordinal n (replace_midnight t).
Proof. unfold combine_ordinal. destruct (ord2ymd n) as [[y m] d]. reflexivity. Qed.

Lemma replace_midnight_idemp d :
  replace_midnight (replace_midnight d) = replace_midnight d.
Proof. reflexivity. Qed.

Lemma toordinal_replace_midnight d : toordinal (replace_midnight d) = toordinal d.
Proof. reflexivity. Qed.

Lemma weekday_replace_midnight d : weekday (replace_midnight d) = weekday d.
Proof. reflexivity. Qed.

Lemma valid_combine n t :
  1 <= n <= MAXORDINAL -> valid_time t -> valid_datetime (combine_ordinal n t).
Proof.
  intros Hn Ht. pose proof (ord2ymd_valid n Hn) as Hs.
  unfold combine_ordinal, valid_datetime.
  destruct (ord2ymd n) as [[y m] d]. cbn. destruct Hs as [Hv _].
  split; [exact Hv | exact Ht].
Qed.

Lemma valid_datetime_time d : valid_datetime d -> valid_time d.
Proof. intros [_ H]. exact H. Qed.

Lemma valid_datetime_ordinal d : valid_datetime d -> 1 <= toordinal d <= MAXORDINAL.
Proof. intros [H _]. apply toordinal_range, H. Qed.

Lemma valid_replace_midnight d : valid_datetime d -> valid_datetime (replace_midnight d).
Proof. intros [H _]. split; [exact H|]. cbn. lia. Qed.

Lemma add_days_combine n t k :
  1 <= n ->
  add_days (combine_ordinal n t) k
  = if in_range (n + k) then Some (combine_ordinal (n + k) t) else None.
Proof.
  intros Hn. rewrite add_days_eq, toordinal_combine by exact Hn.
  destruct (in_range (n + k)); [|reflexivity]. by rewrite combine_combine.
Qed.

Lemma sub_days_eq d k :
  sub_days d k
  = if in_range (toordinal d - k) then Some (combine_ordinal (toordinal d - k) d)
    else None.
Proof. unfold sub_days. rewrite add_days_eq. reflexivity. Qed.

Lemma sub_days_combine n t k :
  1 <= n ->
  sub_days (combine_ordinal n t) k
  = if in_range (n - k) then Some (combine_ordinal (n - k) t) else None.
Proof. intros Hn. unfold sub_days. by rewrite add_days_combine. Qed.

Lemma weekday_combine n t : 1 <= n -> weekday (combine_ordinal n t) = (n + 6) mod 7.
Proof. intros Hn. unfold weekday. by rewrite toordinal_combine. Qed.

Lemma in_range_true n : 1 <= n <= MAXORDINAL -> in_range n = true.
Proof. apply in_range_spec. Qed.

Lemma in_range_false n : n < 1 \/ MAXORDINAL < n -> in_range n = false.
Proof.
  intros H. destruct (in_range n) eqn:E; [|reflexivity].
  apply in_range_spec in E. lia.
Qed.

(** ** The schedulers in closed form *)

Lemma bind_Some_eq {A B} (x : A) (f : A → option B) : Some x ≫= f = f x.
Proof. reflexivity. Qed.

Lemma bind_None_eq {A B} (f : A → option B) : None ≫= f = None.
Proof. reflexivity. Qed.

Lemma seqZ_0_10 : seqZ 0 10 = [0; 1; 2; 3; 4; 5; 6; 7; 8; 9].
Proof. reflexivity. Qed.

Lemma for_each_nil {A S} (body : S → A → option S) s : for_each body s [] = Some s.
Proof. reflexivity. Qed.

Lemma for_each_cons {A S} (body : S → A → option S) s x l :
  for_each body s (x :: l) = body s x ≫= λ s', for_each body s' l.
Proof. reflexivity. Qed.

Lemma mapM_add_days_combine n t (ks : list Z) :
  1 <= n -> Forall (λ k, 1 <= n + k <= MAXORDINAL) ks ->
  mapM (λ i, add_days (combine_ordinal n t) i) ks
  = Some ((λ k, combine_ordinal (n + k) t) <$> ks).
Proof.
  intros Hn Hks. apply mapM_Some, Forall2_fmap_r, Forall_Forall2_diag.
  eapply Forall_impl; [exact Hks|]. intros k Hk. cbn beta in *.
  by rewrite add_days_combine, in_range_true.
Qed.

Lemma mapM_sub_days d (ks : list Z) :
  Forall (λ k, 1 <= toordinal d - k <= MAXORDINAL) ks ->
  mapM (λ k, sub_days d k) ks
  = Some ((λ k, combine_ordinal (toordinal d - k) d) <$> ks).
Proof.
  intros Hks. apply mapM_Some, Forall2_fmap_r, Forall_Forall2_diag.
  eapply Forall_impl; [exact Hks|]. intros k Hk. cbn beta in *.
  by rewrite sub_days_eq, in_range_true.
Qed.

Lemma mapM_sub_days_None d k (ks : list Z) :
  k ∈ ks -> toordinal d - k < 1 -> mapM (λ k, sub_days d k) ks = None.
Proof.
  intros Hin Hk. apply mapM_None, Exists_exists. exists k. split; [exact Hin|].
  rewrite sub_days_eq, in_range_false; [reflexivity | lia].
Qed.

Ltac forall_range :=
  repeat first
    [ apply List.Forall_nil
    | apply List.Forall_cons; [cbn beta; unfold MAXORDINAL in *; lia|] ].

Ltac combine_list_eq :=
  repeat match goal with
  | |- _ :: _ = _ :: _ =>
      apply (f_equal2 cons); [apply (f_equal2 combine_ordinal); [lia|reflexivity]|]
  end; try reflexivity.

Lemma protocol1_sessions_eq R :
  20 <= toordinal R <= MAXORDINAL ->
  protocol1_sessions R
  = Some ((λ k, combine_ordinal (toordinal R - k) R)
            <$> [19; 18; 17; 16; 15; 14; 13; 12; 11; 10],
          (λ k, combine_ordinal (toordinal R - k) R) <$> [7; 5]).
Proof.
  intros Ho. unfold protocol1_sessions, PROTOCOL1_BOUT_START_DAYS_OUT,
    PROTOCOL1_BOUT_DAYS, PROTOCOL1_MAINTENANCE_DAYS.
  rewrite sub_days_eq, in_range_true by lia. rewrite bind_Some_eq.
  rewrite seqZ_0_10.
  rewrite mapM_add_days_combine; [| lia | forall_range].
  rewrite bind_Some_eq.
  rewrite mapM_sub_days by forall_range.
  rewrite bind_Some_eq. f_equal. f_equal.
  cbn [fmap list_fmap]. combine_list_eq.
Qed.

Lemma protocol1_sessions_None R :
  toordinal R < 20 -> protocol1_sessions R = None.
Proof.
  intros Ho. unfold protocol1_sessions, PROTOCOL1_BOUT_START_DAYS_OUT.
  rewrite sub_days_eq, in_range_false by lia. apply bind_None_eq.
Qed.

Section Protocol2.
Variable R : datetime.
Local Abbreviation o := (toordinal R).
Local Abbreviation race_norm := (replace_midnight R).
Local Abbreviation w := (weekday R).

Lemma weekday_bounds : 0 <= w <= 6.
Proof. unfold weekday. Z.div_mod_to_equations. lia. Qed.

Lemma weekday_shift k : 1 <= o - k * 7 -> (o - k * 7 + 6) mod 7 = w.
Proof.
  intros _. unfold weekday.
  replace (o - k * 7 + 6) with (o + 6 + (- k) * 7) by lia.
  apply Z_mod_plus_full.
Qed.

Lemma monday_of_week_eq k :
  1 <= o - k * 7 - w -> o - k * 7 <= MAXORDINAL ->
  monday_of_week race_norm k = Some (combine_ordinal (o - k * 7 - w) race_norm).
Proof.
  intros Hlo Hhi. pose proof weekday_bounds as Hw. unfold monday_of_week.
  rewrite sub_days_eq. rewrite ?toordinal_replace_midnight.
  rewrite in_range_true by lia. rewrite ?bind_Some_eq.
  rewrite weekday_combine, weekday_shift by lia.
  rewrite sub_days_combine, in_range_true by lia. reflexivity.
Qed.

Lemma monday_of_week_None k :
  o - k * 7 - w < 1 -> o <= MAXORDINAL -> 0 <= k ->
  monday_of_week race_norm k = None.
Proof.
  intros Hlo Hhi Hk. pose proof weekday_bounds as Hw. unfold monday_of_week.
  rewrite sub_days_eq. rewrite ?toordinal_replace_midnight.
  destruct (in_range (o - k * 7)) eqn:E; [|reflexivity].
  apply in_range_spec in E. rewrite ?bind_Some_eq.
  rewrite weekday_combine, weekday_shift by lia.
  rewrite sub_days_combine, in_range_false by lia. reflexivity.
Qed.

Lemma monday_6w_as_week6 : monday_6w race_norm = monday_of_week race_norm 6.
Proof. reflexivity. Qed.

Lemma block_start_m_eq k :
  1 <= o - k * 7 - w -> o - k * 7 <= MAXORDINAL -> 1 <= o - k * 7 - 5 ->
  block_start_m race_norm (weekday_offset race_norm) k
  = Some (combine_ordinal (o - k * 7 - 5) race_norm).
Proof.
  intros Hlo Hhi Hlo'. pose proof weekday_bounds as Hw. unfold block_start_m.
  rewrite monday_of_week_eq by lia. rewrite ?bind_Some_eq.
  unfold weekday_offset. rewrite ?weekday_replace_midnight.
  rewrite add_days_combine by lia.
  replace (o - k * 7 - w + (w - 5)) with (o - k * 7 - 5) by lia.
  rewrite in_range_true by lia. reflexivity.
Qed.

Lemma maintenance_body_eq acc k :
  1 <= o - k * 7 - w -> o - k * 7 <= MAXORDINAL -> 1 <= o - k * 7 - 5 ->
  maintenance_body race_norm (weekday_offset race_norm) acc k
  = Some (acc ++ [combine_ordinal (o - k * 7 - 3) race_norm;
                  combine_ordinal (o - k * 7) race_norm]).
Proof.
  intros Hlo Hhi Hlo'. unfold maintenance_body.
  rewrite block_start_m_eq by lia. rewrite ?bind_Some_eq.
  rewrite !add_days_combine by lia.
  rewrite !in_range_true by lia. rewrite ?bind_Some_eq.
  rewrite <- app_assoc. cbn [app]. do 2 f_equal. combine_list_eq.
Qed.

Lemma early_monday : 48 <= o -> 1 <= o - 42 - w.
Proof. intros Ho. unfold weekday. Z.div_mod_to_equations. lia. Qed.

Lemma protocol2_sessions_eq :
  48 <= o <= MAXORDINAL ->
  protocol2_sessions R
  = Some ((λ k, combine_ordinal (o - k) race_norm)
            <$> [47; 46; 44; 43; 42; 40; 39; 37; 36; 35; 34],
          (λ k, combine_ordinal (o - k) race_norm) <$> [31; 28; 24; 21; 17; 14],
          (λ k, combine_ordinal (o - k) race_norm)
            <$> [12; 11; 9; 8; 7; 6; 5; 4; 2]).
Proof.
  intros Ho. pose proof weekday_bounds as Hw. pose proof (early_monday ltac:(lia)) as He.
  unfold protocol2_sessions. cbv zeta.
  unfold block_start. rewrite monday_6w_as_week6.
  fold (block_start_m race_norm (weekday_offset race_norm) 6).
  rewrite block_start_m_eq by lia. rewrite ?bind_Some_eq.
  unfold bout1_offsets. rewrite mapM_add_days_combine; [| lia | forall_range].
  rewrite bind_Some_eq.
  rewrite for_each_cons, maintenance_body_eq, bind_Some_eq by lia.
  rewrite for_each_cons, maintenance_body_eq, bind_Some_eq by lia.
  rewrite for_each_cons, maintenance_body_eq, bind_Some_eq by lia.
  rewrite for_each_nil, bind_Some_eq.
  unfold bout2_week1_offsets.
  rewrite !mapM_sub_days by (rewrite ?toordinal_replace_midnight; forall_range).
  rewrite ?bind_Some_eq. rewrite ?toordinal_replace_midnight.
  cbn [fmap list_fmap app].
  f_equal. apply (f_equal2 pair); [apply (f_equal2 pair)|]; combine_list_eq.
Qed.

Lemma protocol2_sessions_None :
  o < 48 -> o <= MAXORDINAL -> protocol2_sessions R = None.
Proof.
  intros Ho Hhi. pose proof weekday_bounds as Hw.
  unfold protocol2_sessions. cbv zeta.
  unfold block_start. rewrite monday_6w_as_week6.
  destruct (Z_lt_le_dec (o - 6 * 7 - w) 1) as [Hm|Hm].
  { rewrite monday_of_week_None by lia. apply bind_None_eq. }
  rewrite monday_of_week_eq by lia. rewrite ?bind_Some_eq.
  unfold weekday_offset. rewrite ?weekday_replace_midnight.
  rewrite add_days_combine, in_range_false by lia. apply bind_None_eq.
Qed.
End Protocol2.

(** * Properties of the schedulers, the date sets and the grids *)

(** ** Protocol 1 *)

Lemma toordinal_fmap_combine (g : Z → Z) t (ks : list Z) :
  Forall (λ k, 1 <= g k) ks ->
  toordinal <$> ((λ k, combine_ordinal (g k) t) <$> ks) = g <$> ks.
Proof.
  intros Hks. rewrite <- list_fmap_compose. apply Forall_fmap_ext.
  eapply Forall_impl; [exact Hks|]. intros k Hk. cbn beta in Hk.
  unfold compose. by apply toordinal_combine.
Qed.

Lemma NoDup_by_ordinal (l : list datetime) : NoDup (toordinal <$> l) -> NoDup l.
Proof. apply NoDup_fmap_1. Qed.

Ltac nodup_Z :=
  repeat (apply NoDup_cons_2; [rewrite ?elem_of_cons, elem_of_nil; lia|]);
  apply NoDup_nil_2.

(** C1 fails as stated: on 0001-01-05 the subtraction of 19 days leaves the
    range of [datetime] and [protocol1_sessions] raises instead of
    returning. *)
Lemma protocol1_sessions_early_race :
  valid_datetime early_race /\ protocol1_sessions early_race = None.
Proof.
  split; [compute_done|]. apply protocol1_sessions_None. compute_done.
Qed.

(** C1 (amended): for every race date R from 0001-01-20 on,
    [protocol1_sessions] returns a bout of exactly the 10 consecutive dates
    R-19 .. R-10 and a maintenance list of exactly the two dates R-7 and R-5,
    and the 12 dates are pairwise distinct. *)
Theorem protocol1_sessions_schedule (R : datetime) :
  valid_datetime R -> 20 <= toordinal R ->
  ∃ bout maintenance,
    protocol1_sessions R = Some (bout, maintenance)
    /\ length bout = 10%nat
    /\ mapM (λ k, sub_days R k) [19; 18; 17; 16; 15; 14; 13; 12; 11; 10] = Some bout
    /\ toordinal <$> bout = (λ i, toordinal R - 19 + i) <$> seqZ 0 10
    /\ last (toordinal <$> bout) = Some (toordinal R - 10)
    /\ length maintenance = 2%nat
    /\ mapM (λ k, sub_days R k) [7; 5] = Some maintenance
    /\ toordinal <$> maintenance = [toordinal R - 7; toordinal R - 5]
    /\ NoDup (bout ++ maintenance).
Proof.
  intros Hv Ho. pose proof (valid_datetime_ordinal R Hv) as [_ Hhi].
  eexists _, _. split; [apply protocol1_sessions_eq; lia|].
  assert (Hb : toordinal <$> ((λ k, combine_ordinal (toordinal R - k) R)
                 <$> [19; 18; 17; 16; 15; 14; 13; 12; 11; 10])
               = (λ k, toordinal R - k) <$> [19; 18; 17; 16; 15; 14; 13; 12; 11; 10]).
  { apply (toordinal_fmap_combine (λ k, toordinal R - k)). forall_range. }
  assert (Hm : toordinal <$> ((λ k, combine_ordinal (toordinal R - k) R) <$> [7; 5])
               = (λ k, toordinal R - k) <$> [7; 5]).
  { apply (toordinal_fmap_combine (λ k, toordinal R - k)). forall_range. }
  split; [reflexivity|].
  split; [apply mapM_sub_days; forall_range|].
  split.
  { rewrite Hb, seqZ_0_10. cbn [fmap list_fmap].
    repeat (apply (f_equal2 cons); [lia|]). reflexivity. }
  split; [rewrite Hb; reflexivity|].
  split; [reflexivity|].
  split; [apply mapM_sub_days; forall_range|].
  split; [rewrite Hm; reflexivity|].
  apply NoDup_by_ordinal. rewrite fmap_app, Hb, Hm.
  cbn [fmap list_fmap app]. nodup_Z.
Qed.

(** The schedule of Protocol 1 for the race of Saturday 2024-08-10. *)
Lemma protocol1_sessions_schedule_witness :
  valid_datetime example_race /\ 20 <= toordinal example_race
  /\ ∃ bout maintenance,
       protocol1_sessions example_race = Some (bout, maintenance)
       /\ length bout = 10%nat /\ length maintenance = 2%nat
       /\ NoDup (bout ++ maintenance).
Proof.
  assert (Hv : valid_datetime example_race) by compute_done.
  assert (Ho : 20 <= toordinal example_race) by compute_done.
  split; [exact Hv|]. split; [exact Ho|].
  destruct (protocol1_sessions_schedule example_race Hv Ho)
    as (bout & maintenance & H1 & H2 & _ & _ & _ & H3 & _ & _ & H4).
  exists bout, maintenance. auto.
Defined.

(** ** Protocol 2 *)

Section Protocol2Claims.
Variable R : datetime.
Hypothesis valid_R : valid_datetime R.
Local Abbreviation o := (toordinal R).
Local Abbreviation race_norm := (replace_midnight R).
Local Abbreviation w := (weekday R).

Lemma monday_is_monday k : (o - k * 7 - w + 6) mod 7 = 0.
Proof. unfold weekday. Z.div_mod_to_equations. lia. Qed.

Lemma maintenance_week_eq k :
  48 <= o -> 2 <= k <= 6 ->
  maintenance_week R k
    (combine_ordinal (o - k * 7 - w) race_norm)
    (combine_ordinal (o - k * 7 - 5) race_norm)
    (combine_ordinal (o - k * 7 - 3) race_norm)
    (combine_ordinal (o - k * 7) race_norm).
Proof.
  intros Ho Hk. pose proof (valid_datetime_ordinal R valid_R) as [_ Hhi].
  pose proof (weekday_bounds R) as Hw. pose proof (early_monday R Ho) as He.
  unfold maintenance_week.
  split; [apply monday_of_week_eq; lia|].
  split; [rewrite weekday_combine by lia; apply monday_is_monday|].
  split; [rewrite toordinal_combine by lia; lia|].
  split.
  { rewrite add_days_combine, in_range_true by lia.
    do 2 f_equal. lia. }
  split.
  - rewrite add_days_combine, in_range_true by lia. do 2 f_equal. lia.
  - rewrite add_days_combine, in_range_true by lia. do 2 f_equal. lia.
Qed.
End Protocol2Claims.

(** C2 fails as stated: on 0001-02-10 the date 42 days before the race does
    not exist and [protocol2_sessions] raises instead of returning. *)
Lemma protocol2_sessions_february_race :
  valid_datetime february_race /\ protocol2_sessions february_race = None.
Proof.
  split; [compute_done|]. apply protocol2_sessions_None; compute_done.
Qed.

(** C2 (amended): for every race date R from 0001-02-17 on,
    [protocol2_sessions] returns a bout1 of exactly 11 dates, the anchor plus
    the offsets 0,1,3,4,5,7,8,10,11,12,13, where the anchor is the Monday of
    the week containing R-42 shifted by weekday(R)-5; the last date is 13 days
    after the first. *)
Theorem protocol2_bout1_schedule (R : datetime) :
  valid_datetime R -> 48 <= toordinal R ->
  ∃ monday anchor bout1 maintenance bout2,
    protocol2_sessions R = Some (bout1, maintenance, bout2)
    /\ monday_6w (replace_midnight R) = Some monday
    /\ weekday monday = 0
    /\ toordinal monday <= toordinal R - 42 < toordinal monday + 7
    /\ weekday_offset (replace_midnight R) = weekday R - 5
    /\ add_days monday (weekday R - 5) = Some anchor
    /\ mapM (λ i, add_days anchor i) [0; 1; 3; 4; 5; 7; 8; 10; 11; 12; 13]
       = Some bout1
    /\ length bout1 = 11%nat
    /\ toordinal <$> bout1
       = (λ i, toordinal anchor + i) <$> [0; 1; 3; 4; 5; 7; 8; 10; 11; 12; 13]
    /\ ∃ first_day last_day,
         head bout1 = Some first_day /\ last bout1 = Some last_day
         /\ toordinal last_day - toordinal first_day = 13.
Proof.
  intros Hv Ho. pose proof (valid_datetime_ordinal R Hv) as [_ Hhi].
  pose proof (weekday_bounds R) as Hw. pose proof (early_monday R Ho) as He.
  destruct (maintenance_week_eq R Hv 6 Ho ltac:(lia)) as (Hm & Hwd & Hin & Ha & _).
  eexists _, _, _, _, _.
  split; [apply protocol2_sessions_eq; lia|].
  split; [exact Hm|]. split; [exact Hwd|]. split; [exact Hin|].
  split; [reflexivity|]. split; [exact Ha|].
  split.
  { rewrite mapM_add_days_combine; [| lia | forall_range].
    f_equal. cbn [fmap list_fmap]. combine_list_eq. }
  split; [reflexivity|].
  split.
  { rewrite (toordinal_fmap_combine (λ k, toordinal R - k)) by forall_range.
    rewrite toordinal_combine by lia. cbn [fmap list_fmap].
    repeat (apply (f_equal2 cons); [lia|]). reflexivity. }
  eexists _, _. split; [reflexivity|]. split; [reflexivity|].
  rewrite !toordinal_combine by lia. lia.
Qed.

(** The first bout of Protocol 2 for the race of Saturday 2024-08-10. *)
Lemma protocol2_bout1_schedule_witness :
  valid_datetime example_race /\ 48 <= toordinal example_race
  /\ ∃ bout1 maintenance bout2,
       protocol2_sessions example_race = Some (bout1, maintenance, bout2)
       /\ length bout1 = 11%nat.
Proof.
  assert (Hv : valid_datetime example_race) by compute_done.
  assert (Ho : 48 <= toordinal example_race) by compute_done.
  split; [exact Hv|]. split; [exact Ho|].
  destruct (protocol2_bout1_schedule example_race Hv Ho)
    as (_ & _ & bout1 & maintenance & bout2 & H1 & _ & _ & _ & _ & _ & _ & H2 & _).
  exists bout1, maintenance, bout2. auto.
Defined.

Lemma week_monday_combine n t :
  1 <= n -> week_monday (combine_ordinal n t) = n - (n + 6) mod 7.
Proof.
  intros Hn. unfold week_monday. by rewrite weekday_combine, toordinal_combine.
Qed.

Lemma length_remove_dups_of (l l' : list Z) :
  NoDup l' -> (∀ x, x ∈ l ↔ x ∈ l') -> length (remove_dups l) = length l'.
Proof.
  intros Hnd Heq. apply Permutation_length, NoDup_Permutation.
  - apply NoDup_remove_dups.
  - exact Hnd.
  - intros x. rewrite elem_of_remove_dups. apply Heq.
Qed.

Lemma maintenance_calendar_weeks (R t : datetime) :
  32 <= toordinal R ->
  length (calendar_weeks ((λ k, combine_ordinal (toordinal R - k) t)
                            <$> [31; 28; 24; 21; 17; 14]))
  = if 3 <=? weekday R then 3%nat else 4%nat.
Proof.
  intros Ho. unfold calendar_weeks. rewrite <- list_fmap_compose.
  cbn [fmap list_fmap]. unfold compose.
  rewrite !week_monday_combine by lia.
  pose proof (weekday_bounds R) as Hw.
  set (o := toordinal R) in *.
  assert (Hw' : weekday R = (o + 6) mod 7) by reflexivity.
  destruct (Z.leb_spec 3 (weekday R)) as [H3|H3].
  - apply (length_remove_dups_of _
             [o - 28 - weekday R; o - 21 - weekday R; o - 14 - weekday R]).
    + nodup_Z.
    + assert (E1 : o - 31 - (o - 31 + 6) mod 7 = o - 28 - weekday R)
        by (rewrite Hw'; Z.div_mod_to_equations; lia).
      assert (E2 : o - 28 - (o - 28 + 6) mod 7 = o - 28 - weekday R)
        by (rewrite Hw'; Z.div_mod_to_equations; lia).
      assert (E3 : o - 24 - (o - 24 + 6) mod 7 = o - 21 - weekday R)
        by (rewrite Hw'; Z.div_mod_to_equations; lia).
      assert (E4 : o - 21 - (o - 21 + 6) mod 7 = o - 21 - weekday R)
        by (rewrite Hw'; Z.div_mod_to_equations; lia).
      assert (E5 : o - 17 - (o - 17 + 6) mod 7 = o - 14 - weekday R)
        by (rewrite Hw'; Z.div_mod_to_equations; lia).
      assert (E6 : o - 14 - (o - 14 + 6) mod 7 = o - 14 - weekday R)
        by (rewrite Hw'; Z.div_mod_to_equations; lia).
      rewrite E1, E2, E3, E4, E5, E6. intros x.
      rewrite !elem_of_cons, elem_of_nil. tauto.
  - apply (length_remove_dups_of _
             [o - 35 - weekday R; o - 28 - weekday R; o - 21 - weekday R;
              o - 14 - weekday R]).
    + nodup_Z.
    + assert (E1 : o - 31 - (o - 31 + 6) mod 7 = o - 35 - weekday R)
        by (rewrite Hw'; Z.div_mod_to_equations; lia).
      assert (E2 : o - 28 - (o - 28 + 6) mod 7 = o - 28 - weekday R)
        by (rewrite Hw'; Z.div_mod_to_equations; lia).
      assert (E3 : o - 24 - (o - 24 + 6) mod 7 = o - 28 - weekday R)
        by (rewrite Hw'; Z.div_mod_to_equations; lia).
      assert (E4 : o - 21 - (o - 21 + 6) mod 7 = o - 21 - weekday R)
        by (rewrite Hw'; Z.div_mod_to_equations; lia).
      assert (E5 : o - 17 - (o - 17 + 6) mod 7 = o - 21 - weekday R)
        by (rewrite Hw'; Z.div_mod_to_equations; lia).
      assert (E6 : o - 14 - (o - 14 + 6) mod 7 = o - 14 - weekday R)
        by (rewrite Hw'; Z.div_mod_to_equations; lia).
      rewrite E1, E2, E3, E4, E5, E6. intros x.
      rewrite !elem_of_cons, elem_of_nil. tauto.
Qed.

(** C3 fails as stated: for the Monday race 2024-08-12 the six maintenance
    dates (two Fridays and Mondays alternating from 2024-07-12 to 2024-07-29)
    fall in four calendar weeks, not three. *)
Lemma protocol2_maintenance_monday_race :
  valid_datetime monday_race
  /\ ∃ bout1 maintenance bout2,
       protocol2_sessions monday_race = Some (bout1, maintenance, bout2)
       /\ length maintenance = 6%nat
       /\ length (calendar_weeks maintenance) = 4%nat.
Proof.
  split; [compute_done|]. eexists _, _, _.
  split; [apply protocol2_sessions_eq; compute_done|].
  split; [reflexivity|].
  rewrite maintenance_calendar_weeks by compute_done. reflexivity.
Qed.

(** C3 (amended): for every race date R from 0001-02-17 on,
    [protocol2_sessions] returns a maintenance list of exactly 6 dates: for
    weeks_out = 4, 3, 2 in this order the two dates anchor+2 and anchor+5,
    the anchor being the Monday of the week containing R - 7*weeks_out shifted
    by weekday(R)-5. The three anchors are 7 days apart, so the dates fall in
    three consecutive 7-day blocks that start at the anchors; they fall in
    three calendar weeks (Monday to Sunday) when R is a Thursday to Sunday,
    and in four when R is a Monday to Wednesday. *)
Theorem protocol2_maintenance_schedule (R : datetime) :
  valid_datetime R -> 48 <= toordinal R ->
  ∃ bout1 maintenance bout2,
    protocol2_sessions R = Some (bout1, maintenance, bout2)
    /\ length maintenance = 6%nat
    /\ (∃ monday4 anchor4 s42 s45 monday3 anchor3 s32 s35 monday2 anchor2 s22 s25,
          maintenance = [s42; s45; s32; s35; s22; s25]
          /\ maintenance_week R 4 monday4 anchor4 s42 s45
          /\ maintenance_week R 3 monday3 anchor3 s32 s35
          /\ maintenance_week R 2 monday2 anchor2 s22 s25
          /\ toordinal anchor3 = toordinal anchor4 + 7
          /\ toordinal anchor2 = toordinal anchor3 + 7)
    /\ length (calendar_weeks maintenance)
       = if 3 <=? weekday R then 3%nat else 4%nat.
Proof.
  intros Hv Ho. pose proof (valid_datetime_ordinal R Hv) as [_ Hhi].
  eexists _, _, _.
  split; [apply protocol2_sessions_eq; lia|].
  split; [reflexivity|].
  split.
  - pose proof (maintenance_week_eq R Hv 4 Ho ltac:(lia)) as H4.
    pose proof (maintenance_week_eq R Hv 3 Ho ltac:(lia)) as H3.
    pose proof (maintenance_week_eq R Hv 2 Ho ltac:(lia)) as H2.
    eexists _, _, _, _, _, _, _, _, _, _, _, _.
    split; [|split; [exact H4|split; [exact H3|split; [exact H2|]]]].
    + cbn [fmap list_fmap]. combine_list_eq.
    + rewrite !toordinal_combine by lia. lia.
  - apply maintenance_calendar_weeks. lia.
Qed.

(** The maintenance sessions for the race of Saturday 2024-08-10: three calendar weeks. *)
Lemma protocol2_maintenance_schedule_witness :
  valid_datetime example_race /\ 48 <= toordinal example_race
  /\ ∃ bout1 maintenance bout2,
       protocol2_sessions example_race = Some (bout1, maintenance, bout2)
       /\ length maintenance = 6%nat
       /\ length (calendar_weeks maintenance) = 3%nat.
Proof.
  assert (Hv : valid_datetime example_race) by compute_done.
  assert (Ho : 48 <= toordinal example_race) by compute_done.
  split; [exact Hv|]. split; [exact Ho|].
  destruct (protocol2_maintenance_schedule example_race Hv Ho)
    as (bout1 & maintenance & bout2 & H1 & H2 & _ & H3).
  exists bout1, maintenance, bout2.
  split; [exact H1|]. split; [exact H2|]. exact H3.
Defined.

(** C4 fails as stated: on 0001-01-05 not even the date 12 days before the
    race exists, and [protocol2_sessions] raises instead of returning. *)
Lemma protocol2_sessions_early_race :
  valid_datetime early_race
  /\ sub_days (replace_midnight early_race) 12 = None
  /\ protocol2_sessions early_race = None.
Proof.
  split; [compute_done|]. split.
  - rewrite sub_days_eq, in_range_false by compute_done. reflexivity.
  - apply protocol2_sessions_None; compute_done.
Qed.

(** C4 (amended): for every race date R from 0001-02-17 on,
    [protocol2_sessions] returns a bout2 of exactly 9 dates at fixed distances
    from the race date, whatever its weekday: the first six are R-12, R-11,
    R-9, R-8, R-7, R-6 and the last three are R-5, R-4, R-2. *)
Theorem protocol2_bout2_schedule (R : datetime) :
  valid_datetime R -> 48 <= toordinal R ->
  ∃ bout1 maintenance bout2,
    protocol2_sessions R = Some (bout1, maintenance, bout2)
    /\ length bout2 = 9%nat
    /\ mapM (λ d, sub_days (replace_midnight R) d) [12; 11; 9; 8; 7; 6]
       = Some (take 6 bout2)
    /\ mapM (λ d, sub_days (replace_midnight R) d) [5; 4; 2] = Some (drop 6 bout2)
    /\ toordinal <$> bout2
       = (λ d, toordinal R - d) <$> [12; 11; 9; 8; 7; 6; 5; 4; 2].
Proof.
  intros Hv Ho. pose proof (valid_datetime_ordinal R Hv) as [_ Hhi].
  eexists _, _, _.
  split; [apply protocol2_sessions_eq; lia|].
  split; [reflexivity|].
  split.
  { rewrite mapM_sub_days by (rewrite toordinal_replace_midnight; forall_range).
    rewrite toordinal_replace_midnight. reflexivity. }
  split.
  { rewrite mapM_sub_days by (rewrite toordinal_replace_midnight; forall_range).
    rewrite toordinal_replace_midnight. reflexivity. }
  apply (toordinal_fmap_combine (λ k, toordinal R - k)). forall_range.
Qed.

(** The second bout for the race of Saturday 2024-08-10. *)
Lemma protocol2_bout2_schedule_witness :
  valid_datetime example_race /\ 48 <= toordinal example_race
  /\ ∃ bout1 maintenance bout2,
       protocol2_sessions example_race = Some (bout1, maintenance, bout2)
       /\ length bout2 = 9%nat.
Proof.
  assert (Hv : valid_datetime example_race) by compute_done.
  assert (Ho : 48 <= toordinal example_race) by compute_done.
  split; [exact Hv|]. split; [exact Ho|].
  destruct (protocol2_bout2_schedule example_race Hv Ho)
    as (bout1 & maintenance & bout2 & H1 & H2 & _).
  exists bout1, maintenance, bout2. auto.
Defined.

(** *** Saturday races and fixed offsets *)

Lemma add_days_zero_after c j m : sub_days c j = Some m -> add_days m 0 = Some m.
Proof.
  rewrite sub_days_eq. destruct (in_range (toordinal c - j)) eqn:E; [|discriminate].
  intros [= <-]. apply in_range_spec in E.
  rewrite add_days_combine by lia. rewrite Z.add_0_r.
  rewrite in_range_true by lia. reflexivity.
Qed.

Lemma block_start_m_unshifted race_norm k :
  block_start_m race_norm 0 k = monday_of_week race_norm k.
Proof.
  unfold block_start_m, monday_of_week.
  destruct (sub_days race_norm (k * 7)) as [c|]; [|reflexivity].
  rewrite bind_Some_eq.
  destruct (sub_days c (weekday c)) as [m|] eqn:E; [|reflexivity].
  rewrite bind_Some_eq. by eapply add_days_zero_after.
Qed.

Lemma block_start_as_week6 race_norm offset :
  block_start race_norm offset = block_start_m race_norm offset 6.
Proof. reflexivity. Qed.

Lemma add_days_pair_combine n t i n' :
  1 <= n -> 1 <= n' <= MAXORDINAL -> n' = n + i ->
  (λ p : datetime * Z, add_days p.1 p.2) (combine_ordinal n t, i)
  = Some (combine_ordinal n' t).
Proof.
  intros Hn Hn' ->. cbn beta. cbn [fst snd].
  by rewrite add_days_combine, in_range_true.
Qed.

(** C8: for a race on a Saturday the weekday offset is 0, and whatever
    [protocol2_sessions] returns is built on the unshifted Mondays: the block
    start of bout1 is the Monday of the week containing R-42, bout1 is that
    Monday plus the bout offsets, and the maintenance sessions are the
    Mondays of the weeks containing R-28, R-21 and R-14 plus 2 and plus 5
    days.  The function returns exactly for the race dates from 0001-02-17
    on. *)
Theorem saturday_anchors_unshifted (R : datetime) :
  valid_datetime R -> weekday R = 5 ->
  weekday_offset (replace_midnight R) = 0
  /\ (∀ bout1 maintenance bout2,
        protocol2_sessions R = Some (bout1, maintenance, bout2) ->
        ∃ monday6 monday4 monday3 monday2,
          monday_6w (replace_midnight R) = Some monday6
          /\ monday_of_week (replace_midnight R) 4 = Some monday4
          /\ monday_of_week (replace_midnight R) 3 = Some monday3
          /\ monday_of_week (replace_midnight R) 2 = Some monday2
          /\ Forall (λ p : datetime * Z,
                       weekday p.1 = 0
                       /\ toordinal p.1 <= toordinal R - p.2 * 7
                          < toordinal p.1 + 7)
               [(monday6, 6); (monday4, 4); (monday3, 3); (monday2, 2)]
          /\ block_start (replace_midnight R)
               (weekday_offset (replace_midnight R)) = Some monday6
          /\ Forall (λ p : datetime * Z,
                       block_start_m (replace_midnight R)
                         (weekday_offset (replace_midnight R)) p.2
                       = Some p.1)
               [(monday4, 4); (monday3, 3); (monday2, 2)]
          /\ mapM (λ i, add_days monday6 i) bout1_offsets = Some bout1
          /\ head bout1 = Some monday6
          /\ mapM (λ p : datetime * Z, add_days p.1 p.2)
               [(monday4, 2); (monday4, 5); (monday3, 2); (monday3, 5);
                (monday2, 2); (monday2, 5)]
             = Some maintenance)
  /\ (is_Some (protocol2_sessions R) ↔ 48 <= toordinal R).
Proof.
  intros Hv Hsat. pose proof (valid_datetime_ordinal R Hv) as [_ Hhi].
  assert (Hoff : weekday_offset (replace_midnight R) = 0).
  { unfold weekday_offset. rewrite weekday_replace_midnight. lia. }
  split; [exact Hoff|]. rewrite Hoff. split.
  - intros bout1 maintenance bout2 Hp.
    destruct (Z_lt_le_dec (toordinal R) 48) as [Ho|Ho].
    { rewrite protocol2_sessions_None in Hp by lia. discriminate. }
    rewrite protocol2_sessions_eq in Hp by lia.
    assert (Hb : bout1
                 = (λ k, combine_ordinal (toordinal R - k) (replace_midnight R))
                     <$> [47; 46; 44; 43; 42; 40; 39; 37; 36; 35; 34])
      by congruence.
    assert (Hmt : maintenance
                  = (λ k, combine_ordinal (toordinal R - k) (replace_midnight R))
                      <$> [31; 28; 24; 21; 17; 14])
      by congruence.
    clear Hp. subst bout1 maintenance.
    destruct (maintenance_week_eq R Hv 6 Ho ltac:(lia)) as (M6 & W6 & I6 & _).
    destruct (maintenance_week_eq R Hv 4 Ho ltac:(lia)) as (M4 & W4 & I4 & _).
    destruct (maintenance_week_eq R Hv 3 Ho ltac:(lia)) as (M3 & W3 & I3 & _).
    destruct (maintenance_week_eq R Hv 2 Ho ltac:(lia)) as (M2 & W2 & I2 & _).
    rewrite Hsat in M6. rewrite Hsat in W6. rewrite Hsat in I6.
    rewrite Hsat in M4. rewrite Hsat in W4. rewrite Hsat in I4.
    rewrite Hsat in M3. rewrite Hsat in W3. rewrite Hsat in I3.
    rewrite Hsat in M2. rewrite Hsat in W2. rewrite Hsat in I2.
    eexists _, _, _, _.
    split; [exact M6|]. split; [exact M4|]. split; [exact M3|].
    split; [exact M2|].
    split.
    { apply Forall_cons_2; [exact (conj W6 I6)|].
      apply Forall_cons_2; [exact (conj W4 I4)|].
      apply Forall_cons_2; [exact (conj W3 I3)|].
      apply Forall_cons_2; [exact (conj W2 I2)|]. apply Forall_nil_2. }
    split.
    { rewrite block_start_as_week6, block_start_m_unshifted. exact M6. }
    split.
    { rewrite !Forall_cons, !block_start_m_unshifted.
      split; [exact M4|]. split; [exact M3|]. split; [exact M2|].
      apply Forall_nil_2. }
    split.
    { unfold bout1_offsets.
      rewrite mapM_add_days_combine; [| lia | forall_range].
      f_equal. cbn [fmap list_fmap]. combine_list_eq. }
    split.
    { cbn [fmap list_fmap head]. do 2 f_equal. lia. }
    apply mapM_Some. cbn [fmap list_fmap].
    repeat (apply List.Forall2_cons;
            [apply add_days_pair_combine; unfold MAXORDINAL in *; lia|]).
    apply List.Forall2_nil.
  - split.
    + intros [x Hx]. destruct (Z_lt_le_dec (toordinal R) 48) as [Ho|Ho]; [|exact Ho].
      rewrite protocol2_sessions_None in Hx by lia. discriminate.
    + intros Ho. rewrite protocol2_sessions_eq by lia. eauto.
Qed.

(** The race of 2024-08-10 is on a Saturday: the first bout starts on Monday
    2024-06-24, the Monday of the week of 2024-06-29, and the first
    maintenance session is on Wednesday 2024-07-10. *)
Lemma saturday_anchors_unshifted_witness :
  valid_datetime example_race /\ weekday example_race = 5
  /\ ∃ bout1 maintenance bout2,
       protocol2_sessions example_race = Some (bout1, maintenance, bout2)
       /\ monday_6w (replace_midnight example_race) = head bout1
       /\ head bout1 = Some (Datetime 2024 6 24 0 0 0 0)
       /\ head maintenance = Some (Datetime 2024 7 10 0 0 0 0).
Proof.
  assert (Hv : valid_datetime example_race) by compute_done.
  assert (Hs : weekday example_race = 5) by reflexivity.
  split; [exact Hv|]. split; [exact Hs|].
  pose proof (protocol2_sessions_eq example_race ltac:(compute_done)) as Hp.
  destruct (proj1 (proj2 (saturday_anchors_unshifted example_race Hv Hs))
              _ _ _ Hp)
    as (monday6 & ? & ? & ? & M6 & _ & _ & _ & _ & _ & _ & _ & Hh & _).
  eexists _, _, _. split; [exact Hp|].
  split; [rewrite M6, Hh; reflexivity|].
  split; reflexivity.
Defined.

Lemma block_start_None (R : datetime) :
  toordinal R < 48 -> toordinal R <= MAXORDINAL ->
  block_start (replace_midnight R) (weekday_offset (replace_midnight R)) = None.
Proof.
  intros Ho Hhi. pose proof (weekday_bounds R) as Hw.
  rewrite block_start_as_week6. unfold block_start_m.
  destruct (Z_lt_le_dec (toordinal R - 6 * 7 - weekday R) 1) as [Hm|Hm].
  { rewrite monday_of_week_None by lia. apply bind_None_eq. }
  rewrite monday_of_week_eq by lia. rewrite bind_Some_eq.
  unfold weekday_offset. rewrite weekday_replace_midnight.
  rewrite add_days_combine, in_range_false by lia. reflexivity.
Qed.

(** C9: for every race date R the Monday-plus-offset construction of
    [protocol2_sessions] is the same computation as fixed offsets from R,
    whatever the weekday of R: the bout1 anchor is R-47, bout1 is R-47, R-46,
    R-44, R-43, R-42, R-40, R-39, R-37, R-36, R-35, R-34 and the maintenance
    sessions are R-31, R-28, R-24, R-21, R-17, R-14 (both computations raise
    for the same race dates, those before 0001-02-17). *)
Theorem protocol2_fixed_offsets_equiv (R : datetime) :
  valid_datetime R ->
  block_start (replace_midnight R) (weekday_offset (replace_midnight R))
  = sub_days (replace_midnight R) 47
  /\ (λ r, (r.1.1, r.1.2)) <$> protocol2_sessions R = protocol2_fixed_offsets R
  /\ (48 <= toordinal R ->
      ∃ bout1 maintenance,
        protocol2_fixed_offsets R = Some (bout1, maintenance)
        /\ toordinal <$> bout1 = (λ d, toordinal R - d) <$> bout1_days_out
        /\ toordinal <$> maintenance
           = (λ d, toordinal R - d) <$> maintenance_days_out).
Proof.
  intros Hv. pose proof (valid_datetime_ordinal R Hv) as [_ Hhi].
  assert (Hfixed : 48 <= toordinal R ->
    protocol2_fixed_offsets R
    = Some ((λ k, combine_ordinal (toordinal R - k) (replace_midnight R))
              <$> bout1_days_out,
            (λ k, combine_ordinal (toordinal R - k) (replace_midnight R))
              <$> maintenance_days_out)).
  { intros Ho. unfold protocol2_fixed_offsets. cbv zeta.
    rewrite !mapM_sub_days
      by (rewrite toordinal_replace_midnight; unfold bout1_days_out,
            maintenance_days_out; forall_range).
    rewrite !bind_Some_eq, toordinal_replace_midnight. reflexivity. }
  destruct (Z_lt_le_dec (toordinal R) 48) as [Ho|Ho].
  - split.
    { rewrite block_start_None by lia.
      rewrite sub_days_eq, toordinal_replace_midnight, in_range_false by lia.
      reflexivity. }
    split; [|lia].
    rewrite protocol2_sessions_None by lia.
    unfold protocol2_fixed_offsets. cbv zeta.
    rewrite (mapM_sub_days_None (replace_midnight R) 47 bout1_days_out).
    + reflexivity.
    + unfold bout1_days_out. apply elem_of_cons. by left.
    + rewrite toordinal_replace_midnight. lia.
  - pose proof (weekday_bounds R) as Hw. pose proof (early_monday R Ho) as He.
    split.
    { rewrite block_start_as_week6, block_start_m_eq by lia.
      rewrite sub_days_eq, toordinal_replace_midnight, in_range_true by lia.
      do 2 f_equal. lia. }
    split.
    { rewrite protocol2_sessions_eq, Hfixed by lia. reflexivity. }
    intros _. eexists _, _. split; [apply Hfixed; lia|].
    split; apply (toordinal_fmap_combine (λ k, toordinal R - k));
      unfold bout1_days_out, maintenance_days_out; forall_range.
Qed.

(** The two computations agree for the Monday race 2024-08-12. *)
Lemma protocol2_fixed_offsets_equiv_witness :
  valid_datetime monday_race
  /\ (λ r, (r.1.1, r.1.2)) <$> protocol2_sessions monday_race
     = protocol2_fixed_offsets monday_race.
Proof.
  assert (Hv : valid_datetime monday_race) by compute_done.
  split; [exact Hv|].
  exact (proj1 (proj2 (protocol2_fixed_offsets_equiv monday_race Hv))).
Defined.

(** ** Normalised date sets *)

Lemma elem_of_sessions_to_set (x : datetime) (l : list datetime) :
  x ∈ sessions_to_set l ↔ ∃ d, d ∈ l /\ x = replace_midnight d.
Proof.
  unfold sessions_to_set. rewrite elem_of_list_to_set, list_elem_of_fmap.
  split; intros (d & H1 & H2); exists d; auto.
Qed.

Lemma replace_midnight_same_day (a b : datetime) :
  replace_midnight a = replace_midnight b
  ↔ year a = year b /\ month a = month b /\ day a = day b.
Proof.
  unfold replace_midnight. split.
  - intros [= Hy Hm Hd]. auto.
  - intros (-> & -> & ->). reflexivity.
Qed.

(** C10: normalising the elements of a normalised set gives the same set, a
    list of normalised dates is normalised to exactly the set of its
    elements, and two datetimes have the same normal form exactly when their
    year, month and day agree. *)
Theorem sessions_to_set_idempotent :
  (∀ xs : list datetime,
     sessions_to_set (elements (sessions_to_set xs)) = sessions_to_set xs)
  /\ (∀ xs : list datetime,
        sessions_to_set (replace_midnight <$> xs)
        = list_to_set (replace_midnight <$> xs))
  /\ (∀ a b : datetime,
        replace_midnight a = replace_midnight b
        ↔ year a = year b /\ month a = month b /\ day a = day b)
  /\ (∀ (a : datetime) (xs : list datetime),
        replace_midnight a ∈ sessions_to_set xs
        ↔ ∃ d, d ∈ xs /\ year a = year d /\ month a = month d /\ day a = day d).
Proof.
  split; [|split; [|split]].
  - intros xs. apply set_eq. intros x.
    rewrite elem_of_sessions_to_set. split.
    + intros (d & Hd & ->). apply elem_of_elements in Hd.
      apply elem_of_sessions_to_set in Hd as (d' & Hd' & ->).
      apply elem_of_sessions_to_set. exists d'. auto.
    + intros Hx. exists x. split; [by apply elem_of_elements|].
      apply elem_of_sessions_to_set in Hx as (d' & Hd' & ->). reflexivity.
  - intros xs. unfold sessions_to_set. f_equal.
    rewrite <- list_fmap_compose. apply list_fmap_ext. intros i x _. reflexivity.
  - apply replace_midnight_same_day.
  - intros a xs. rewrite elem_of_sessions_to_set.
    split; intros (d & Hd & H); exists d; (split; [exact Hd|]);
      by apply replace_midnight_same_day.
Qed.

Lemma sessions_to_set_combine (x : datetime) (o : Z) (t : datetime) (ks : list Z) :
  Forall (λ k, 1 <= o - k) ks ->
  x ∈ sessions_to_set ((λ k, combine_ordinal (o - k) t) <$> ks) ->
  ∃ k, k ∈ ks /\ toordinal x = o - k.
Proof.
  intros Hks Hx. apply elem_of_sessions_to_set in Hx as (d & Hd & ->).
  apply list_elem_of_fmap in Hd as (k & -> & Hk). exists k. split; [exact Hk|].
  rewrite toordinal_replace_midnight. apply toordinal_combine.
  rewrite Forall_forall in Hks. by apply Hks.
Qed.

Lemma not_in_sessions_to_set_normalised (R : datetime) (l : list datetime) :
  replace_midnight R ∉ sessions_to_set l -> R ∉ sessions_to_set l.
Proof.
  intros Hn HR. apply Hn.
  pose proof HR as HR'. apply elem_of_sessions_to_set in HR' as (d & _ & E).
  rewrite E at 1. rewrite replace_midnight_idemp. by rewrite <- E.
Qed.

Ltac ordinal_clash H1 H2 :=
  let k1 := fresh "k" in let k2 := fresh "k" in
  let Hk1 := fresh "Hk" in let Hk2 := fresh "Hk" in
  let E1 := fresh "E" in let E2 := fresh "E" in
  apply sessions_to_set_combine in H1 as (k1 & Hk1 & E1); [|forall_range];
  apply sessions_to_set_combine in H2 as (k2 & Hk2 & E2); [|forall_range];
  rewrite !elem_of_cons, elem_of_nil in Hk1;
  rewrite !elem_of_cons, elem_of_nil in Hk2; lia.

Ltac ordinal_absent H :=
  let k := fresh "k" in let Hk := fresh "Hk" in let E := fresh "E" in
  apply sessions_to_set_combine in H as (k & Hk & E); [|forall_range];
  rewrite toordinal_replace_midnight in E;
  rewrite !elem_of_cons, elem_of_nil in Hk; lia.

Lemma protocol1_sessions_inv (R : datetime) bout maintenance :
  valid_datetime R -> protocol1_sessions R = Some (bout, maintenance) ->
  20 <= toordinal R <= MAXORDINAL
  /\ bout = (λ k, combine_ordinal (toordinal R - k) R)
              <$> [19; 18; 17; 16; 15; 14; 13; 12; 11; 10]
  /\ maintenance = (λ k, combine_ordinal (toordinal R - k) R) <$> [7; 5].
Proof.
  intros Hv Hp. pose proof (valid_datetime_ordinal R Hv) as [_ Hhi].
  destruct (Z_lt_le_dec (toordinal R) 20) as [Ho|Ho].
  { rewrite protocol1_sessions_None in Hp by lia. discriminate. }
  rewrite protocol1_sessions_eq in Hp by lia.
  split; [lia|]. split; congruence.
Qed.

Lemma protocol2_sessions_inv (R : datetime) bout1 maintenance bout2 :
  valid_datetime R -> protocol2_sessions R = Some (bout1, maintenance, bout2) ->
  48 <= toordinal R <= MAXORDINAL
  /\ bout1 = (λ k, combine_ordinal (toordinal R - k) (replace_midnight R))
               <$> [47; 46; 44; 43; 42; 40; 39; 37; 36; 35; 34]
  /\ maintenance = (λ k, combine_ordinal (toordinal R - k) (replace_midnight R))
                     <$> [31; 28; 24; 21; 17; 14]
  /\ bout2 = (λ k, combine_ordinal (toordinal R - k) (replace_midnight R))
               <$> [12; 11; 9; 8; 7; 6; 5; 4; 2].
Proof.
  intros Hv Hp. pose proof (valid_datetime_ordinal R Hv) as [_ Hhi].
  destruct (Z_lt_le_dec (toordinal R) 48) as [Ho|Ho].
  { rewrite protocol2_sessions_None in Hp by lia. discriminate. }
  rewrite protocol2_sessions_eq in Hp by lia.
  split; [lia|]. split; [|split]; congruence.
Qed.

Lemma protocol1_sets_disjoint (R : datetime) bout maintenance :
  valid_datetime R -> protocol1_sessions R = Some (bout, maintenance) ->
  (sessions_to_set bout ## sessions_to_set maintenance)
  /\ (replace_midnight R ∉ sessions_to_set bout)
  /\ (replace_midnight R ∉ sessions_to_set maintenance).
Proof.
  intros Hv Hp.
  destruct (protocol1_sessions_inv R _ _ Hv Hp) as (Ho & -> & ->).
  split; [|split].
  - apply elem_of_disjoint. intros x Hx1 Hx2. ordinal_clash Hx1 Hx2.
  - intros Hx. ordinal_absent Hx.
  - intros Hx. ordinal_absent Hx.
Qed.

Lemma protocol2_sets_disjoint (R : datetime) bout1 maintenance bout2 :
  valid_datetime R -> protocol2_sessions R = Some (bout1, maintenance, bout2) ->
  (sessions_to_set bout1 ## sessions_to_set maintenance)
  /\ (sessions_to_set bout1 ## sessions_to_set bout2)
  /\ (sessions_to_set maintenance ## sessions_to_set bout2)
  /\ (replace_midnight R ∉ sessions_to_set bout1)
  /\ (replace_midnight R ∉ sessions_to_set maintenance)
  /\ (replace_midnight R ∉ sessions_to_set bout2).
Proof.
  intros Hv Hp.
  destruct (protocol2_sessions_inv R _ _ _ Hv Hp) as (Ho & -> & -> & ->).
  split; [|split; [|split; [|split; [|split]]]].
  - apply elem_of_disjoint. intros x Hx1 Hx2. ordinal_clash Hx1 Hx2.
  - apply elem_of_disjoint. intros x Hx1 Hx2. ordinal_clash Hx1 Hx2.
  - apply elem_of_disjoint. intros x Hx1 Hx2. ordinal_clash Hx1 Hx2.
  - intros Hx. ordinal_absent Hx.
  - intros Hx. ordinal_absent Hx.
  - intros Hx. ordinal_absent Hx.
Qed.

Lemma in_own_set (d : datetime) (l l' : list datetime) :
  sessions_to_set l ## sessions_to_set l' -> d ∈ l ->
  (replace_midnight d ∈ sessions_to_set l)
  /\ (replace_midnight d ∉ sessions_to_set l').
Proof.
  intros Hdis Hd.
  assert (Hin : replace_midnight d ∈ sessions_to_set l).
  { apply elem_of_sessions_to_set. exists d. auto. }
  split; [exact Hin|]. intros Hin'.
  exact (proj1 (elem_of_disjoint _ _) Hdis _ Hin Hin').
Qed.

(** C7: for every race date R the normalised sets built from the schedulers'
    lists are pairwise disjoint and none contains R: bout and maintenance for
    Protocol 1; bout1, maintenance and bout2 for Protocol 2.  Every scheduled
    date is in exactly one of them: its normal form is a member of the set of
    its own category and of no other.  Both schedulers return for every race
    date from 0001-02-17 on. *)
Theorem category_sets_disjoint (R : datetime) :
  valid_datetime R ->
  (∀ bout maintenance,
     protocol1_sessions R = Some (bout, maintenance) ->
     (sessions_to_set bout ## sessions_to_set maintenance)
     /\ (replace_midnight R ∉ sessions_to_set bout)
     /\ (replace_midnight R ∉ sessions_to_set maintenance)
     /\ (R ∉ sessions_to_set bout) /\ (R ∉ sessions_to_set maintenance)
     /\ (∀ d, d ∈ bout ->
           (replace_midnight d ∈ sessions_to_set bout)
           /\ (replace_midnight d ∉ sessions_to_set maintenance))
     /\ (∀ d, d ∈ maintenance ->
           (replace_midnight d ∈ sessions_to_set maintenance)
           /\ (replace_midnight d ∉ sessions_to_set bout)))
  /\ (∀ bout1 maintenance bout2,
        protocol2_sessions R = Some (bout1, maintenance, bout2) ->
        (sessions_to_set bout1 ## sessions_to_set maintenance)
        /\ (sessions_to_set bout1 ## sessions_to_set bout2)
        /\ (sessions_to_set maintenance ## sessions_to_set bout2)
        /\ (replace_midnight R ∉ sessions_to_set bout1)
        /\ (replace_midnight R ∉ sessions_to_set maintenance)
        /\ (replace_midnight R ∉ sessions_to_set bout2)
        /\ (R ∉ sessions_to_set bout1) /\ (R ∉ sessions_to_set maintenance)
        /\ (R ∉ sessions_to_set bout2)
        /\ (∀ d, d ∈ bout1 ->
              (replace_midnight d ∈ sessions_to_set bout1)
              /\ (replace_midnight d ∉ sessions_to_set maintenance)
              /\ (replace_midnight d ∉ sessions_to_set bout2))
        /\ (∀ d, d ∈ maintenance ->
              (replace_midnight d ∈ sessions_to_set maintenance)
              /\ (replace_midnight d ∉ sessions_to_set bout1)
              /\ (replace_midnight d ∉ sessions_to_set bout2))
        /\ (∀ d, d ∈ bout2 ->
              (replace_midnight d ∈ sessions_to_set bout2)
              /\ (replace_midnight d ∉ sessions_to_set bout1)
              /\ (replace_midnight d ∉ sessions_to_set maintenance)))
  /\ (48 <= toordinal R ->
      is_Some (protocol1_sessions R) /\ is_Some (protocol2_sessions R)).
Proof.
  intros Hv. pose proof (valid_datetime_ordinal R Hv) as [_ Hhi].
  split; [|split].
  - intros bout maintenance Hp.
    destruct (protocol1_sets_disjoint R _ _ Hv Hp) as (H1 & H2 & H3).
    split; [exact H1|]. split; [exact H2|]. split; [exact H3|].
    split; [by apply not_in_sessions_to_set_normalised|].
    split; [by apply not_in_sessions_to_set_normalised|].
    split; intros d Hd.
    + by apply in_own_set.
    + by apply in_own_set.
  - intros bout1 maintenance bout2 Hp.
    destruct (protocol2_sets_disjoint R _ _ _ Hv Hp)
      as (D1 & D2 & D3 & H1 & H2 & H3).
    split; [exact D1|]. split; [exact D2|]. split; [exact D3|].
    split; [exact H1|]. split; [exact H2|]. split; [exact H3|].
    split; [by apply not_in_sessions_to_set_normalised|].
    split; [by apply not_in_sessions_to_set_normalised|].
    split; [by apply not_in_sessions_to_set_normalised|].
    split; [|split]; intros d Hd.
    + destruct (in_own_set d _ _ D1 Hd) as [Hin Hn1].
      destruct (in_own_set d _ _ D2 Hd) as [_ Hn2]. auto.
    + symmetry in D1.
      destruct (in_own_set d _ _ D1 Hd) as [Hin Hn1].
      destruct (in_own_set d _ _ D3 Hd) as [_ Hn2]. auto.
    + symmetry in D2. symmetry in D3.
      destruct (in_own_set d _ _ D2 Hd) as [Hin Hn1].
      destruct (in_own_set d _ _ D3 Hd) as [_ Hn2]. auto.
  - intros Ho. split.
    + rewrite protocol1_sessions_eq by lia. eauto.
    + rewrite protocol2_sessions_eq by lia. eauto.
Qed.

(** The sets for the race of Saturday 2024-08-10: the first maintenance
    session of Protocol 2, on 2024-07-10, is in the maintenance set only, and
    the first bout session of Protocol 1, on 2024-07-22, in the bout set
    only. *)
Lemma category_sets_disjoint_witness :
  valid_datetime example_race
  /\ (∃ bout1 maintenance bout2,
        protocol2_sessions example_race = Some (bout1, maintenance, bout2)
        /\ (sessions_to_set bout1 ## sessions_to_set maintenance)
        /\ (sessions_to_set maintenance ## sessions_to_set bout2)
        /\ ∃ d, head maintenance = Some d
                /\ replace_midnight d = Datetime 2024 7 10 0 0 0 0
                /\ (replace_midnight d ∈ sessions_to_set maintenance)
                /\ (replace_midnight d ∉ sessions_to_set bout1)
                /\ (replace_midnight d ∉ sessions_to_set bout2))
  /\ (∃ bout maintenance,
        protocol1_sessions example_race = Some (bout, maintenance)
        /\ (sessions_to_set bout ## sessions_to_set maintenance)
        /\ ∃ d, head bout = Some d
                /\ replace_midnight d = Datetime 2024 7 22 0 0 0 0
                /\ (replace_midnight d ∈ sessions_to_set bout)
                /\ (replace_midnight d ∉ sessions_to_set maintenance)).
Proof.
  assert (Hv : valid_datetime example_race) by compute_done.
  split; [exact Hv|].
  destruct (category_sets_disjoint example_race Hv) as (H1 & H2 & _).
  split.
  - eexists _, _, _. split; [apply protocol2_sessions_eq; compute_done|].
    edestruct H2 as (D1 & _ & D3 & _ & _ & _ & _ & _ & _ & _ & Hm & _);
      [apply protocol2_sessions_eq; compute_done|].
    split; [exact D1|]. split; [exact D3|].
    eexists. split; [reflexivity|]. split; [reflexivity|].
    apply Hm. apply elem_of_cons. left. reflexivity.
  - eexists _, _. split; [apply protocol1_sessions_eq; compute_done|].
    edestruct H1 as (D1 & _ & _ & _ & _ & Hb & _);
      [apply protocol1_sessions_eq; compute_done|].
    split; [exact D1|].
    eexists. split; [reflexivity|]. split; [reflexivity|].
    apply Hb. apply elem_of_cons. left. reflexivity.
Defined.

(** ** [monthcalendar] and the month grids *)

Lemma mapM_elem_of_r {A B} (f : A → option B) (l : list A) (k : list B) (y : B) :
  mapM f l = Some k -> y ∈ k -> ∃ x, x ∈ l /\ f x = Some y.
Proof.
  intros Hm Hy. apply mapM_Some_1 in Hm.
  apply list_elem_of_lookup in Hy as [i Hi].
  destruct (Forall2_lookup_r _ _ _ _ _ Hm Hi) as (x & Hx & Hf).
  exists x. split; [|exact Hf]. apply list_elem_of_lookup. eauto.
Qed.

Lemma mapM_elem_of_l {A B} (f : A → option B) (l : list A) (k : list B) (x : A) :
  mapM f l = Some k -> x ∈ l -> ∃ y, y ∈ k /\ f x = Some y.
Proof.
  intros Hm Hx. apply mapM_Some_1 in Hm.
  apply list_elem_of_lookup in Hx as [i Hi].
  destruct (Forall2_lookup_l _ _ _ _ _ Hm Hi) as (y & Hy & Hf).
  exists y. split; [|exact Hf]. apply list_elem_of_lookup. eauto.
Qed.

Lemma mdays_days_in_month y m :
  1 <= m <= 12 ->
  table PyCalendar.mdays m + b2z ((m =? 2) && is_leap y) = days_in_month y m.
Proof.
  intros Hm. unfold days_in_month.
  assert (m = 1 \/ m = 2 \/ m = 3 \/ m = 4 \/ m = 5 \/ m = 6 \/ m = 7 \/ m = 8
          \/ m = 9 \/ m = 10 \/ m = 11 \/ m = 12) as Hcases by lia.
  repeat (destruct Hcases as [->|Hcases]); try subst m;
    destruct (is_leap y); reflexivity.
Qed.

Lemma monthrange_Some y m :
  1 <= m <= 12 ->
  PyCalendar.monthrange y m = Some (PyCalendar.weekday y m 1, days_in_month y m).
Proof.
  intros Hm. unfold PyCalendar.monthrange.
  destruct (Z.leb_spec 1 m); [|lia]. destruct (Z.leb_spec m 12); [|lia].
  cbn [andb]. by rewrite mdays_days_in_month.
Qed.

Lemma itermonthdays_Some y m :
  1 <= m <= 12 ->
  ∃ days, PyCalendar.itermonthdays y m = Some days
          /\ ∀ dy, dy ∈ days -> dy ≠ 0 -> 1 <= dy <= days_in_month y m.
Proof.
  intros Hm. unfold PyCalendar.itermonthdays.
  rewrite monthrange_Some by exact Hm. rewrite bind_Some_eq.
  eexists. split; [reflexivity|].
  intros dy Hdy Hnz. rewrite !elem_of_app in Hdy.
  destruct Hdy as [Hdy|[Hdy|Hdy]].
  - apply elem_of_replicate in Hdy as [-> _]. done.
  - apply elem_of_seqZ in Hdy. lia.
  - apply elem_of_replicate in Hdy as [-> _]. done.
Qed.

Lemma itermonthdays_days y m days dy :
  PyCalendar.itermonthdays y m = Some days ->
  1 <= dy <= days_in_month y m -> dy ∈ days.
Proof.
  unfold PyCalendar.itermonthdays, PyCalendar.monthrange.
  destruct ((1 <=? m) && (m <=? 12)) eqn:Em; [|discriminate].
  apply andb_true_iff in Em as [E1 E2]. apply Z.leb_le in E1, E2.
  rewrite bind_Some_eq, mdays_days_in_month by lia.
  intros [= <-] Hdy. rewrite !elem_of_app. right. left.
  apply elem_of_seqZ. lia.
Qed.

Lemma elem_of_week_slices {A} (l : list A) (x : A) :
  x ∈ l ↔ ∃ week, week ∈ ((λ i, take 7 (drop i l)) <$> PyCalendar.range7 (length l))
                  /\ x ∈ week.
Proof.
  split.
  - intros Hx. apply list_elem_of_lookup in Hx as [i Hi].
    pose proof (lookup_lt_Some _ _ _ Hi) as Hlt.
    exists (take 7 (drop (7 * (i / 7)) l)). split.
    + apply list_elem_of_fmap. exists (7 * (i / 7))%nat. split; [reflexivity|].
      unfold PyCalendar.range7. apply list_elem_of_fmap. exists (i / 7)%nat.
      split; [reflexivity|]. apply elem_of_seq.
      split; [lia|]. cbn [Nat.add].
      apply Nat.Div0.div_lt_upper_bound.
      pose proof (Nat.div_mod_eq (length l + 6) 7) as E.
      pose proof (Nat.mod_upper_bound (length l + 6) 7 ltac:(lia)).
      lia.
    + apply list_elem_of_lookup. exists (i mod 7)%nat.
      rewrite lookup_take_lt by (apply Nat.mod_upper_bound; lia).
      rewrite lookup_drop. rewrite <- Nat.div_mod_eq. exact Hi.
  - intros (week & Hw & Hx). apply list_elem_of_fmap in Hw as (i & -> & _).
    eapply subseteq_drop, subseteq_take, Hx.
Qed.

Lemma monthcalendar_Some y m :
  1 <= m <= 12 ->
  ∃ weeks, PyCalendar.monthcalendar y m = Some weeks
           /\ (∀ week dy, week ∈ weeks -> dy ∈ week -> dy ≠ 0 ->
                 1 <= dy <= days_in_month y m)
           /\ (∀ dy, 1 <= dy <= days_in_month y m ->
                 ∃ week, week ∈ weeks /\ dy ∈ week).
Proof.
  intros Hm. destruct (itermonthdays_Some y m Hm) as (days & Hd & Hin).
  unfold PyCalendar.monthcalendar. rewrite Hd, bind_Some_eq.
  eexists. split; [reflexivity|]. split.
  - intros week dy Hw Hdy. apply Hin. apply elem_of_week_slices. eauto.
  - intros dy Hdy. apply elem_of_week_slices. by eapply itermonthdays_days.
Qed.

Lemma new_datetime_Some y m dy :
  valid_ymd y m dy -> new_datetime y m dy = Some (Datetime y m dy 0 0 0 0).
Proof.
  intros Hv. unfold new_datetime.
  by rewrite (proj2 (valid_ymdb_spec y m dy) Hv).
Qed.

Lemma new_datetime_inv y m dy d :
  new_datetime y m dy = Some d -> valid_ymd y m dy /\ d = Datetime y m dy 0 0 0 0.
Proof.
  unfold new_datetime. destruct (valid_ymdb y m dy) eqn:E; [|discriminate].
  intros [= <-]. split; [by apply valid_ymdb_spec|reflexivity].
Qed.

Lemma month_calendar_data_protocol1_grid_of y m bout_set maint_set race_date :
  month_calendar_data_protocol1 y m bout_set maint_set race_date
  = grid_of y m (cell_type_protocol1 bout_set maint_set
                   (replace_midnight <$> race_date)).
Proof. reflexivity. Qed.

Lemma month_calendar_data_protocol2_grid_of y m bout1_set maint_set bout2_set
    race_date :
  month_calendar_data_protocol2 y m bout1_set maint_set bout2_set race_date
  = grid_of y m (cell_type_protocol2 bout1_set maint_set bout2_set
                   (replace_midnight <$> race_date)).
Proof. reflexivity. Qed.

Section GridOf.
Variables (y m : Z) (ct : datetime → option string).

Lemma grid_of_cells grid week c :
  grid_of y m ct = Some grid -> week ∈ grid -> c ∈ week ->
  c = (None, None)
  \/ ∃ dy, valid_ymd y m dy /\ c = (Some dy, ct (Datetime y m dy 0 0 0 0)).
Proof.
  unfold grid_of. intros Hg Hw Hc.
  destruct (PyCalendar.monthcalendar y m) as [weeks|]; [|discriminate].
  rewrite bind_Some_eq in Hg.
  destruct (mapM_elem_of_r _ _ _ _ Hg Hw) as (wk & _ & Hrow).
  destruct (mapM_elem_of_r _ _ _ _ Hrow Hc) as (dy & _ & Hcell).
  destruct (dy =? 0); [left; congruence|]. right.
  destruct (new_datetime y m dy) as [d|] eqn:Ed; [|discriminate].
  apply new_datetime_inv in Ed as [Hv ->].
  rewrite bind_Some_eq in Hcell. exists dy. split; [exact Hv|].
  injection Hcell as <-. reflexivity.
Qed.

Lemma grid_of_Some :
  MINYEAR <= y <= MAXYEAR -> 1 <= m <= 12 -> is_Some (grid_of y m ct).
Proof.
  intros Hy Hm. unfold grid_of.
  destruct (monthcalendar_Some y m Hm) as (weeks & -> & Hin & _).
  rewrite bind_Some_eq. apply mapM_is_Some_2, Forall_forall. intros week Hw.
  apply mapM_is_Some_2, Forall_forall. intros dy Hdy. unfold compose.
  destruct (Z.eqb_spec dy 0) as [E|E]; [eauto|].
  rewrite new_datetime_Some by (split; [exact Hy|split; [exact Hm|eauto]]).
  rewrite bind_Some_eq. eauto.
Qed.

Lemma grid_of_shows grid dy :
  grid_of y m ct = Some grid -> valid_ymd y m dy ->
  ∃ week, week ∈ grid /\ (Some dy, ct (Datetime y m dy 0 0 0 0)) ∈ week.
Proof.
  unfold grid_of. intros Hg Hv. pose proof Hv as (Hy & Hm & Hd).
  destruct (monthcalendar_Some y m Hm) as (weeks & Hw & _ & Hall).
  rewrite Hw, bind_Some_eq in Hg.
  destruct (Hall dy Hd) as (wk & Hwk & Hdy).
  destruct (mapM_elem_of_l _ _ _ _ Hg Hwk) as (row & Hrow & Hmap).
  destruct (mapM_elem_of_l _ _ _ _ Hmap Hdy) as (c & Hc & Hcell).
  exists row. split; [exact Hrow|].
  destruct (Z.eqb_spec dy 0) as [E|E]; [lia|].
  rewrite new_datetime_Some, bind_Some_eq in Hcell by exact Hv.
  injection Hcell as <-. exact Hc.
Qed.
End GridOf.

Lemma cell_type_protocol2_precedence (bout1_set maint_set bout2_set : gset datetime)
    (race_norm : option datetime) (d : datetime) (t : option string) :
  t = cell_type_protocol2 bout1_set maint_set bout2_set race_norm d ->
  (race_norm = Some d -> t = Some "race")
  /\ (race_norm ≠ Some d ->
      (d ∈ bout1_set -> t = Some "bout1")
      /\ (d ∉ bout1_set -> d ∈ maint_set -> t = Some "maintenance")
      /\ (d ∉ bout1_set -> d ∉ maint_set -> d ∈ bout2_set -> t = Some "bout2")
      /\ (d ∉ bout1_set -> d ∉ maint_set -> d ∉ bout2_set -> t = None)).
Proof.
  intros ->. unfold cell_type_protocol2. split.
  - intros ->. by rewrite bool_decide_eq_true_2.
  - intros Hne. rewrite (bool_decide_eq_false_2 _ Hne).
    repeat case_bool_decide; repeat split; intros; done.
Qed.

Lemma cell_type_protocol1_precedence (bout_set maint_set : gset datetime)
    (race_norm : option datetime) (d : datetime) (t : option string) :
  t = cell_type_protocol1 bout_set maint_set race_norm d ->
  (race_norm = Some d -> t = Some "race")
  /\ (race_norm ≠ Some d ->
      (d ∈ bout_set -> t = Some "bout")
      /\ (d ∉ bout_set -> d ∈ maint_set -> t = Some "maintenance")
      /\ (d ∉ bout_set -> d ∉ maint_set -> t = None)).
Proof.
  intros ->. unfold cell_type_protocol1. split.
  - intros ->. by rewrite bool_decide_eq_true_2.
  - intros Hne. rewrite (bool_decide_eq_false_2 _ Hne).
    repeat case_bool_decide; repeat split; intros; done.
Qed.

Lemma grid_of_day (y m : Z) (ct : datetime → option string) (dy : Z) (d : datetime) :
  new_datetime y m dy = Some d ->
  ∃ grid week,
    grid_of y m ct = Some grid /\ week ∈ grid /\ (Some dy, ct d) ∈ week.
Proof.
  intros Hd. apply new_datetime_inv in Hd as [Hv ->].
  pose proof Hv as (Hy & Hm & _).
  destruct (grid_of_Some y m ct Hy Hm) as [grid Hg].
  destruct (grid_of_shows y m ct grid dy Hg Hv) as (week & Hw & Hc).
  exists grid, week. auto.
Qed.

(** C6: every in-month cell of a built grid carries the day number of a day
    of that month and the category given by the precedence race, then primary
    bout, then maintenance, then bout2 (Protocol 2 only), else none; a grid
    is built for every month of the years 1 to 9999; and every day of the
    month has its cell in the grid, with the category that this precedence
    gives it, whatever the sets are. *)
Theorem grid_cell_precedence (y m : Z) (race_date : option datetime) :
  (∀ (bout1_set maint_set bout2_set : gset datetime) grid week c,
     month_calendar_data_protocol2 y m bout1_set maint_set bout2_set race_date
     = Some grid ->
     week ∈ grid -> c ∈ week ->
     c = (None, None)
     \/ ∃ dy d,
          c.1 = Some dy /\ new_datetime y m dy = Some d
          /\ (replace_midnight <$> race_date = Some d -> c.2 = Some "race")
          /\ (replace_midnight <$> race_date ≠ Some d ->
              (d ∈ bout1_set -> c.2 = Some "bout1")
              /\ (d ∉ bout1_set -> d ∈ maint_set -> c.2 = Some "maintenance")
              /\ (d ∉ bout1_set -> d ∉ maint_set -> d ∈ bout2_set ->
                  c.2 = Some "bout2")
              /\ (d ∉ bout1_set -> d ∉ maint_set -> d ∉ bout2_set ->
                  c.2 = None)))
  /\ (∀ (bout_set maint_set : gset datetime) grid week c,
        month_calendar_data_protocol1 y m bout_set maint_set race_date
        = Some grid ->
        week ∈ grid -> c ∈ week ->
        c = (None, None)
        \/ ∃ dy d,
             c.1 = Some dy /\ new_datetime y m dy = Some d
             /\ (replace_midnight <$> race_date = Some d -> c.2 = Some "race")
             /\ (replace_midnight <$> race_date ≠ Some d ->
                 (d ∈ bout_set -> c.2 = Some "bout")
                 /\ (d ∉ bout_set -> d ∈ maint_set -> c.2 = Some "maintenance")
                 /\ (d ∉ bout_set -> d ∉ maint_set -> c.2 = None)))
  /\ (MINYEAR <= y <= MAXYEAR -> 1 <= m <= 12 ->
      (∀ bout1_set maint_set bout2_set,
         is_Some (month_calendar_data_protocol2 y m bout1_set maint_set
                    bout2_set race_date))
      /\ (∀ bout_set maint_set,
            is_Some (month_calendar_data_protocol1 y m bout_set maint_set
                       race_date)))
  /\ (∀ (bout1_set maint_set bout2_set : gset datetime) dy d,
        new_datetime y m dy = Some d ->
        ∃ grid week t,
          month_calendar_data_protocol2 y m bout1_set maint_set bout2_set
            race_date = Some grid
          /\ week ∈ grid /\ (Some dy, t) ∈ week
          /\ (replace_midnight <$> race_date = Some d -> t = Some "race")
          /\ (replace_midnight <$> race_date ≠ Some d ->
              (d ∈ bout1_set -> t = Some "bout1")
              /\ (d ∉ bout1_set -> d ∈ maint_set -> t = Some "maintenance")
              /\ (d ∉ bout1_set -> d ∉ maint_set -> d ∈ bout2_set ->
                  t = Some "bout2")
              /\ (d ∉ bout1_set -> d ∉ maint_set -> d ∉ bout2_set ->
                  t = None)))
  /\ (∀ (bout_set maint_set : gset datetime) dy d,
        new_datetime y m dy = Some d ->
        ∃ grid week t,
          month_calendar_data_protocol1 y m bout_set maint_set race_date
          = Some grid
          /\ week ∈ grid /\ (Some dy, t) ∈ week
          /\ (replace_midnight <$> race_date = Some d -> t = Some "race")
          /\ (replace_midnight <$> race_date ≠ Some d ->
              (d ∈ bout_set -> t = Some "bout")
              /\ (d ∉ bout_set -> d ∈ maint_set -> t = Some "maintenance")
              /\ (d ∉ bout_set -> d ∉ maint_set -> t = None))).
Proof.
  split; [|split; [|split; [|split]]].
  - intros bout1_set maint_set bout2_set grid week c Hg Hw Hc.
    rewrite month_calendar_data_protocol2_grid_of in Hg.
    destruct (grid_of_cells _ _ _ _ _ _ Hg Hw Hc) as [->|(dy & Hv & ->)];
      [by left|right].
    exists dy, (Datetime y m dy 0 0 0 0).
    split; [reflexivity|]. split; [by apply new_datetime_Some|].
    cbn [fst snd]. by apply cell_type_protocol2_precedence.
  - intros bout_set maint_set grid week c Hg Hw Hc.
    rewrite month_calendar_data_protocol1_grid_of in Hg.
    destruct (grid_of_cells _ _ _ _ _ _ Hg Hw Hc) as [->|(dy & Hv & ->)];
      [by left|right].
    exists dy, (Datetime y m dy 0 0 0 0).
    split; [reflexivity|]. split; [by apply new_datetime_Some|].
    cbn [fst snd]. by apply cell_type_protocol1_precedence.
  - intros Hy Hm. split; intros.
    + rewrite month_calendar_data_protocol2_grid_of. by apply grid_of_Some.
    + rewrite month_calendar_data_protocol1_grid_of. by apply grid_of_Some.
  - intros bout1_set maint_set bout2_set dy d Hd.
    rewrite month_calendar_data_protocol2_grid_of.
    destruct (grid_of_day y m
                (cell_type_protocol2 bout1_set maint_set bout2_set
                   (replace_midnight <$> race_date)) dy d Hd)
      as (grid & week & Hg & Hw & Hc).
    eexists grid, week, _. split; [exact Hg|]. split; [exact Hw|].
    split; [exact Hc|]. by apply cell_type_protocol2_precedence.
  - intros bout_set maint_set dy d Hd.
    rewrite month_calendar_data_protocol1_grid_of.
    destruct (grid_of_day y m
                (cell_type_protocol1 bout_set maint_set
                   (replace_midnight <$> race_date)) dy d Hd)
      as (grid & week & Hg & Hw & Hc).
    eexists grid, week, _. split; [exact Hg|]. split; [exact Hw|].
    split; [exact Hc|]. by apply cell_type_protocol1_precedence.
Qed.

Ltac august_in :=
  unfold overlap_bout, overlap_maint, overlap_bout2;
  rewrite elem_of_union, !elem_of_singleton; first [by left | by right].

Ltac august_not_in :=
  unfold overlap_bout, overlap_maint, overlap_bout2;
  rewrite elem_of_union, !elem_of_singleton;
  let E := fresh "E" in intros [E|E]; discriminate E.

Ltac august_not_race :=
  let E := fresh "E" in intros E; discriminate E.

(** The grids of August 2024 for the race of 2024-08-10 and the overlapping
    sets: the 10th, in the primary bout set too, is shown as "race"; the
    11th, in the maintenance set too, as the primary bout; the 12th, in the
    bout2 set too, as "maintenance"; the 13th as "bout2" in Protocol 2 and
    with no category in Protocol 1; the 14th with no category. *)
Lemma grid_cell_precedence_witness :
  Forall (λ p : Z * option string,
            ∃ grid week,
              month_calendar_data_protocol2 2024 8 overlap_bout overlap_maint
                overlap_bout2 (Some example_race) = Some grid
              /\ week ∈ grid /\ (Some p.1, p.2) ∈ week)
    [(10, Some "race"); (11, Some "bout1"); (12, Some "maintenance");
     (13, Some "bout2"); (14, None)]%string
  /\ Forall (λ p : Z * option string,
               ∃ grid week,
                 month_calendar_data_protocol1 2024 8 overlap_bout
                   overlap_maint (Some example_race) = Some grid
                 /\ week ∈ grid /\ (Some p.1, p.2) ∈ week)
       [(10, Some "race"); (11, Some "bout"); (12, Some "maintenance");
        (13, None); (14, None)]%string.
Proof.
  destruct (grid_cell_precedence 2024 8 (Some example_race))
    as (_ & _ & _ & H2 & H1).
  assert (Hd : ∀ dy, 1 <= dy <= 31 ->
                 new_datetime 2024 8 dy = Some (august_2024 dy)).
  { intros dy Hdy. apply new_datetime_Some. unfold valid_ymd.
    split; [unfold MINYEAR, MAXYEAR; lia|]. split; [lia|].
    exact Hdy. }
  split.
  - apply Forall_cons_2.
    { destruct (H2 overlap_bout overlap_maint overlap_bout2 10 _
                  (Hd 10 ltac:(lia)))
        as (grid & week & t & Hg & Hw & Hc & Hr & _).
      rewrite (Hr eq_refl) in Hc. exists grid, week. auto. }
    apply Forall_cons_2.
    { destruct (H2 overlap_bout overlap_maint overlap_bout2 11 _
                  (Hd 11 ltac:(lia)))
        as (grid & week & t & Hg & Hw & Hc & _ & Ho).
      destruct (Ho ltac:(august_not_race)) as (Ht & _).
      rewrite Ht in Hc by august_in. exists grid, week. auto. }
    apply Forall_cons_2.
    { destruct (H2 overlap_bout overlap_maint overlap_bout2 12 _
                  (Hd 12 ltac:(lia)))
        as (grid & week & t & Hg & Hw & Hc & _ & Ho).
      destruct (Ho ltac:(august_not_race)) as (_ & Ht & _).
      rewrite Ht in Hc by first [august_not_in | august_in].
      exists grid, week. auto. }
    apply Forall_cons_2.
    { destruct (H2 overlap_bout overlap_maint overlap_bout2 13 _
                  (Hd 13 ltac:(lia)))
        as (grid & week & t & Hg & Hw & Hc & _ & Ho).
      destruct (Ho ltac:(august_not_race)) as (_ & _ & Ht & _).
      rewrite Ht in Hc by first [august_not_in | august_in].
      exists grid, week. auto. }
    apply Forall_cons_2; [|apply Forall_nil_2].
    destruct (H2 overlap_bout overlap_maint overlap_bout2 14 _
                (Hd 14 ltac:(lia)))
      as (grid & week & t & Hg & Hw & Hc & _ & Ho).
    destruct (Ho ltac:(august_not_race)) as (_ & _ & _ & Ht).
    rewrite Ht in Hc by august_not_in. exists grid, week. auto.
  - apply Forall_cons_2.
    { destruct (H1 overlap_bout overlap_maint 10 _ (Hd 10 ltac:(lia)))
        as (grid & week & t & Hg & Hw & Hc & Hr & _).
      rewrite (Hr eq_refl) in Hc. exists grid, week. auto. }
    apply Forall_cons_2.
    { destruct (H1 overlap_bout overlap_maint 11 _ (Hd 11 ltac:(lia)))
        as (grid & week & t & Hg & Hw & Hc & _ & Ho).
      destruct (Ho ltac:(august_not_race)) as (Ht & _).
      rewrite Ht in Hc by august_in. exists grid, week. auto. }
    apply Forall_cons_2.
    { destruct (H1 overlap_bout overlap_maint 12 _ (Hd 12 ltac:(lia)))
        as (grid & week & t & Hg & Hw & Hc & _ & Ho).
      destruct (Ho ltac:(august_not_race)) as (_ & Ht & _).
      rewrite Ht in Hc by first [august_not_in | august_in].
      exists grid, week. auto. }
    apply Forall_cons_2.
    { destruct (H1 overlap_bout overlap_maint 13 _ (Hd 13 ltac:(lia)))
        as (grid & week & t & Hg & Hw & Hc & _ & Ho).
      destruct (Ho ltac:(august_not_race)) as (_ & _ & Ht).
      rewrite Ht in Hc by august_not_in. exists grid, week. auto. }
    apply Forall_cons_2; [|apply Forall_nil_2].
    destruct (H1 overlap_bout overlap_maint 14 _ (Hd 14 ltac:(lia)))
      as (grid & week & t & Hg & Hw & Hc & _ & Ho).
    destruct (Ho ltac:(august_not_race)) as (_ & _ & Ht).
    rewrite Ht in Hc by august_not_in. exists grid, week. auto.
Defined.

(** ** Month selection and the calendars of [index] *)

Lemma elem_of_months_to_show (dates : list datetime) (R : datetime) (y m : Z) :
  (y, m) ∈ months_to_show dates R
  ↔ ∃ d, (d ∈ dates \/ d = R) /\ year d = y /\ month d = m.
Proof.
  unfold months_to_show. cbv zeta.
  rewrite merge_sort_Permutation, elem_of_elements, elem_of_map.
  split.
  - intros (x & [= -> ->] & Hx). apply elem_of_union in Hx as [Hx|Hx].
    + apply elem_of_list_to_set, list_elem_of_fmap in Hx as (d & -> & Hd).
      exists d. auto.
    + apply elem_of_singleton in Hx as ->. exists R. auto.
  - intros (d & Hd & <- & <-). exists (replace_midnight d).
    split; [reflexivity|]. apply elem_of_union. destruct Hd as [Hd| ->].
    + left. apply elem_of_list_to_set, list_elem_of_fmap. eauto.
    + right. by apply elem_of_singleton.
Qed.

Lemma NoDup_months_to_show (dates : list datetime) (R : datetime) :
  NoDup (months_to_show dates R).
Proof.
  unfold months_to_show. cbv zeta. rewrite merge_sort_Permutation.
  apply NoDup_elements.
Qed.

(** The calendar of one protocol: a grid per month to show. *)
Lemma calendar_months (ct : datetime → option string) (months : list (Z * Z)) :
  (∀ y m, (y, m) ∈ months -> MINYEAR <= y <= MAXYEAR /\ 1 <= m <= 12) ->
  ∃ cal : list month_grid,
    mapM (λ '(y, m), grid ← grid_of y m ct; Some (y, m, grid)) months = Some cal
    /\ fst <$> cal = months
    /\ (∀ d, valid_datetime d -> (year d, month d) ∈ months ->
          shown cal d (ct (replace_midnight d))).
Proof.
  intros Hmonths.
  destruct (mapM (λ '(y, m), grid ← grid_of y m ct; Some (y, m, grid)) months)
    as [cal|] eqn:Hcal.
  - exists cal. split; [reflexivity|]. split.
    + apply mapM_Some_1 in Hcal. clear Hmonths.
      induction Hcal as [|[y m] e months cal He _ IH]; [reflexivity|].
      cbn [fmap list_fmap]. f_equal; [|exact IH].
      destruct (grid_of y m ct); [|discriminate]. by injection He as <-.
    + intros d Hv Hd.
      destruct (mapM_elem_of_l _ _ _ _ Hcal Hd) as (e & He & Hf).
      cbn beta iota in Hf.
      destruct (grid_of (year d) (month d) ct) as [grid|] eqn:Hg; [|discriminate].
      rewrite bind_Some_eq in Hf. injection Hf as <-.
      destruct (grid_of_shows _ _ _ grid (day d) Hg (proj1 Hv)) as (week & Hw & Hc).
      exists grid, week. split; [exact He|]. split; [exact Hw|exact Hc].
  - exfalso. apply mapM_None_1, Exists_exists in Hcal as ([y m] & Hin & Hnone).
    destruct (Hmonths y m Hin) as [Hy Hm].
    destruct (grid_of_Some y m ct Hy Hm) as [grid Hg].
    rewrite Hg in Hnone. discriminate.
Qed.

Lemma months_to_show_valid (dates : list datetime) (R : datetime) :
  Forall valid_datetime dates -> valid_datetime R ->
  ∀ y m, (y, m) ∈ months_to_show dates R ->
         MINYEAR <= y <= MAXYEAR /\ 1 <= m <= 12.
Proof.
  intros Hd HR y m Hin.
  apply elem_of_months_to_show in Hin as (d & Hd' & <- & <-).
  assert (Hv : valid_datetime d).
  { destruct Hd' as [Hd'| ->]; [|exact HR]. rewrite Forall_forall in Hd. auto. }
  destruct Hv as ((Hy & Hm & _) & _). auto.
Qed.

Lemma Forall_valid_combine (o : Z) (t : datetime) (ks : list Z) :
  valid_time t -> Forall (λ k, 1 <= o - k <= MAXORDINAL) ks ->
  Forall valid_datetime ((λ k, combine_ordinal (o - k) t) <$> ks).
Proof.
  intros Ht Hks. apply Forall_fmap. eapply Forall_impl; [exact Hks|].
  intros k Hk. cbn beta in *. unfold compose. by apply valid_combine.
Qed.

Lemma protocol1_sessions_valid (R : datetime) bout maintenance :
  valid_datetime R -> protocol1_sessions R = Some (bout, maintenance) ->
  Forall valid_datetime (bout ++ maintenance).
Proof.
  intros Hv Hp.
  destruct (protocol1_sessions_inv R _ _ Hv Hp) as (Ho & -> & ->).
  apply Forall_app; split;
    (apply Forall_valid_combine; [by apply valid_datetime_time|forall_range]).
Qed.

Lemma protocol2_sessions_valid (R : datetime) bout1 maintenance bout2 :
  valid_datetime R -> protocol2_sessions R = Some (bout1, maintenance, bout2) ->
  Forall valid_datetime ((bout1 ++ maintenance) ++ bout2).
Proof.
  intros Hv Hp.
  destruct (protocol2_sessions_inv R _ _ _ Hv Hp) as (Ho & -> & -> & ->).
  assert (Ht : valid_time (replace_midnight R)).
  { apply valid_datetime_time, valid_replace_midnight, Hv. }
  rewrite !Forall_app. split; [split|];
    (apply Forall_valid_combine; [exact Ht|forall_range]).
Qed.

Lemma index_calendars_eq (race_date : datetime) :
  index_calendars race_date
  = '(bout, maintenance) ← protocol1_sessions race_date;
    '(bout1, maintenance2, bout2) ← protocol2_sessions race_date;
    cal1 ← mapM (λ '(y, m),
              grid ← grid_of y m
                       (cell_type_protocol1 (sessions_to_set bout)
                          (sessions_to_set maintenance)
                          (Some (replace_midnight race_date)));
              Some (y, m, grid))
            (months_to_show (bout ++ maintenance) race_date);
    cal2 ← mapM (λ '(y, m),
              grid ← grid_of y m
                       (cell_type_protocol2 (sessions_to_set bout1)
                          (sessions_to_set maintenance2) (sessions_to_set bout2)
                          (Some (replace_midnight race_date)));
              Some (y, m, grid))
            (months_to_show ((bout1 ++ maintenance2) ++ bout2) race_date);
    Some (cal1, cal2).
Proof. reflexivity. Qed.

Section CellTypes.
Variables (rn x : datetime) (s1 s2 s3 : gset datetime).

Lemma cell_type_protocol1_race : cell_type_protocol1 s1 s2 (Some rn) rn = Some "race".
Proof. unfold cell_type_protocol1. by rewrite bool_decide_eq_true_2. Qed.

Lemma cell_type_protocol1_bout :
  rn ≠ x -> x ∈ s1 -> cell_type_protocol1 s1 s2 (Some rn) x = Some "bout".
Proof.
  intros Hne H1. unfold cell_type_protocol1.
  rewrite bool_decide_eq_false_2 by congruence.
  by rewrite bool_decide_eq_true_2.
Qed.

Lemma cell_type_protocol1_maintenance :
  rn ≠ x -> x ∉ s1 -> x ∈ s2 ->
  cell_type_protocol1 s1 s2 (Some rn) x = Some "maintenance".
Proof.
  intros Hne H1 H2. unfold cell_type_protocol1.
  rewrite bool_decide_eq_false_2 by congruence.
  rewrite (bool_decide_eq_false_2 _ H1). by rewrite bool_decide_eq_true_2.
Qed.

Lemma cell_type_protocol2_race :
  cell_type_protocol2 s1 s2 s3 (Some rn) rn = Some "race".
Proof. unfold cell_type_protocol2. by rewrite bool_decide_eq_true_2. Qed.

Lemma cell_type_protocol2_bout1 :
  rn ≠ x -> x ∈ s1 -> cell_type_protocol2 s1 s2 s3 (Some rn) x = Some "bout1".
Proof.
  intros Hne H1. unfold cell_type_protocol2.
  rewrite bool_decide_eq_false_2 by congruence.
  by rewrite bool_decide_eq_true_2.
Qed.

Lemma cell_type_protocol2_maintenance :
  rn ≠ x -> x ∉ s1 -> x ∈ s2 ->
  cell_type_protocol2 s1 s2 s3 (Some rn) x = Some "maintenance".
Proof.
  intros Hne H1 H2. unfold cell_type_protocol2.
  rewrite bool_decide_eq_false_2 by congruence.
  rewrite (bool_decide_eq_false_2 _ H1). by rewrite bool_decide_eq_true_2.
Qed.

Lemma cell_type_protocol2_bout2 :
  rn ≠ x -> x ∉ s1 -> x ∉ s2 -> x ∈ s3 ->
  cell_type_protocol2 s1 s2 s3 (Some rn) x = Some "bout2".
Proof.
  intros Hne H1 H2 H3. unfold cell_type_protocol2.
  rewrite bool_decide_eq_false_2 by congruence.
  rewrite (bool_decide_eq_false_2 _ H1), (bool_decide_eq_false_2 _ H2).
  by rewrite bool_decide_eq_true_2.
Qed.
End CellTypes.

Lemma in_sessions_to_set (d : datetime) (l : list datetime) :
  d ∈ l -> replace_midnight d ∈ sessions_to_set l.
Proof. intros Hd. apply elem_of_sessions_to_set. eauto. Qed.

(** The calendars of [index] for a race date at which both schedulers
    return. *)
Lemma calendars_of_sessions (R : datetime) bout maintenance bout1 maintenance2 bout2 :
  valid_datetime R ->
  protocol1_sessions R = Some (bout, maintenance) ->
  protocol2_sessions R = Some (bout1, maintenance2, bout2) ->
  ∃ cal1 cal2 : list month_grid,
    index_calendars R = Some (cal1, cal2)
    /\ fst <$> cal1 = months_to_show (bout ++ maintenance) R
    /\ fst <$> cal2 = months_to_show ((bout1 ++ maintenance2) ++ bout2) R
    /\ NoDup (fst <$> cal1) /\ NoDup (fst <$> cal2)
    /\ (∀ y m, (y, m) ∈ fst <$> cal1
               ↔ ∃ d, (d ∈ bout \/ d ∈ maintenance \/ d = R)
                      /\ year d = y /\ month d = m)
    /\ (∀ y m, (y, m) ∈ fst <$> cal2
               ↔ ∃ d, (d ∈ bout1 \/ d ∈ maintenance2 \/ d ∈ bout2 \/ d = R)
                      /\ year d = y /\ month d = m)
    /\ shown cal1 R (Some "race")
    /\ (∀ d, d ∈ bout -> shown cal1 d (Some "bout"))
    /\ (∀ d, d ∈ maintenance -> shown cal1 d (Some "maintenance"))
    /\ shown cal2 R (Some "race")
    /\ (∀ d, d ∈ bout1 -> shown cal2 d (Some "bout1"))
    /\ (∀ d, d ∈ maintenance2 -> shown cal2 d (Some "maintenance"))
    /\ (∀ d, d ∈ bout2 -> shown cal2 d (Some "bout2")).
Proof.
  intros Hv Hp1 Hp2.
  pose proof (protocol1_sessions_valid R _ _ Hv Hp1) as Hv1.
  pose proof (protocol2_sessions_valid R _ _ _ Hv Hp2) as Hv2.
  destruct (protocol1_sets_disjoint R _ _ Hv Hp1) as (D & N1 & N2).
  destruct (protocol2_sets_disjoint R _ _ _ Hv Hp2)
    as (D12 & D13 & D23 & M1 & M2 & M3).
  destruct (calendar_months
              (cell_type_protocol1 (sessions_to_set bout)
                 (sessions_to_set maintenance) (Some (replace_midnight R)))
              (months_to_show (bout ++ maintenance) R)
              (months_to_show_valid _ _ Hv1 Hv))
    as (cal1 & Hc1 & Hf1 & Hs1).
  destruct (calendar_months
              (cell_type_protocol2 (sessions_to_set bout1)
                 (sessions_to_set maintenance2) (sessions_to_set bout2)
                 (Some (replace_midnight R)))
              (months_to_show ((bout1 ++ maintenance2) ++ bout2) R)
              (months_to_show_valid _ _ Hv2 Hv))
    as (cal2 & Hc2 & Hf2 & Hs2).
  rewrite Forall_forall in Hv1, Hv2.
  assert (Hin1 : ∀ d, d ∈ bout ++ maintenance \/ d = R ->
                      (year d, month d) ∈ months_to_show (bout ++ maintenance) R).
  { intros d Hd. apply elem_of_months_to_show. eauto. }
  assert (Hin2 : ∀ d, d ∈ (bout1 ++ maintenance2) ++ bout2 \/ d = R ->
                      (year d, month d)
                      ∈ months_to_show ((bout1 ++ maintenance2) ++ bout2) R).
  { intros d Hd. apply elem_of_months_to_show. eauto. }
  exists cal1, cal2.
  split.
  { rewrite index_calendars_eq, Hp1, bind_Some_eq. cbv beta iota.
    rewrite Hp2, bind_Some_eq. cbv beta iota.
    rewrite Hc1, bind_Some_eq, Hc2, bind_Some_eq. reflexivity. }
  split; [exact Hf1|]. split; [exact Hf2|].
  split; [rewrite Hf1; apply NoDup_months_to_show|].
  split; [rewrite Hf2; apply NoDup_months_to_show|].
  split.
  { intros y m. rewrite Hf1, elem_of_months_to_show.
    split; intros (d & Hd & E); exists d; (split; [|exact E]);
      rewrite elem_of_app in *; tauto. }
  split.
  { intros y m. rewrite Hf2, elem_of_months_to_show.
    split; intros (d & Hd & E); exists d; (split; [|exact E]);
      rewrite !elem_of_app in *; tauto. }
  split.
  { rewrite <- (cell_type_protocol1_race (replace_midnight R)
                  (sessions_to_set bout) (sessions_to_set maintenance)).
    apply Hs1; auto. }
  split.
  { intros d Hd. pose proof (in_sessions_to_set d bout Hd) as Hset.
    rewrite <- (cell_type_protocol1_bout (replace_midnight R) (replace_midnight d)
                  (sessions_to_set bout) (sessions_to_set maintenance)).
    - apply Hs1; [apply Hv1|apply Hin1; left]; apply elem_of_app; auto.
    - intros E. apply N1. by rewrite E.
    - exact Hset. }
  split.
  { intros d Hd. pose proof (in_sessions_to_set d maintenance Hd) as Hset.
    rewrite <- (cell_type_protocol1_maintenance (replace_midnight R)
                  (replace_midnight d) (sessions_to_set bout)
                  (sessions_to_set maintenance)).
    - apply Hs1; [apply Hv1|apply Hin1; left]; apply elem_of_app; auto.
    - intros E. apply N2. by rewrite E.
    - intros Hb. by apply (D (replace_midnight d)).
    - exact Hset. }
  split.
  { rewrite <- (cell_type_protocol2_race (replace_midnight R)
                  (sessions_to_set bout1) (sessions_to_set maintenance2)
                  (sessions_to_set bout2)).
    apply Hs2; auto. }
  split.
  { intros d Hd. pose proof (in_sessions_to_set d bout1 Hd) as Hset.
    rewrite <- (cell_type_protocol2_bout1 (replace_midnight R) (replace_midnight d)
                  (sessions_to_set bout1) (sessions_to_set maintenance2)
                  (sessions_to_set bout2)).
    - apply Hs2; [apply Hv2|apply Hin2; left]; rewrite !elem_of_app; auto.
    - intros E. apply M1. by rewrite E.
    - exact Hset. }
  split.
  { intros d Hd. pose proof (in_sessions_to_set d maintenance2 Hd) as Hset.
    rewrite <- (cell_type_protocol2_maintenance (replace_midnight R)
                  (replace_midnight d) (sessions_to_set bout1)
                  (sessions_to_set maintenance2) (sessions_to_set bout2)).
    - apply Hs2; [apply Hv2|apply Hin2; left]; rewrite !elem_of_app; auto.
    - intros E. apply M2. by rewrite E.
    - intros Hb. by apply (D12 (replace_midnight d)).
    - exact Hset. }
  intros d Hd. pose proof (in_sessions_to_set d bout2 Hd) as Hset.
  rewrite <- (cell_type_protocol2_bout2 (replace_midnight R) (replace_midnight d)
                (sessions_to_set bout1) (sessions_to_set maintenance2)
                (sessions_to_set bout2)).
  - apply Hs2; [apply Hv2|apply Hin2; left]; rewrite !elem_of_app; auto.
  - intros E. apply M3. by rewrite E.
  - intros Hb. by apply (D13 (replace_midnight d)).
  - intros Hb. by apply (D23 (replace_midnight d)).
  - exact Hset.
Qed.

(** C5 fails as stated: on 0001-02-10 Protocol 1 has its 12 session dates,
    but [index] raises in [protocol2_sessions] before any grid is built, so
    neither these dates nor the race date appear in a grid. *)
Lemma index_calendars_february_race :
  valid_datetime february_race
  /\ (∃ bout maintenance,
        protocol1_sessions february_race = Some (bout, maintenance)
        /\ length bout = 10%nat /\ length maintenance = 2%nat)
  /\ index_calendars february_race = None.
Proof.
  split; [compute_done|]. split.
  - eexists _, _. split; [apply protocol1_sessions_eq; compute_done|].
    split; reflexivity.
  - rewrite index_calendars_eq.
    rewrite protocol1_sessions_eq, bind_Some_eq by compute_done. cbv beta iota.
    rewrite protocol2_sessions_None by compute_done. reflexivity.
Qed.

(** C5 (amended): for every race date R from 0001-02-17 on, [index] builds
    for each protocol one grid per month of [months_to_show] over that
    protocol's session dates and R; these months are exactly the distinct
    months that contain a session date of the protocol or R, and every session
    date and R appear as an in-month cell of the grid of their month, R as
    "race" and a session date with the category of its list. *)
Theorem calendars_complete (R : datetime) :
  valid_datetime R -> 48 <= toordinal R ->
  ∃ bout maintenance bout1 maintenance2 bout2 (cal1 cal2 : list month_grid),
    protocol1_sessions R = Some (bout, maintenance)
    /\ protocol2_sessions R = Some (bout1, maintenance2, bout2)
    /\ index_calendars R = Some (cal1, cal2)
    /\ fst <$> cal1 = months_to_show (bout ++ maintenance) R
    /\ fst <$> cal2 = months_to_show ((bout1 ++ maintenance2) ++ bout2) R
    /\ NoDup (fst <$> cal1) /\ NoDup (fst <$> cal2)
    /\ (∀ y m, (y, m) ∈ fst <$> cal1
               ↔ ∃ d, (d ∈ bout \/ d ∈ maintenance \/ d = R)
                      /\ year d = y /\ month d = m)
    /\ (∀ y m, (y, m) ∈ fst <$> cal2
               ↔ ∃ d, (d ∈ bout1 \/ d ∈ maintenance2 \/ d ∈ bout2 \/ d = R)
                      /\ year d = y /\ month d = m)
    /\ shown cal1 R (Some "race")
    /\ (∀ d, d ∈ bout -> shown cal1 d (Some "bout"))
    /\ (∀ d, d ∈ maintenance -> shown cal1 d (Some "maintenance"))
    /\ shown cal2 R (Some "race")
    /\ (∀ d, d ∈ bout1 -> shown cal2 d (Some "bout1"))
    /\ (∀ d, d ∈ maintenance2 -> shown cal2 d (Some "maintenance"))
    /\ (∀ d, d ∈ bout2 -> shown cal2 d (Some "bout2")).
Proof.
  intros Hv Ho. pose proof (valid_datetime_ordinal R Hv) as [_ Hhi].
  pose proof (protocol1_sessions_eq R ltac:(lia)) as Hp1.
  pose proof (protocol2_sessions_eq R ltac:(lia)) as Hp2.
  destruct (calendars_of_sessions R _ _ _ _ _ Hv Hp1 Hp2) as (cal1 & cal2 & H).
  eexists _, _, _, _, _, cal1, cal2.
  split; [exact Hp1|]. split; [exact Hp2|]. exact H.
Qed.

(** The calendars for the race of Saturday 2024-08-10 include August 2024 and show the race day. *)
Lemma calendars_complete_witness :
  valid_datetime example_race /\ 48 <= toordinal example_race
  /\ ∃ cal1 cal2 : list month_grid,
       index_calendars example_race = Some (cal1, cal2)
       /\ (2024, 8) ∈ fst <$> cal1 /\ (2024, 8) ∈ fst <$> cal2
       /\ shown cal1 example_race (Some "race")
       /\ shown cal2 example_race (Some "race").
Proof.
  assert (Hv : valid_datetime example_race) by compute_done.
  assert (Ho : 48 <= toordinal example_race) by compute_done.
  split; [exact Hv|]. split; [exact Ho|].
  destruct (calendars_complete example_race Hv Ho)
    as (b & m & b1 & m2 & b2 & cal1 & cal2 & _ & _ & Hi & _ & _ & _ & _
        & Hm1 & Hm2 & Hr1 & _ & _ & Hr2 & _).
  exists cal1, cal2. split; [exact Hi|].
  split; [apply Hm1; exists example_race; auto|].
  split; [apply Hm2; exists example_race; auto 6|].
  auto.
Defined.

(** * Further properties of the schedulers *)

(** ** When the schedulers raise *)

Lemma first_days_of_year_1 (R : datetime) (n : Z) :
  valid_datetime R -> 1 <= n <= 59 ->
  toordinal R <= n
  ↔ year R = 1
    /\ (month R = 1 /\ day R <= n \/ month R = 2 /\ day R <= n - 31).
Proof.
  intros ((Hy & Hm & Hd) & _) Hn. unfold toordinal, ymd2ord.
  rewrite days_before_month_dbm. rewrite days_in_month_dim in Hd.
  unfold MINYEAR in Hy.
  destruct (Z_le_gt_dec 2 (year R)) as [Hy2|Hy2].
  - pose proof (days_before_year_mono 2 (year R) Hy2) as Hdby.
    change (days_before_year 2) with 365 in Hdby.
    pose proof (dim_bounds _ _ _ Hm Hd). lia.
  - assert (E : year R = 1) by lia. rewrite E in *.
    change (days_before_year 1) with 0. change (is_leap 1) with false in *.
    assert (month R = 1 \/ month R = 2 \/ month R = 3 \/ month R = 4
            \/ month R = 5 \/ month R = 6 \/ month R = 7 \/ month R = 8
            \/ month R = 9 \/ month R = 10 \/ month R = 11 \/ month R = 12)
      as Hcases by lia.
    repeat (destruct Hcases as [Em|Hcases]); try rename Hcases into Em;
      rewrite Em in *;
      repeat match goal with
      | H : context [dim ?b ?m] |- _ =>
          let v := eval vm_compute in (dim b m) in change (dim b m) with v in H
      | |- context [dbm ?b ?m] =>
          let v := eval vm_compute in (dbm b m) in change (dbm b m) with v
      end; lia.
Qed.

(** X1: [protocol1_sessions] raises exactly for the race dates 0001-01-01 to
    0001-01-19; for every later date it returns. *)
Theorem protocol1_sessions_raises_iff (R : datetime) :
  valid_datetime R ->
  (protocol1_sessions R = None ↔ year R = 1 /\ month R = 1 /\ day R <= 19)
  /\ (is_Some (protocol1_sessions R) ↔ 20 <= toordinal R).
Proof.
  intros Hv. pose proof (valid_datetime_ordinal R Hv) as [_ Hhi].
  pose proof (first_days_of_year_1 R 19 Hv ltac:(lia)) as Hf.
  pose proof Hv as ((_ & _ & Hd) & _).
  destruct (Z_lt_le_dec (toordinal R) 20) as [Ho|Ho].
  - rewrite protocol1_sessions_None by lia. split.
    + split; [intros _|reflexivity]. destruct Hf as [Hf _].
      destruct (Hf ltac:(lia)) as (? & [?|?]); lia.
    + split; [intros [x Hx]; discriminate|lia].
  - rewrite protocol1_sessions_eq by lia. split.
    + split; [discriminate|]. intros (Hy & Hm & Hd19).
      destruct Hf as [_ Hf]. specialize (Hf ltac:(lia)). lia.
    + split; [lia|eauto].
Qed.

Lemma protocol1_sessions_raises_iff_witness :
  valid_datetime early_race /\ protocol1_sessions early_race = None.
Proof.
  assert (Hv : valid_datetime early_race) by compute_done.
  split; [exact Hv|].
  apply (proj1 (protocol1_sessions_raises_iff early_race Hv)). compute_done.
Defined.

(** X2: [protocol2_sessions] raises exactly for the race dates 0001-01-01 to
    0001-02-16; whenever it returns, [protocol1_sessions] returns too. *)
Theorem protocol2_sessions_raises_iff (R : datetime) :
  valid_datetime R ->
  (protocol2_sessions R = None
   ↔ year R = 1 /\ (month R = 1 \/ month R = 2 /\ day R <= 16))
  /\ (is_Some (protocol2_sessions R) ↔ 48 <= toordinal R)
  /\ (is_Some (protocol2_sessions R) -> is_Some (protocol1_sessions R)).
Proof.
  intros Hv. pose proof (valid_datetime_ordinal R Hv) as [_ Hhi].
  pose proof (first_days_of_year_1 R 47 Hv ltac:(lia)) as Hf.
  pose proof Hv as ((_ & _ & Hd) & _).
  assert (Hjan : month R = 1 -> day R <= 47).
  { intros E. rewrite E, days_in_month_dim in Hd.
    change (dim (is_leap (year R)) 1) with 31 in Hd. lia. }
  destruct (Z_lt_le_dec (toordinal R) 48) as [Ho|Ho].
  - rewrite protocol2_sessions_None by lia. split; [|split].
    + split; [intros _|reflexivity]. destruct Hf as [Hf _].
      destruct (Hf ltac:(lia)) as (? & [?|?]); lia.
    + split; [intros [x Hx]; discriminate|lia].
    + intros [x Hx]; discriminate.
  - rewrite protocol2_sessions_eq by lia. split; [|split].
    + split; [discriminate|]. intros (Hy & Hm).
      destruct Hf as [_ Hf].
      assert (toordinal R <= 47); [|lia]. apply Hf. split; [exact Hy|].
      destruct Hm as [Hm|[Hm Hd']]; [left|right]; split; auto; lia.
    + split; [lia|eauto].
    + intros _. rewrite protocol1_sessions_eq by lia. eauto.
Qed.

Lemma protocol2_sessions_raises_iff_witness :
  valid_datetime february_race /\ protocol2_sessions february_race = None.
Proof.
  assert (Hv : valid_datetime february_race) by compute_done.
  split; [exact Hv|].
  apply (proj1 (protocol2_sessions_raises_iff february_race Hv)). compute_done.
Defined.

(** ** Time of day *)

Lemma time_of_combine n t : time_of (combine_ordinal n t) = time_of t.
Proof. unfold combine_ordinal. destruct (ord2ymd n) as [[y m] d]. reflexivity. Qed.

Lemma Forall_fmap_combine (P : datetime → Prop) (g : Z → Z) t (ks : list Z) :
  (∀ k, k ∈ ks -> P (combine_ordinal (g k) t)) ->
  Forall P ((λ k, combine_ordinal (g k) t) <$> ks).
Proof. intros H. apply Forall_fmap, Forall_forall. exact H. Qed.

Lemma fmap_replace_midnight_combine (g : Z → Z) t (ks : list Z) :
  replace_midnight <$> ((λ k, combine_ordinal (g k) t) <$> ks)
  = (λ k, combine_ordinal (g k) (replace_midnight t)) <$> ks.
Proof.
  rewrite <- list_fmap_compose. apply list_fmap_ext. intros i k _.
  apply replace_midnight_combine.
Qed.

(** X3: [protocol1_sessions] does not normalise: every session carries the time
    of day of the race date, and normalising the race date first gives the
    normalised sessions. *)
Theorem protocol1_sessions_time_of_day (R : datetime) bout maintenance :
  valid_datetime R -> protocol1_sessions R = Some (bout, maintenance) ->
  Forall (λ d, time_of d = time_of R) (bout ++ maintenance)
  /\ protocol1_sessions (replace_midnight R)
     = Some (replace_midnight <$> bout, replace_midnight <$> maintenance).
Proof.
  intros Hv Hp.
  destruct (protocol1_sessions_inv R _ _ Hv Hp) as (Ho & -> & ->).
  split.
  - apply Forall_app; split;
      apply (Forall_fmap_combine _ (λ k, toordinal R - k));
      intros k _; apply time_of_combine.
  - rewrite protocol1_sessions_eq by (rewrite toordinal_replace_midnight; lia).
    rewrite toordinal_replace_midnight.
    rewrite !(fmap_replace_midnight_combine (λ k, toordinal R - k)).
    reflexivity.
Qed.

(** The example race at 18:30: its sessions are at 18:30 too. *)
Lemma protocol1_sessions_time_of_day_witness :
  ∃ bout maintenance,
    protocol1_sessions (Datetime 2024 8 10 18 30 0 0) = Some (bout, maintenance)
    /\ Forall (λ d, time_of d = (18, 30, 0, 0)) (bout ++ maintenance).
Proof.
  assert (Hv : valid_datetime (Datetime 2024 8 10 18 30 0 0)) by compute_done.
  eexists _, _. split; [apply protocol1_sessions_eq; compute_done|].
  apply (protocol1_sessions_time_of_day (Datetime 2024 8 10 18 30 0 0) _ _ Hv).
  apply protocol1_sessions_eq; compute_done.
Defined.

(** X4: [protocol2_sessions] depends on the calendar day of the race date only,
    and every date it returns is at midnight. *)
Theorem protocol2_sessions_time_of_day (R R' : datetime) :
  valid_datetime R ->
  year R' = year R -> month R' = month R -> day R' = day R ->
  protocol2_sessions R' = protocol2_sessions R
  /\ ∀ bout1 maintenance bout2,
       protocol2_sessions R = Some (bout1, maintenance, bout2) ->
       Forall (λ d, time_of d = (0, 0, 0, 0)) (bout1 ++ maintenance ++ bout2).
Proof.
  intros Hv Ey Em Ed. split.
  - assert (E : replace_midnight R' = replace_midnight R).
    { apply replace_midnight_same_day. auto. }
    unfold protocol2_sessions. cbv zeta. rewrite E. reflexivity.
  - intros bout1 maintenance bout2 Hp.
    destruct (protocol2_sessions_inv R _ _ _ Hv Hp) as (Ho & -> & -> & ->).
    rewrite !Forall_app. split; [|split];
      apply (Forall_fmap_combine _ (λ k, toordinal R - k));
      intros k _; apply time_of_combine.
Qed.

Lemma protocol2_sessions_time_of_day_witness :
  protocol2_sessions (Datetime 2024 8 10 18 30 0 0)
  = protocol2_sessions example_race.
Proof.
  assert (Hv : valid_datetime example_race) by compute_done.
  apply (proj1 (protocol2_sessions_time_of_day example_race
                  (Datetime 2024 8 10 18 30 0 0) Hv eq_refl eq_refl eq_refl)).
Defined.

(** ** Order of the sessions *)

Ltac sorted_Z :=
  repeat (apply SSorted_cons;
          [|repeat first [apply List.Forall_nil | apply List.Forall_cons; [lia|]]]);
  apply SSorted_nil.

(** X5: In both protocols the sessions, in the order of the returned lists, are on
    strictly increasing days, all before the race day. *)
Theorem sessions_chronological (R : datetime) :
  valid_datetime R ->
  (∀ bout maintenance,
     protocol1_sessions R = Some (bout, maintenance) ->
     chronological (bout ++ maintenance)
     /\ Forall (λ d, toordinal d < toordinal R) (bout ++ maintenance))
  /\ (∀ bout1 maintenance bout2,
        protocol2_sessions R = Some (bout1, maintenance, bout2) ->
        chronological (bout1 ++ maintenance ++ bout2)
        /\ Forall (λ d, toordinal d < toordinal R)
             (bout1 ++ maintenance ++ bout2)).
Proof.
  intros Hv. split.
  - intros bout maintenance Hp.
    destruct (protocol1_sessions_inv R _ _ Hv Hp) as (Ho & -> & ->).
    rewrite <- fmap_app. cbn [app]. split.
    + unfold chronological.
      rewrite (toordinal_fmap_combine (λ k, toordinal R - k)) by forall_range.
      cbn [fmap list_fmap]. sorted_Z.
    + apply (Forall_fmap_combine _ (λ k, toordinal R - k)). intros k Hk.
      rewrite !elem_of_cons, elem_of_nil in Hk.
      rewrite toordinal_combine by lia. lia.
  - intros bout1 maintenance bout2 Hp.
    destruct (protocol2_sessions_inv R _ _ _ Hv Hp) as (Ho & -> & -> & ->).
    rewrite <- !fmap_app. cbn [app]. split.
    + unfold chronological.
      rewrite (toordinal_fmap_combine (λ k, toordinal R - k)) by forall_range.
      cbn [fmap list_fmap]. sorted_Z.
    + apply (Forall_fmap_combine _ (λ k, toordinal R - k)). intros k Hk.
      rewrite !elem_of_cons, elem_of_nil in Hk.
      rewrite toordinal_combine by lia. lia.
Qed.

Lemma sessions_chronological_witness :
  ∃ bout1 maintenance bout2,
    protocol2_sessions example_race = Some (bout1, maintenance, bout2)
    /\ chronological (bout1 ++ maintenance ++ bout2).
Proof.
  assert (Hv : valid_datetime example_race) by compute_done.
  eexists _, _, _. split; [apply protocol2_sessions_eq; compute_done|].
  apply (proj2 (sessions_chronological example_race Hv)).
  apply protocol2_sessions_eq; compute_done.
Defined.

(** ** Weekdays of Protocol 2 *)

Lemma weekday_fmap_combine (R t : datetime) (ks : list Z) :
  Forall (λ k, 1 <= toordinal R - k) ks ->
  weekday <$> ((λ k, combine_ordinal (toordinal R - k) t) <$> ks)
  = (λ k, (weekday R - k) mod 7) <$> ks.
Proof.
  intros Hks. rewrite <- list_fmap_compose. apply Forall_fmap_ext.
  eapply Forall_impl; [exact Hks|]. intros k Hk. cbn beta in Hk.
  unfold compose. rewrite weekday_combine by exact Hk. unfold weekday.
  rewrite Zminus_mod_idemp_l. f_equal. lia.
Qed.

(** X6: The weekdays of Protocol 2 follow the weekday of the race: bout1 starts
    two weekdays after it (on a Monday exactly for a Saturday race), and in
    each maintenance week the first session is three days before the race
    weekday and the second is on the race weekday. *)
Theorem protocol2_weekdays (R : datetime) bout1 maintenance bout2 :
  valid_datetime R -> protocol2_sessions R = Some (bout1, maintenance, bout2) ->
  weekday <$> bout1 = (λ i, (weekday R + 2 + i) mod 7) <$> bout1_offsets
  /\ (∃ first_day, head bout1 = Some first_day
                   /\ (weekday first_day = 0 ↔ weekday R = 5))
  /\ weekday <$> maintenance
     = [(weekday R - 3) mod 7; weekday R; (weekday R - 3) mod 7; weekday R;
        (weekday R - 3) mod 7; weekday R].
Proof.
  intros Hv Hp. pose proof (weekday_bounds R) as Hw.
  destruct (protocol2_sessions_inv R _ _ _ Hv Hp) as (Ho & -> & -> & _).
  split; [|split].
  - rewrite weekday_fmap_combine by forall_range.
    unfold bout1_offsets. cbn [fmap list_fmap].
    repeat (apply (f_equal2 cons); [Z.div_mod_to_equations; lia|]).
    reflexivity.
  - eexists. split; [reflexivity|].
    rewrite weekday_combine by lia. unfold weekday in *.
    Z.div_mod_to_equations. lia.
  - rewrite weekday_fmap_combine by forall_range.
    cbn [fmap list_fmap].
    repeat (apply (f_equal2 cons); [Z.div_mod_to_equations; lia|]).
    reflexivity.
Qed.

Lemma protocol2_weekdays_witness :
  ∃ bout1 maintenance bout2,
    protocol2_sessions monday_race = Some (bout1, maintenance, bout2)
    /\ weekday <$> maintenance = [4; 0; 4; 0; 4; 0].
Proof.
  assert (Hv : valid_datetime monday_race) by compute_done.
  eexists _, _, _. split; [apply protocol2_sessions_eq; compute_done|].
  refine (proj2 (proj2 (protocol2_weekdays monday_race _ _ _ Hv _))).
  apply protocol2_sessions_eq; compute_done.
Defined.

(** ** Sizes of the normalised sets *)

Lemma size_sessions_to_set_combine (o : Z) (t : datetime) (ks : list Z) :
  Forall (λ k, 1 <= o - k) ks -> NoDup ks ->
  size (sessions_to_set ((λ k, combine_ordinal (o - k) t) <$> ks)) = length ks.
Proof.
  intros Hks Hnd. unfold sessions_to_set.
  rewrite size_list_to_set.
  - by rewrite !length_fmap.
  - apply NoDup_by_ordinal.
    assert (E : toordinal <$> (replace_midnight
                 <$> ((λ k, combine_ordinal (o - k) t) <$> ks))
                = (λ k, o - k) <$> ks).
    { rewrite <- !list_fmap_compose. apply Forall_fmap_ext.
      eapply Forall_impl; [exact Hks|]. intros k Hk. cbn beta in Hk.
      unfold compose. rewrite toordinal_replace_midnight.
      by apply toordinal_combine. }
    rewrite E. apply NoDup_fmap_2; [intros a b; lia|exact Hnd].
Qed.

(** X7: Normalisation merges no two sessions: the sets built by [index] have as
    many elements as the lists have sessions (10 and 2; 11, 6 and 9). *)
Theorem sessions_to_set_sizes (R : datetime) :
  valid_datetime R ->
  (∀ bout maintenance,
     protocol1_sessions R = Some (bout, maintenance) ->
     size (sessions_to_set bout) = 10%nat
     /\ size (sessions_to_set maintenance) = 2%nat)
  /\ (∀ bout1 maintenance bout2,
        protocol2_sessions R = Some (bout1, maintenance, bout2) ->
        size (sessions_to_set bout1) = 11%nat
        /\ size (sessions_to_set maintenance) = 6%nat
        /\ size (sessions_to_set bout2) = 9%nat).
Proof.
  intros Hv. split.
  - intros bout maintenance Hp.
    destruct (protocol1_sessions_inv R _ _ Hv Hp) as (Ho & -> & ->).
    split;
      (rewrite size_sessions_to_set_combine;
       [reflexivity | forall_range | nodup_Z]).
  - intros bout1 maintenance bout2 Hp.
    destruct (protocol2_sessions_inv R _ _ _ Hv Hp) as (Ho & -> & -> & ->).
    split; [|split];
      (rewrite size_sessions_to_set_combine;
       [reflexivity | forall_range | nodup_Z]).
Qed.

Lemma sessions_to_set_sizes_witness :
  ∃ bout1 maintenance bout2,
    protocol2_sessions example_race = Some (bout1, maintenance, bout2)
    /\ size (sessions_to_set bout1) = 11%nat.
Proof.
  assert (Hv : valid_datetime example_race) by compute_done.
  eexists _, _, _. split; [apply protocol2_sessions_eq; compute_done|].
  refine (proj1 (proj2 (sessions_to_set_sizes example_race Hv) _ _ _ _)).
  apply protocol2_sessions_eq; compute_done.
Defined.

(** * Further properties of the month selection *)

Global Instance month_le_transitive : Transitive month_le.
Proof. intros [a1 a2] [b1 b2] [c1 c2]. unfold month_le. cbn. lia. Qed.

Global Instance month_le_total : Total month_le.
Proof. intros [a1 a2] [b1 b2]. unfold month_le. cbn. lia. Qed.

Global Instance month_le_antisymm : AntiSymm (=) month_le.
Proof.
  intros [a1 a2] [b1 b2]. unfold month_le. cbn. intros H1 H2.
  f_equal; lia.
Qed.

Lemma StronglySorted_strict (l : list (Z * Z)) :
  StronglySorted month_le l -> NoDup l -> StronglySorted month_lt l.
Proof.
  induction 1 as [|a l Hs IH Hall]; intros Hnd; [constructor|].
  apply NoDup_cons in Hnd as [Hnotin Hnd]. constructor; [by apply IH|].
  rewrite Forall_forall in *. intros b Hb. specialize (Hall b Hb).
  assert (a ≠ b) as Hne by (intros ->; done).
  destruct a as [a1 a2], b as [b1 b2]. unfold month_le, month_lt in *. cbn in *.
  destruct (decide (a2 = b2)) as [->|]; [|lia].
  destruct (decide (a1 = b1)) as [->|]; [done|lia].
Qed.

Lemma months_to_show_nonempty (dates : list datetime) (R : datetime) :
  months_to_show dates R ≠ [].
Proof.
  assert (Hin : (year R, month R) ∈ months_to_show dates R).
  { apply elem_of_months_to_show. exists R. auto. }
  intros E. rewrite E in Hin. by apply elem_of_nil in Hin.
Qed.

(** X8: [months_to_show] returns the months in strictly increasing order (so
    without repetition), and the month of the race date is always among
    them. *)
Theorem months_to_show_sorted (dates : list datetime) (R : datetime) :
  StronglySorted month_lt (months_to_show dates R)
  /\ (year R, month R) ∈ months_to_show dates R
  /\ months_to_show dates R ≠ [].
Proof.
  assert (Hin : (year R, month R) ∈ months_to_show dates R).
  { apply elem_of_months_to_show. exists R. auto. }
  split; [|split; [exact Hin|apply months_to_show_nonempty]].
  apply StronglySorted_strict; [|apply NoDup_months_to_show].
  unfold months_to_show. cbv zeta. apply StronglySorted_merge_sort; apply _.
Qed.

(** X9: [months_to_show] depends only on which months occur among the dates and
    the race date: not on the order of the dates, on repetitions, on the days
    within a month or on times of day. *)
Theorem months_to_show_same_months (dates dates' : list datetime) (R R' : datetime) :
  (∀ y m, (∃ d, (d ∈ dates \/ d = R) /\ year d = y /\ month d = m)
          ↔ (∃ d, (d ∈ dates' \/ d = R') /\ year d = y /\ month d = m)) ->
  months_to_show dates R = months_to_show dates' R'.
Proof.
  intros Hsame. apply (StronglySorted_unique month_le).
  - unfold months_to_show. cbv zeta. apply StronglySorted_merge_sort; apply _.
  - unfold months_to_show. cbv zeta. apply StronglySorted_merge_sort; apply _.
  - apply NoDup_Permutation; try apply NoDup_months_to_show.
    intros [y m]. rewrite !elem_of_months_to_show. apply Hsame.
Qed.

(** Reordering the sessions and dropping the times of day changes nothing. *)
Lemma months_to_show_same_months_witness :
  months_to_show [Datetime 2024 7 31 8 0 0 0; Datetime 2024 8 3 0 0 0 0]
    example_race
  = months_to_show [Datetime 2024 8 5 0 0 0 0; Datetime 2024 7 22 0 0 0 0]
      (Datetime 2024 8 10 18 30 0 0).
Proof.
  apply months_to_show_same_months. intros y m. split.
  - intros (d & [Hd| ->] & <- & <-).
    + rewrite !elem_of_cons, elem_of_nil in Hd. destruct Hd as [->|[->|[]]].
      * exists (Datetime 2024 7 22 0 0 0 0).
        split; [left; rewrite !elem_of_cons; auto|auto].
      * exists (Datetime 2024 8 5 0 0 0 0).
        split; [left; rewrite !elem_of_cons; auto|auto].
    + exists (Datetime 2024 8 10 18 30 0 0). auto.
  - intros (d & [Hd| ->] & <- & <-).
    + rewrite !elem_of_cons, elem_of_nil in Hd. destruct Hd as [->|[->|[]]].
      * exists (Datetime 2024 8 3 0 0 0 0).
        split; [left; rewrite !elem_of_cons; auto|auto].
      * exists (Datetime 2024 7 31 8 0 0 0).
        split; [left; rewrite !elem_of_cons; auto|auto].
    + exists example_race. auto.
Defined.

(** * Further properties of the month grids *)

(** ** The shape of [monthcalendar] *)

Lemma concat_slices_upto {A} (q : nat) (l : list A) :
  (length l <= 7 * q)%nat ->
  concat ((λ i, take 7 (drop i l)) <$> ((λ k, 7 * k)%nat <$> seq 0 q)) = l.
Proof.
  revert l. induction q as [|q IH]; intros l Hl.
  - destruct l; [reflexivity|cbn in Hl; lia].
  - cbn [seq]. rewrite <- fmap_S_seq. rewrite !fmap_cons. cbn [concat].
    change (7 * 0)%nat with 0%nat. rewrite drop_0.
    transitivity (take 7 l ++ drop 7 l); [|apply take_drop].
    f_equal.
    etransitivity; [|apply (IH (drop 7 l)); rewrite length_drop; lia].
    rewrite <- !list_fmap_compose. f_equal. apply list_fmap_ext.
    intros i k _. unfold compose. rewrite drop_drop. do 2 f_equal. lia.
Qed.

Lemma concat_week_slices {A} (l : list A) :
  concat ((λ i, take 7 (drop i l)) <$> PyCalendar.range7 (length l)) = l.
Proof.
  apply concat_slices_upto.
  pose proof (Nat.div_mod_eq (length l + 6) 7) as E.
  pose proof (Nat.mod_upper_bound (length l + 6) 7 ltac:(lia)). lia.
Qed.

Lemma week_slices_shape {A} (l : list A) (q : nat) :
  length l = (7 * q)%nat ->
  length ((λ i, take 7 (drop i l)) <$> PyCalendar.range7 (length l)) = q
  /\ Forall (λ week, length week = 7%nat)
       ((λ i, take 7 (drop i l)) <$> PyCalendar.range7 (length l)).
Proof.
  intros Hl. unfold PyCalendar.range7. rewrite Hl.
  assert (Hq : ((7 * q + 6) / 7 = q)%nat).
  { symmetry. apply (Nat.div_unique _ 7 q 6); lia. }
  rewrite Hq. split.
  - by rewrite !length_fmap, length_seq.
  - rewrite <- list_fmap_compose. apply Forall_fmap, Forall_forall.
    intros k Hk. apply elem_of_seq in Hk. unfold compose.
    rewrite length_take, length_drop. lia.
Qed.

Lemma calendar_weekday_bounds y m d : 0 <= PyCalendar.weekday y m d <= 6.
Proof. unfold PyCalendar.weekday. cbv zeta. Z.div_mod_to_equations. lia. Qed.

Lemma days_in_month_bounds y m : 1 <= m <= 12 -> 28 <= days_in_month y m <= 31.
Proof.
  intros Hm. rewrite days_in_month_dim.
  assert (m = 1 \/ m = 2 \/ m = 3 \/ m = 4 \/ m = 5 \/ m = 6 \/ m = 7 \/ m = 8
          \/ m = 9 \/ m = 10 \/ m = 11 \/ m = 12) as Hcases by lia.
  destruct (is_leap y);
    repeat (destruct Hcases as [->|Hcases]); try subst m;
    match goal with
    | |- context [dim ?b ?m] =>
        let v := eval vm_compute in (dim b m) in change (dim b m) with v
    end; lia.
Qed.

(** The list of [itermonthdays]: padding, the days, padding, a whole number
    of weeks. *)
Lemma itermonthdays_shape y m :
  1 <= m <= 12 ->
  ∃ (before after q : nat),
    PyCalendar.itermonthdays y m
    = Some (replicate before 0 ++ seqZ 1 (days_in_month y m) ++ replicate after 0)
    /\ Z.of_nat before = PyCalendar.weekday y m 1
    /\ (before + Z.to_nat (days_in_month y m) + after = 7 * q)%nat
    /\ (4 <= q <= 6)%nat.
Proof.
  intros Hm. unfold PyCalendar.itermonthdays.
  rewrite monthrange_Some, bind_Some_eq by exact Hm. cbv zeta.
  pose proof (calendar_weekday_bounds y m 1) as Hw.
  pose proof (days_in_month_bounds y m Hm) as Hd.
  unfold PyCalendar.firstweekday.
  set (day1 := PyCalendar.weekday y m 1) in *.
  set (nd := days_in_month y m) in *.
  exists (Z.to_nat ((day1 - 0) mod 7)), (Z.to_nat ((0 - day1 - nd) mod 7)),
    (Z.to_nat ((day1 + nd + (0 - day1 - nd) mod 7) / 7)).
  split; [reflexivity|].
  assert (E1 : (day1 - 0) mod 7 = day1) by (Z.div_mod_to_equations; lia).
  rewrite E1.
  split; [lia|].
  assert (E2 : (day1 + nd + (0 - day1 - nd) mod 7) mod 7 = 0).
  { Z.div_mod_to_equations. lia. }
  assert (E3 : 0 <= (0 - day1 - nd) mod 7 < 7) by (Z.div_mod_to_equations; lia).
  split.
  - apply Nat2Z.inj. rewrite Nat2Z.inj_mul, !Nat2Z.inj_add, !Z2Nat.id by lia.
    rewrite Z2Nat.id by (Z.div_mod_to_equations; lia).
    Z.div_mod_to_equations. lia.
  - split.
    + apply Nat2Z.inj_le. rewrite Z2Nat.id by (Z.div_mod_to_equations; lia).
      Z.div_mod_to_equations. lia.
    + apply Nat2Z.inj_le. rewrite Z2Nat.id by (Z.div_mod_to_equations; lia).
      Z.div_mod_to_equations. lia.
Qed.

Lemma monthcalendar_shape y m :
  1 <= m <= 12 ->
  ∃ (before after : nat) weeks,
    PyCalendar.monthcalendar y m = Some weeks
    /\ concat weeks
       = replicate before 0 ++ seqZ 1 (days_in_month y m) ++ replicate after 0
    /\ Z.of_nat before = PyCalendar.weekday y m 1
    /\ Forall (λ week, length week = 7%nat) weeks
    /\ (4 <= length weeks <= 6)%nat.
Proof.
  intros Hm.
  destruct (itermonthdays_shape y m Hm) as (before & after & q & Hd & Hb & Hlen & Hq).
  unfold PyCalendar.monthcalendar. rewrite Hd, bind_Some_eq.
  exists before, after. eexists. split; [reflexivity|].
  split; [apply concat_week_slices|]. split; [exact Hb|].
  pose proof (days_in_month_bounds y m Hm) as Hdim.
  destruct (week_slices_shape
              (replicate before 0 ++ seqZ 1 (days_in_month y m)
               ++ replicate after 0) q) as [H1 H2].
  { rewrite !length_app, !length_replicate, length_seqZ. lia. }
  split; [exact H2|]. rewrite H1. exact Hq.
Qed.

(** ** The shape of the grids *)

Lemma monthcalendar_None y m :
  ¬ (1 <= m <= 12) -> PyCalendar.monthcalendar y m = None.
Proof.
  intros Hm. unfold PyCalendar.monthcalendar, PyCalendar.itermonthdays,
    PyCalendar.monthrange.
  destruct ((1 <=? m) && (m <=? 12)) eqn:E; [|reflexivity].
  apply andb_true_iff in E as [E1 E2]. apply Z.leb_le in E1, E2. lia.
Qed.

Lemma grid_of_month y m ct grid : grid_of y m ct = Some grid -> 1 <= m <= 12.
Proof.
  intros Hg. destruct (decide (1 <= m <= 12)) as [H|H]; [exact H|].
  unfold grid_of in Hg. rewrite monthcalendar_None in Hg by exact H. discriminate.
Qed.

Lemma grid_of_year y m ct grid :
  grid_of y m ct = Some grid -> MINYEAR <= y <= MAXYEAR.
Proof.
  intros Hg. pose proof (grid_of_month _ _ _ _ Hg) as Hm.
  destruct (monthcalendar_Some y m Hm) as (weeks & Hw & _ & Hall).
  pose proof (days_in_month_bounds y m Hm) as Hd.
  destruct (Hall 1 ltac:(lia)) as (wk & Hwk & H1).
  unfold grid_of in Hg. rewrite Hw, bind_Some_eq in Hg.
  destruct (mapM_elem_of_l _ _ _ _ Hg Hwk) as (row & _ & Hrow).
  destruct (mapM_elem_of_l _ _ _ _ Hrow H1) as (c & _ & Hc).
  change (1 =? 0) with false in Hc. cbv iota in Hc.
  destruct (new_datetime y m 1) as [d|] eqn:Ed; [|discriminate].
  apply new_datetime_inv in Ed as [(Hy & _) _]. exact Hy.
Qed.

(** X10: A grid is built exactly for the months 1 to 12 of the years 1 to 9999;
    for any other year or month the builders raise. *)
Theorem grid_built_iff (y m : Z) (race_date : option datetime) :
  (∀ bout_set maint_set,
     is_Some (month_calendar_data_protocol1 y m bout_set maint_set race_date)
     ↔ (1 <= y <= 9999 /\ 1 <= m <= 12))
  /\ (∀ bout1_set maint_set bout2_set,
        is_Some (month_calendar_data_protocol2 y m bout1_set maint_set
                   bout2_set race_date)
        ↔ (1 <= y <= 9999 /\ 1 <= m <= 12)).
Proof.
  split; intros.
  - rewrite month_calendar_data_protocol1_grid_of. split.
    + intros [grid Hg]. split; [eapply grid_of_year|eapply grid_of_month]; eauto.
    + intros [Hy Hm]. by apply grid_of_Some.
  - rewrite month_calendar_data_protocol2_grid_of. split.
    + intros [grid Hg]. split; [eapply grid_of_year|eapply grid_of_month]; eauto.
    + intros [Hy Hm]. by apply grid_of_Some.
Qed.

Lemma mapM_concat {A B} (f : A → option B) (ls : list (list A)) (ks : list (list B)) :
  mapM (mapM f) ls = Some ks ->
  Forall2 (λ x y, f x = Some y) (concat ls) (concat ks).
Proof.
  intros H. apply mapM_Some_1 in H.
  induction H as [|l k ls ks Hlk _ IH]; [constructor|].
  cbn [concat]. apply Forall2_app; [by apply mapM_Some_1|exact IH].
Qed.

Lemma omap_cell_days (days : list Z) (cells : list cell) :
  Forall2 (λ dy c, c.1 = if dy =? 0 then None else Some dy) days cells ->
  omap fst cells = filter (λ dy, dy ≠ 0) days.
Proof.
  induction 1 as [|dy c days cells Hc _ IH]; [reflexivity|].
  cbn [omap list_omap]. rewrite filter_cons, Hc.
  destruct (Z.eqb_spec dy 0) as [E|E].
  - rewrite decide_False by (intros Hn; by apply Hn). exact IH.
  - rewrite decide_True by exact E. by rewrite IH.
Qed.

Lemma filter_all {A} (P : A → Prop) `{∀ x, Decision (P x)} (l : list A) :
  Forall P l -> filter P l = l.
Proof.
  induction 1 as [|x l Hx _ IH]; [reflexivity|].
  rewrite filter_cons, decide_True by exact Hx. by rewrite IH.
Qed.

Lemma filter_nonzero_padding (before after : nat) (n : Z) :
  filter (λ dy, dy ≠ 0) (replicate before 0 ++ seqZ 1 n ++ replicate after 0)
  = seqZ 1 n.
Proof.
  assert (Hrep : ∀ k, filter (λ dy : Z, dy ≠ 0) (replicate k 0) = []).
  { induction k as [|k IH]; [reflexivity|].
    cbn [replicate]. rewrite filter_cons, decide_False by (intros H; by apply H).
    exact IH. }
  rewrite !filter_app, !Hrep, app_nil_r. cbn [app].
  apply filter_all, Forall_seqZ. intros. lia.
Qed.

Lemma grid_of_structure y m ct grid :
  grid_of y m ct = Some grid ->
  ∃ (before after : nat) weeks,
    PyCalendar.monthcalendar y m = Some weeks
    /\ concat weeks
       = replicate before 0 ++ seqZ 1 (days_in_month y m) ++ replicate after 0
    /\ Z.of_nat before = PyCalendar.weekday y m 1
    /\ Forall (λ week, length week = 7%nat) weeks
    /\ (4 <= length weeks <= 6)%nat
    /\ Forall2 (λ week row,
         Forall2 (λ dy c, c = if dy =? 0 then (None, None)
                              else (Some dy, ct (Datetime y m dy 0 0 0 0)))
           week row) weeks grid.
Proof.
  intros Hg. pose proof (grid_of_month _ _ _ _ Hg) as Hm.
  destruct (monthcalendar_shape y m Hm)
    as (before & after & weeks & Hw & Hc & Hb & H7 & Hlen).
  exists before, after, weeks. repeat (split; [assumption|]).
  unfold grid_of in Hg. rewrite Hw, bind_Some_eq in Hg.
  apply mapM_Some_1 in Hg. eapply Forall2_impl; [exact Hg|].
  intros week row Hrow. apply mapM_Some_1 in Hrow.
  eapply Forall2_impl; [exact Hrow|]. intros dy c Hcell. cbn beta in Hcell.
  destruct (dy =? 0); [congruence|].
  destruct (new_datetime y m dy) as [d|] eqn:Ed; [|discriminate].
  apply new_datetime_inv in Ed as [_ ->]. rewrite bind_Some_eq in Hcell.
  injection Hcell as <-. reflexivity.
Qed.

(** X11: Every built grid has 4 to 6 rows of exactly 7 cells, and its in-month
    cells, read row by row, carry the day numbers 1, 2, ... up to the number
    of days of the month, each once. *)
Theorem grid_shape (y m : Z) (race_date : option datetime) (grid : list (list cell)) :
  ((∃ bout_set maint_set,
      month_calendar_data_protocol1 y m bout_set maint_set race_date = Some grid)
   \/ (∃ bout1_set maint_set bout2_set,
         month_calendar_data_protocol2 y m bout1_set maint_set bout2_set race_date
         = Some grid)) ->
  (4 <= length grid <= 6)%nat
  /\ Forall (λ row, length row = 7%nat) grid
  /\ omap fst (concat grid) = seqZ 1 (days_in_month y m)
  /\ (∀ row c, row ∈ grid -> c ∈ row -> c.1 = None -> c = (None, None)).
Proof.
  intros Hb.
  assert (∃ ct, grid_of y m ct = Some grid) as [ct Hg].
  { destruct Hb as [(b & mt & H)|(b1 & mt & b2 & H)]; eexists; exact H. }
  clear Hb.
  destruct (grid_of_structure _ _ _ _ Hg)
    as (before & after & weeks & Hw & Hc & Hbf & H7 & Hlen & Hrows).
  assert (Hl : length weeks = length grid) by (eapply Forall2_length; eauto).
  split; [lia|].
  split.
  { clear Hc Hlen Hw Hl Hg. revert H7.
    induction Hrows as [|wk row weeks grid Hr _ IH]; intros H7; [constructor|].
    apply Forall_cons in H7 as [H7 H7']. constructor; [|by apply IH].
    rewrite <- H7. symmetry. eapply Forall2_length; eauto. }
  split.
  { rewrite <- (filter_nonzero_padding before after), <- Hc.
    apply omap_cell_days. clear Hc Hlen Hw H7 Hl Hg.
    induction Hrows as [|wk row weeks grid Hr _ IH]; [constructor|].
    cbn [concat]. apply Forall2_app; [|exact IH].
    eapply Forall2_impl; [exact Hr|]. intros dy c ->.
    by destruct (dy =? 0). }
  intros row c Hrow Hc' Hnone.
  destruct (grid_of_cells _ _ _ _ _ _ Hg Hrow Hc') as [->|(dy & _ & ->)];
    [reflexivity|discriminate].
Qed.

Lemma grid_shape_witness :
  ∃ grid,
    month_calendar_data_protocol1 2024 8 ∅ ∅ (Some example_race) = Some grid
    /\ length grid = 5%nat
    /\ omap fst (concat grid) = seqZ 1 31.
Proof.
  assert (H : ∃ grid,
            month_calendar_data_protocol1 2024 8 ∅ ∅ (Some example_race)
            = Some grid /\ length grid = 5%nat).
  { eexists. split; [vm_compute; reflexivity|reflexivity]. }
  destruct H as (grid & Hg & Hlen). exists grid.
  split; [exact Hg|]. split; [exact Hlen|].
  apply (grid_shape 2024 8 (Some example_race) grid). left. eauto.
Defined.

(** ** Columns and weekdays *)

Lemma lookup_concat_uniform {A} (n : nat) (ls : list (list A)) (r c : nat) w x :
  Forall (λ w, length w = n) ls -> ls !! r = Some w -> w !! c = Some x ->
  concat ls !! (r * n + c)%nat = Some x.
Proof.
  intros Hn. revert r. induction Hn as [|w0 ls Hw0 _ IH]; intros r Hr Hc.
  - by rewrite lookup_nil in Hr.
  - destruct r as [|r]; cbn [concat].
    + injection Hr as ->. cbn [Nat.mul Nat.add].
      apply lookup_app_l_Some. exact Hc.
    + cbn in Hr. rewrite lookup_app_r by lia.
      replace (S r * n + c - length w0)%nat with (r * n + c)%nat by lia.
      by apply IH.
Qed.

Lemma lookup_padded_days (before after : nat) (n : Z) (i : nat) (dy : Z) :
  (replicate before 0 ++ seqZ 1 n ++ replicate after 0) !! i = Some dy ->
  dy ≠ 0 -> Z.of_nat i = Z.of_nat before + dy - 1.
Proof.
  intros Hi Hnz. apply lookup_app_Some in Hi as [Hi|[Hle Hi]].
  { apply lookup_replicate in Hi as [-> _]. done. }
  rewrite length_replicate in Hle, Hi.
  apply lookup_app_Some in Hi as [Hi|[_ Hi]].
  - apply lookup_seqZ in Hi as [-> _]. lia.
  - apply lookup_replicate in Hi as [-> _]. done.
Qed.

(** X12: The columns of a grid are the weekdays, Monday first: an in-month cell in
    column [c] (counted from 0) is a day whose weekday is [c]. *)
Theorem grid_columns_are_weekdays (y m : Z) (race_date : option datetime)
    (grid : list (list cell)) (r c : nat) row (dy : Z) (t : option string) :
  ((∃ bout_set maint_set,
      month_calendar_data_protocol1 y m bout_set maint_set race_date = Some grid)
   \/ (∃ bout1_set maint_set bout2_set,
         month_calendar_data_protocol2 y m bout1_set maint_set bout2_set race_date
         = Some grid)) ->
  grid !! r = Some row -> row !! c = Some (Some dy, t) ->
  weekday (Datetime y m dy 0 0 0 0) = Z.of_nat c.
Proof.
  intros Hb Hrow Hc.
  assert (∃ ct, grid_of y m ct = Some grid) as [ct Hg].
  { destruct Hb as [(b & mt & H)|(b1 & mt & b2 & H)]; eexists; exact H. }
  clear Hb. pose proof (grid_of_year _ _ _ _ Hg) as Hy.
  destruct (grid_of_structure _ _ _ _ Hg)
    as (before & after & weeks & Hw & Hcc & Hbf & H7 & Hlen & Hrows).
  destruct (Forall2_lookup_r _ _ _ _ _ Hrows Hrow) as (wk & Hwk & Hcells).
  destruct (Forall2_lookup_r _ _ _ _ _ Hcells Hc) as (dy' & Hdy' & Hcell).
  assert (Hc7 : (c < 7)%nat).
  { apply lookup_lt_Some in Hdy'. rewrite Forall_forall in H7.
    rewrite (H7 wk) in Hdy'; [exact Hdy'|]. by eapply list_elem_of_lookup_2. }
  destruct (Z.eqb_spec dy' 0) as [E|E]; [discriminate|].
  injection Hcell as -> _.
  pose proof (lookup_concat_uniform 7 weeks r c wk dy' H7 Hwk Hdy') as Hi.
  rewrite Hcc in Hi. apply lookup_padded_days in Hi; [|exact E].
  unfold weekday, toordinal. cbn [year month day].
  unfold PyCalendar.weekday in Hbf. cbv zeta in Hbf.
  destruct (Z.leb_spec MINYEAR y); [|lia].
  destruct (Z.leb_spec y MAXYEAR); [|lia]. cbn [andb] in Hbf.
  unfold ymd2ord in *. Z.div_mod_to_equations. lia.
Qed.

Lemma grid_columns_are_weekdays_witness :
  weekday example_race = 5.
Proof.
  assert (H : ∃ grid row,
            month_calendar_data_protocol2 2024 8 ∅ ∅ ∅ (Some example_race)
            = Some grid
            /\ grid !! 1%nat = Some row
            /\ row !! 5%nat = Some (Some 10, Some "race"%string)).
  { eexists _, _. split; [vm_compute; reflexivity|]. split; reflexivity. }
  destruct H as (grid & row & Hg & Hrow & Hc).
  apply (grid_columns_are_weekdays 2024 8 (Some example_race) grid 1 5 row 10
           (Some "race"%string)); [right; eauto|exact Hrow|exact Hc].
Defined.

(** ** The race cell *)

Lemma cell_type_protocol1_race_iff s1 s2 (race : option datetime) x :
  cell_type_protocol1 s1 s2 race x = Some "race" ↔ race = Some x.
Proof.
  unfold cell_type_protocol1. repeat case_bool_decide; split; intros; done.
Qed.

Lemma cell_type_protocol2_race_iff s1 s2 s3 (race : option datetime) x :
  cell_type_protocol2 s1 s2 s3 race x = Some "race" ↔ race = Some x.
Proof.
  unfold cell_type_protocol2. repeat case_bool_decide; split; intros; done.
Qed.

Lemma grid_of_race_cell y m ct (race_date : option datetime) grid row (c : cell) :
  (∀ x, ct x = Some "race" ↔ replace_midnight <$> race_date = Some x) ->
  grid_of y m ct = Some grid -> row ∈ grid -> c ∈ row ->
  c.2 = Some "race"
  ↔ ∃ R, race_date = Some R /\ y = year R /\ m = month R /\ c.1 = Some (day R).
Proof.
  intros Hct Hg Hrow Hc.
  destruct (grid_of_cells _ _ _ _ _ _ Hg Hrow Hc) as [->|(dy & Hv & ->)].
  - cbn. split; [discriminate|]. intros (R & _ & _ & _ & ?). discriminate.
  - cbn [fst snd]. rewrite Hct. destruct race_date as [R|]; cbn.
    + split.
      * intros [= Hy Hm Hd]. exists R. rewrite Hy, Hm, Hd. auto.
      * intros (R' & [= <-] & -> & -> & [= ->]). reflexivity.
    + split; [discriminate|]. intros (R & ? & _). discriminate.
Qed.

(** X13: A cell is "race" exactly when the grid is that of the month of the race
    date and the cell is the day of the race; without a race date no cell is
    "race". *)
Theorem race_cell_iff (y m : Z) (race_date : option datetime)
    (grid : list (list cell)) row (c : cell) :
  ((∃ bout_set maint_set,
      month_calendar_data_protocol1 y m bout_set maint_set race_date = Some grid)
   \/ (∃ bout1_set maint_set bout2_set,
         month_calendar_data_protocol2 y m bout1_set maint_set bout2_set race_date
         = Some grid)) ->
  row ∈ grid -> c ∈ row ->
  c.2 = Some "race"
  ↔ ∃ R, race_date = Some R /\ y = year R /\ m = month R /\ c.1 = Some (day R).
Proof.
  intros [(b & mt & Hg)|(b1 & mt & b2 & Hg)] Hrow Hc.
  - rewrite month_calendar_data_protocol1_grid_of in Hg.
    eapply grid_of_race_cell; eauto. intros x.
    apply cell_type_protocol1_race_iff.
  - rewrite month_calendar_data_protocol2_grid_of in Hg.
    eapply grid_of_race_cell; eauto. intros x.
    apply cell_type_protocol2_race_iff.
Qed.

Lemma race_cell_iff_witness :
  ∃ R, Some example_race = Some R /\ 2024 = year R /\ 8 = month R
       /\ Some 10 = Some (day R).
Proof.
  assert (H : ∃ grid row,
            month_calendar_data_protocol2 2024 8 ∅ ∅ ∅ (Some example_race)
            = Some grid
            /\ grid !! 1%nat = Some row
            /\ row !! 5%nat = Some (Some 10, Some "race"%string)).
  { eexists _, _. split; [vm_compute; reflexivity|]. split; reflexivity. }
  destruct H as (grid & row & Hg & Hrow & Hc).
  apply list_elem_of_lookup_2 in Hrow, Hc.
  apply (race_cell_iff 2024 8 (Some example_race) grid row
           (Some 10, Some "race"%string)); [right; eauto|exact Hrow|exact Hc|].
  reflexivity.
Defined.

(** ** What the cells of the calendars of [index] mean *)

Lemma index_calendars_inv (R : datetime) (cal1 cal2 : list month_grid) :
  index_calendars R = Some (cal1, cal2) ->
  ∃ bout maintenance bout1 maintenance2 bout2,
    protocol1_sessions R = Some (bout, maintenance)
    /\ protocol2_sessions R = Some (bout1, maintenance2, bout2)
    /\ mapM (λ '(y, m),
         grid ← grid_of y m
                  (cell_type_protocol1 (sessions_to_set bout)
                     (sessions_to_set maintenance) (Some (replace_midnight R)));
         Some (y, m, grid))
         (months_to_show (bout ++ maintenance) R) = Some cal1
    /\ mapM (λ '(y, m),
         grid ← grid_of y m
                  (cell_type_protocol2 (sessions_to_set bout1)
                     (sessions_to_set maintenance2) (sessions_to_set bout2)
                     (Some (replace_midnight R)));
         Some (y, m, grid))
         (months_to_show ((bout1 ++ maintenance2) ++ bout2) R) = Some cal2.
Proof.
  rewrite index_calendars_eq. intros H.
  destruct (protocol1_sessions R) as [[bout maintenance]|]; [|discriminate].
  rewrite bind_Some_eq in H. cbv beta iota in H.
  destruct (protocol2_sessions R) as [[[bout1 maintenance2] bout2]|];
    [|discriminate].
  rewrite bind_Some_eq in H. cbv beta iota in H.
  exists bout, maintenance, bout1, maintenance2, bout2.
  split; [reflexivity|]. split; [reflexivity|].
  destruct (mapM _ (months_to_show (bout ++ maintenance) R)) as [c1|];
    [|discriminate].
  rewrite bind_Some_eq in H.
  destruct (mapM _ (months_to_show ((bout1 ++ maintenance2) ++ bout2) R))
    as [c2|]; [|discriminate].
  rewrite bind_Some_eq in H. injection H as <- <-. auto.
Qed.

Lemma calendar_cell (ct : datetime → option string) (months : list (Z * Z))
    (cal : list month_grid) y m grid row dy t :
  mapM (λ '(y, m), grid ← grid_of y m ct; Some (y, m, grid)) months = Some cal ->
  (y, m, grid) ∈ cal -> row ∈ grid -> (Some dy, t) ∈ row ->
  valid_ymd y m dy /\ t = ct (Datetime y m dy 0 0 0 0).
Proof.
  intros Hcal He Hrow Hc.
  destruct (mapM_elem_of_r _ _ _ _ Hcal He) as ([y' m'] & _ & Hf).
  cbn beta iota in Hf.
  destruct (grid_of y' m' ct) as [g|] eqn:Hg; [|discriminate].
  rewrite bind_Some_eq in Hf. injection Hf as -> -> ->.
  destruct (grid_of_cells _ _ _ _ _ _ Hg Hrow Hc) as [E|(dy' & Hv & E)];
    [discriminate|].
  injection E as -> ->. auto.
Qed.

Lemma in_sessions_to_set_on_day (l : list datetime) y m dy :
  Datetime y m dy 0 0 0 0 ∈ sessions_to_set l ↔ ∃ d, d ∈ l /\ on_day d y m dy.
Proof.
  rewrite elem_of_sessions_to_set. unfold on_day, replace_midnight. split.
  - intros (d & Hd & [= -> -> ->]). eauto.
  - intros (d & Hd & <- & <- & <-). eauto.
Qed.

Lemma cell_type_protocol1_meaning (rn x : datetime) (sb sm : gset datetime) :
  sb ## sm -> rn ∉ sb -> rn ∉ sm ->
  let t := cell_type_protocol1 sb sm (Some rn) x in
  (t = Some "race" ↔ x = rn)
  /\ (t = Some "bout" ↔ x ∈ sb)
  /\ (t = Some "maintenance" ↔ x ∈ sm)
  /\ (t = None ↔ x ≠ rn /\ (x ∉ sb) /\ (x ∉ sm)).
Proof.
  intros D N1 N2. cbv zeta. unfold cell_type_protocol1.
  pose proof (D x) as Dx.
  repeat case_bool_decide;
    repeat split; intros; destruct_and?;
    try discriminate; try congruence; try tauto.
Qed.

Lemma cell_type_protocol2_meaning (rn x : datetime) (s1 sm s2 : gset datetime) :
  s1 ## sm -> s1 ## s2 -> sm ## s2 -> rn ∉ s1 -> rn ∉ sm -> rn ∉ s2 ->
  let t := cell_type_protocol2 s1 sm s2 (Some rn) x in
  (t = Some "race" ↔ x = rn)
  /\ (t = Some "bout1" ↔ x ∈ s1)
  /\ (t = Some "maintenance" ↔ x ∈ sm)
  /\ (t = Some "bout2" ↔ x ∈ s2)
  /\ (t = None ↔ x ≠ rn /\ (x ∉ s1) /\ (x ∉ sm) /\ (x ∉ s2)).
Proof.
  intros D1 D2 D3 N1 N2 N3. cbv zeta. unfold cell_type_protocol2.
  pose proof (D1 x) as D1x. pose proof (D2 x) as D2x. pose proof (D3 x) as D3x.
  repeat case_bool_decide;
    repeat split; intros; destruct_and?;
    try discriminate; try congruence; try tauto.
Qed.

(** X14: In the calendars that [index] builds, the category of every in-month cell
    says exactly what the day is: "race" for the day of the race, the name of
    a session list for the days of its sessions, and no category for the days
    with neither. *)
Theorem calendars_cells_meaning (R : datetime) (cal1 cal2 : list month_grid) :
  valid_datetime R -> index_calendars R = Some (cal1, cal2) ->
  ∃ bout maintenance bout1 maintenance2 bout2,
    protocol1_sessions R = Some (bout, maintenance)
    /\ protocol2_sessions R = Some (bout1, maintenance2, bout2)
    /\ (∀ y m grid row dy t,
          (y, m, grid) ∈ cal1 -> row ∈ grid -> (Some dy, t) ∈ row ->
          (t = Some "race" ↔ on_day R y m dy)
          /\ (t = Some "bout" ↔ ∃ d, d ∈ bout /\ on_day d y m dy)
          /\ (t = Some "maintenance" ↔ ∃ d, d ∈ maintenance /\ on_day d y m dy)
          /\ (t = None
              ↔ ¬ on_day R y m dy
                /\ ¬ ∃ d, d ∈ bout ++ maintenance /\ on_day d y m dy))
    /\ (∀ y m grid row dy t,
          (y, m, grid) ∈ cal2 -> row ∈ grid -> (Some dy, t) ∈ row ->
          (t = Some "race" ↔ on_day R y m dy)
          /\ (t = Some "bout1" ↔ ∃ d, d ∈ bout1 /\ on_day d y m dy)
          /\ (t = Some "maintenance" ↔ ∃ d, d ∈ maintenance2 /\ on_day d y m dy)
          /\ (t = Some "bout2" ↔ ∃ d, d ∈ bout2 /\ on_day d y m dy)
          /\ (t = None
              ↔ ¬ on_day R y m dy
                /\ ¬ ∃ d, d ∈ (bout1 ++ maintenance2) ++ bout2
                          /\ on_day d y m dy)).
Proof.
  intros Hv Hi.
  destruct (index_calendars_inv R cal1 cal2 Hi)
    as (bout & maintenance & bout1 & maintenance2 & bout2 & Hp1 & Hp2 & Hc1 & Hc2).
  exists bout, maintenance, bout1, maintenance2, bout2.
  split; [exact Hp1|]. split; [exact Hp2|].
  destruct (protocol1_sets_disjoint R _ _ Hv Hp1) as (D & N1 & N2).
  destruct (protocol2_sets_disjoint R _ _ _ Hv Hp2)
    as (D12 & D13 & D23 & M1 & M2 & M3).
  assert (Hrace : ∀ y m dy,
            Datetime y m dy 0 0 0 0 = replace_midnight R ↔ on_day R y m dy).
  { intros y m dy. unfold on_day, replace_midnight. split.
    - intros [= -> -> ->]. auto.
    - intros (<- & <- & <-). reflexivity. }
  split.
  - intros y m grid row dy t He Hrow Hc.
    destruct (calendar_cell _ _ _ _ _ _ _ _ _ Hc1 He Hrow Hc) as [_ ->].
    destruct (cell_type_protocol1_meaning (replace_midnight R)
                (Datetime y m dy 0 0 0 0) _ _ D N1 N2) as (T1 & T2 & T3 & T4).
    rewrite T1, T2, T3, T4, Hrace, !in_sessions_to_set_on_day.
    split; [reflexivity|]. split; [reflexivity|]. split; [reflexivity|].
    split.
    + intros (H1 & H2 & H3). split; [exact H1|].
      intros (d & Hd & Hon). apply elem_of_app in Hd as [Hd|Hd]; eauto.
    + intros (H1 & H2). split; [exact H1|].
      split; intros (d & Hd & Hon); apply H2; exists d;
        rewrite elem_of_app; auto.
  - intros y m grid row dy t He Hrow Hc.
    destruct (calendar_cell _ _ _ _ _ _ _ _ _ Hc2 He Hrow Hc) as [_ ->].
    destruct (cell_type_protocol2_meaning (replace_midnight R)
                (Datetime y m dy 0 0 0 0) _ _ _ D12 D13 D23 M1 M2 M3)
      as (T1 & T2 & T3 & T4 & T5).
    rewrite T1, T2, T3, T4, T5, Hrace, !in_sessions_to_set_on_day.
    split; [reflexivity|]. split; [reflexivity|]. split; [reflexivity|].
    split; [reflexivity|].
    split.
    + intros (H1 & H2 & H3 & H4). split; [exact H1|].
      intros (d & Hd & Hon). rewrite !elem_of_app in Hd.
      destruct Hd as [[Hd|Hd]|Hd]; eauto.
    + intros (H1 & H2). split; [exact H1|].
      split; [|split]; intros (d & Hd & Hon); apply H2; exists d;
        rewrite !elem_of_app; auto.
Qed.

Lemma calendars_cells_meaning_witness :
  ∃ (cal1 cal2 : list month_grid) bout maintenance,
    index_calendars example_race = Some (cal1, cal2)
    /\ protocol1_sessions example_race = Some (bout, maintenance).
Proof.
  assert (Hv : valid_datetime example_race) by compute_done.
  assert (H : ∃ cal1 cal2, index_calendars example_race = Some (cal1, cal2)).
  { eexists _, _. vm_compute. reflexivity. }
  destruct H as (cal1 & cal2 & Hi).
  destruct (calendars_cells_meaning example_race cal1 cal2 Hv Hi)
    as (bout & maintenance & _ & _ & _ & Hp1 & _).
  exists cal1, cal2, bout, maintenance. auto.
Defined.

(** * The number of month grids *)

Lemma month_of_index_index y m :
  1 <= m <= 12 -> month_of_index (month_index y m) = (y, m).
Proof.
  intros Hm. unfold month_of_index, month_index.
  f_equal; Z.div_mod_to_equations; lia.
Qed.

Lemma days_before_month_succ (leapyear : bool) m :
  1 <= m <= 11 -> dbm leapyear (m + 1) = dbm leapyear m + dim leapyear m.
Proof.
  intros Hm.
  assert (m = 1 \/ m = 2 \/ m = 3 \/ m = 4 \/ m = 5 \/ m = 6 \/ m = 7 \/ m = 8
          \/ m = 9 \/ m = 10 \/ m = 11) as Hcases by lia.
  destruct leapyear;
    repeat (destruct Hcases as [->|Hcases]); try subst m; reflexivity.
Qed.

Lemma month_start_succ i :
  month_start (i + 1)
  = month_start i + days_in_month (month_of_index i).1 (month_of_index i).2.
Proof.
  unfold month_start, month_of_index. cbn [fst snd].
  assert (Hr : 0 <= i mod 12 < 12) by (apply Z.mod_pos_bound; lia).
  destruct (Z_lt_le_dec (i mod 12) 11) as [H11|H11].
  - assert (E1 : (i + 1) / 12 = i / 12) by (Z.div_mod_to_equations; lia).
    assert (E2 : (i + 1) mod 12 + 1 = i mod 12 + 1 + 1)
      by (Z.div_mod_to_equations; lia).
    rewrite E1, E2, !days_before_month_dbm, days_in_month_dim.
    rewrite days_before_month_succ by lia. lia.
  - assert (E1 : (i + 1) / 12 = i / 12 + 1) by (Z.div_mod_to_equations; lia).
    assert (E2 : (i + 1) mod 12 = 0) by (Z.div_mod_to_equations; lia).
    assert (E3 : i mod 12 = 11) by lia.
    rewrite E1, E2, E3, days_before_year_succ.
    rewrite !days_before_month_dbm, days_in_month_dim.
    change (0 + 1) with 1. change (11 + 1) with 12.
    change (dbm (is_leap (i / 12 + 1)) 1) with 0.
    destruct (is_leap (i / 12));
      repeat match goal with
      | |- context [dbm ?b ?m] =>
          let v := eval vm_compute in (dbm b m) in change (dbm b m) with v
      | |- context [dim ?b ?m] =>
          let v := eval vm_compute in (dim b m) in change (dim b m) with v
      end; cbn [b2z]; lia.
Qed.

Lemma month_start_step i : 28 <= month_start (i + 1) - month_start i <= 31.
Proof.
  rewrite month_start_succ.
  assert (Hr : 0 <= i mod 12 < 12) by (apply Z.mod_pos_bound; lia).
  pose proof (days_in_month_bounds (month_of_index i).1 (month_of_index i).2) as H.
  unfold month_of_index in *. cbn [fst snd] in *. specialize (H ltac:(lia)). lia.
Qed.

Lemma month_start_diff i (n : nat) :
  28 * Z.of_nat n <= month_start (i + Z.of_nat n) - month_start i
  <= 31 * Z.of_nat n.
Proof.
  induction n as [|n IH].
  - rewrite Z.add_0_r. lia.
  - rewrite Nat2Z.inj_succ.
    replace (i + Z.succ (Z.of_nat n)) with (i + Z.of_nat n + 1) by lia.
    pose proof (month_start_step (i + Z.of_nat n)). lia.
Qed.

Lemma month_start_mono i j : i <= j -> month_start i <= month_start j.
Proof.
  intros Hij. pose proof (month_start_diff i (Z.to_nat (j - i))) as H.
  rewrite Z2Nat.id in H by lia. replace (i + (j - i)) with j in H by lia. lia.
Qed.

Lemma month_start_far i j k :
  0 <= k -> i + k <= j -> month_start i + 28 * k <= month_start j.
Proof.
  intros Hk Hij. pose proof (month_start_diff i (Z.to_nat k)) as H.
  rewrite Z2Nat.id in H by lia.
  pose proof (month_start_mono (i + k) j Hij). lia.
Qed.

(** A valid date lies in its month. *)
Lemma toordinal_in_month (d : datetime) :
  valid_datetime d ->
  month_start (month_index (year d) (month d)) < toordinal d
  <= month_start (month_index (year d) (month d) + 1).
Proof.
  intros ((_ & Hm & Hd) & _). rewrite month_start_succ.
  unfold month_start. rewrite month_of_index_index by exact Hm. cbn [fst snd].
  unfold toordinal, ymd2ord. lia.
Qed.

Lemma month_index_of_near_dates (a b : datetime) :
  valid_datetime a -> valid_datetime b -> toordinal a <= toordinal b ->
  let ia := month_index (year a) (month a) in
  let ib := month_index (year b) (month b) in
  ia <= ib
  /\ (toordinal b - toordinal a <= 27 -> ib <= ia + 1)
  /\ (toordinal b - toordinal a <= 55 -> ib <= ia + 2)
  /\ (31 <= toordinal b - toordinal a -> ia + 1 <= ib).
Proof.
  intros Ha Hb Hab. cbv zeta.
  pose proof (toordinal_in_month a Ha) as [Ha1 Ha2].
  pose proof (toordinal_in_month b Hb) as [Hb1 Hb2].
  set (ia := month_index (year a) (month a)) in *.
  set (ib := month_index (year b) (month b)) in *.
  assert (Hle : ia <= ib).
  { destruct (Z_le_gt_dec ia ib) as [H|H]; [exact H|].
    pose proof (month_start_mono (ib + 1) ia ltac:(lia)). lia. }
  split; [exact Hle|split; [|split]].
  - intros Hk. destruct (Z_le_gt_dec ib (ia + 1)) as [H|H]; [exact H|].
    pose proof (month_start_far (ia + 1) ib 1 ltac:(lia) ltac:(lia)). lia.
  - intros Hk. destruct (Z_le_gt_dec ib (ia + 2)) as [H|H]; [exact H|].
    pose proof (month_start_far (ia + 1) ib 2 ltac:(lia) ltac:(lia)). lia.
  - intros Hk. destruct (Z_le_gt_dec (ia + 1) ib) as [H|H]; [exact H|].
    assert (ib = ia) as E by lia. rewrite E in *.
    pose proof (month_start_step ia). lia.
Qed.

Lemma year_month_of_index (d : datetime) :
  valid_datetime d ->
  (year d, month d) = month_of_index (month_index (year d) (month d)).
Proof. intros ((_ & Hm & _) & _). by rewrite month_of_index_index. Qed.

Lemma months_to_show_length_le (dates : list datetime) (R d0 : datetime) (n : nat) :
  Forall valid_datetime dates -> valid_datetime R -> valid_datetime d0 ->
  (∀ d, d ∈ dates \/ d = R ->
        month_index (year d0) (month d0) <= month_index (year d) (month d)
        <= month_index (year d0) (month d0) + Z.of_nat n) ->
  (length (months_to_show dates R) <= S n)%nat.
Proof.
  intros Hv HR Hv0 Hidx. rewrite Forall_forall in Hv.
  set (i0 := month_index (year d0) (month d0)) in *.
  transitivity (length ((λ k, month_of_index (i0 + k)) <$> seqZ 0 (Z.of_nat (S n)))).
  - apply submseteq_length, NoDup_submseteq; [apply NoDup_months_to_show|].
    intros [y m] Hin. apply elem_of_months_to_show in Hin as (d & Hd & <- & <-).
    assert (Hvd : valid_datetime d) by (destruct Hd as [Hd| ->]; auto).
    rewrite (year_month_of_index d Hvd). apply list_elem_of_fmap.
    exists (month_index (year d) (month d) - i0). split; [f_equal; lia|].
    apply elem_of_seqZ. specialize (Hidx d Hd). lia.
  - rewrite length_fmap, length_seqZ. lia.
Qed.

Lemma elem_of_fmap_combine (d : datetime) (o : Z) (t : datetime) (ks : list Z) :
  Forall (λ k, 1 <= o - k) ks ->
  d ∈ (λ k, combine_ordinal (o - k) t) <$> ks ->
  ∃ k, k ∈ ks /\ toordinal d = o - k.
Proof.
  intros Hks Hd. apply list_elem_of_fmap in Hd as (k & -> & Hk).
  exists k. split; [exact Hk|]. apply toordinal_combine.
  rewrite Forall_forall in Hks. by apply Hks.
Qed.

Lemma months_to_show_length_ge_2 (dates : list datetime) (R d0 : datetime) :
  valid_datetime R -> valid_datetime d0 -> d0 ∈ dates ->
  31 <= toordinal R - toordinal d0 ->
  (2 <= length (months_to_show dates R))%nat.
Proof.
  intros HR Hv0 Hin Hfar.
  destruct (month_index_of_near_dates d0 R Hv0 HR ltac:(lia)) as (_ & _ & _ & Hidx).
  specialize (Hidx Hfar).
  change 2%nat with (length [(year d0, month d0); (year R, month R)]).
  apply submseteq_length, NoDup_submseteq.
  - apply NoDup_cons_2; [|apply NoDup_singleton].
    rewrite elem_of_cons, elem_of_nil. intros [[= Ey Em]|[]]. rewrite Ey, Em in Hidx. lia.
  - intros ym Hym. rewrite !elem_of_cons, elem_of_nil in Hym.
    destruct Hym as [->|[->|[]]]; apply elem_of_months_to_show; eauto.
Qed.

(** X15: [index] shows Protocol 1 on one or two month grids and Protocol 2 on two
    or three. *)
Theorem index_calendar_counts (R : datetime) (cal1 cal2 : list month_grid) :
  valid_datetime R -> index_calendars R = Some (cal1, cal2) ->
  (1 <= length cal1 <= 2)%nat /\ (2 <= length cal2 <= 3)%nat.
Proof.
  intros Hv Hi.
  destruct (index_calendars_inv R cal1 cal2 Hi)
    as (bout & maintenance & bout1 & maintenance2 & bout2 & Hp1 & Hp2 & Hc1 & Hc2).
  apply length_mapM in Hc1, Hc2.
  assert (L1 : length cal1 = length (months_to_show (bout ++ maintenance) R))
    by (symmetry; exact Hc1).
  assert (L2 : length cal2
               = length (months_to_show ((bout1 ++ maintenance2) ++ bout2) R))
    by (symmetry; exact Hc2).
  rewrite L1, L2. clear Hc1 Hc2 L1 L2 Hi.
  pose proof (protocol1_sessions_valid R _ _ Hv Hp1) as Hv1.
  pose proof (protocol2_sessions_valid R _ _ _ Hv Hp2) as Hv2.
  destruct (protocol1_sessions_inv R _ _ Hv Hp1) as (Ho1 & Eb & Em).
  destruct (protocol2_sessions_inv R _ _ _ Hv Hp2) as (Ho2 & Eb1 & Em2 & Eb2).
  split; split.
  - pose proof (months_to_show_nonempty (bout ++ maintenance) R) as Hne.
    destruct (months_to_show (bout ++ maintenance) R); [done|cbn; lia].
  - assert (Hd0 : combine_ordinal (toordinal R - 19) R ∈ bout ++ maintenance).
    { rewrite Eb. apply elem_of_app. left. apply elem_of_cons. by left. }
    pose proof (proj1 (Forall_forall _ _) Hv1 _ Hd0) as Hv0.
    apply (months_to_show_length_le _ _ _ 1 Hv1 Hv Hv0).
    intros d Hd.
    assert (Hvd : valid_datetime d).
    { destruct Hd as [Hd| ->]; [|exact Hv]. rewrite Forall_forall in Hv1. auto. }
    assert (Hord : toordinal R - 19 <= toordinal d <= toordinal R).
    { destruct Hd as [Hd| ->]; [|lia]. rewrite Eb, Em, <- fmap_app in Hd.
      apply elem_of_fmap_combine in Hd as (k & Hk & ->); [|forall_range].
      cbn [app] in Hk. rewrite !elem_of_cons, elem_of_nil in Hk. lia. }
    destruct (month_index_of_near_dates (combine_ordinal (toordinal R - 19) R) d
                Hv0 Hvd) as (H1 & H2 & _).
    { rewrite toordinal_combine by lia. lia. }
    rewrite toordinal_combine in H2 by lia.
    specialize (H2 ltac:(lia)). cbv zeta in *. lia.
  - assert (Hd0 : combine_ordinal (toordinal R - 47) (replace_midnight R)
                  ∈ (bout1 ++ maintenance2) ++ bout2).
    { rewrite Eb1. rewrite !elem_of_app. left. left. apply elem_of_cons. by left. }
    pose proof (proj1 (Forall_forall _ _) Hv2 _ Hd0) as Hv0.
    apply (months_to_show_length_ge_2 _ _ _ Hv Hv0 Hd0).
    rewrite toordinal_combine by lia. lia.
  - assert (Hd0 : combine_ordinal (toordinal R - 47) (replace_midnight R)
                  ∈ (bout1 ++ maintenance2) ++ bout2).
    { rewrite Eb1. rewrite !elem_of_app. left. left. apply elem_of_cons. by left. }
    pose proof (proj1 (Forall_forall _ _) Hv2 _ Hd0) as Hv0.
    apply (months_to_show_length_le _ _ _ 2 Hv2 Hv Hv0).
    intros d Hd.
    assert (Hvd : valid_datetime d).
    { destruct Hd as [Hd| ->]; [|exact Hv]. rewrite Forall_forall in Hv2. auto. }
    assert (Hord : toordinal R - 47 <= toordinal d <= toordinal R).
    { destruct Hd as [Hd| ->]; [|lia]. rewrite Eb1, Em2, Eb2, <- !fmap_app in Hd.
      apply elem_of_fmap_combine in Hd as (k & Hk & ->); [|forall_range].
      cbn [app] in Hk. rewrite !elem_of_cons, elem_of_nil in Hk. lia. }
    destruct (month_index_of_near_dates
                (combine_ordinal (toordinal R - 47) (replace_midnight R)) d
                Hv0 Hvd) as (H1 & _ & H3 & _).
    { rewrite toordinal_combine by lia. lia. }
    rewrite toordinal_combine in H3 by lia.
    specialize (H3 ltac:(lia)). cbv zeta in *. lia.
Qed.

(** The calendars of the example race: July and August; June to August. *)
Lemma index_calendar_counts_witness :
  ∃ cal1 cal2 : list month_grid,
    index_calendars example_race = Some (cal1, cal2)
    /\ (length cal1 <= 2)%nat /\ (2 <= length cal2)%nat.
Proof.
  assert (Hv : valid_datetime example_race) by compute_done.
  assert (H : ∃ cal1 cal2, index_calendars example_race = Some (cal1, cal2)).
  { eexists _, _. vm_compute. reflexivity. }
  destruct H as (cal1 & cal2 & Hi). exists cal1, cal2. split; [exact Hi|].
  destruct (index_calendar_counts example_race cal1 cal2 Hv Hi) as [[_ H1] [H2 _]].
  split; [exact H1|exact H2].
Defined.

(** * The view function *)

Section IndexProperties.
Variable strip : string → string.
Variable strptime : string → option datetime.
Hypothesis strptime_valid : ∀ s d, strptime s = Some d -> valid_datetime d.

Lemma index_parsed (method : string) (form : gmap string string) (R : datetime) :
  method = "POST"%string ->
  strip (default ""%string (form !! "race_date"%string)) ≠ ""%string ->
  strptime (strip (default ""%string (form !! "race_date"%string))) = Some R ->
  index strip strptime method form
  = '(bout, maintenance) ← protocol1_sessions R;
    '(bout1, maintenance2, bout2) ← protocol2_sessions R;
    '(cal1, cal2) ← index_calendars R;
    Some (Page (Some R) bout maintenance bout1 maintenance2 bout2 cal1 cal2 None).
Proof.
  intros Hm Hne Hp. unfold index.
  rewrite (bool_decide_eq_true_2 _ Hm). cbv zeta.
  rewrite (bool_decide_eq_false_2 _ Hne), Hp.
  unfold index_calendars.
  destruct (protocol1_sessions R) as [[bout maintenance]|]; [|reflexivity].
  rewrite !bind_Some_eq. cbv beta iota.
  destruct (protocol2_sessions R) as [[[bout1 maintenance2] bout2]|];
    [|reflexivity].
  rewrite !bind_Some_eq. cbv beta iota zeta.
  destruct (mapM _ (months_to_show (bout ++ maintenance) R)) as [cal1|];
    [|reflexivity].
  rewrite !bind_Some_eq.
  destruct (mapM _ (months_to_show ((bout1 ++ maintenance2) ++ bout2) R))
    as [cal2|]; reflexivity.
Qed.

Lemma index_of_date (method : string) (form : gmap string string) (R : datetime) :
  method = "POST"%string ->
  strip (default ""%string (form !! "race_date"%string)) ≠ ""%string ->
  strptime (strip (default ""%string (form !! "race_date"%string))) = Some R ->
  (toordinal R < 48 -> index strip strptime method form = None)
  /\ (48 <= toordinal R ->
      ∃ bout maintenance bout1 maintenance2 bout2 cal1 cal2,
        protocol1_sessions R = Some (bout, maintenance)
        /\ protocol2_sessions R = Some (bout1, maintenance2, bout2)
        /\ index_calendars R = Some (cal1, cal2)
        /\ index strip strptime method form
           = Some (Page (Some R) bout maintenance bout1 maintenance2 bout2
                     cal1 cal2 None)).
Proof.
  intros Hm Hne Hp. pose proof (strptime_valid _ _ Hp) as Hv.
  pose proof (valid_datetime_ordinal R Hv) as [_ Hhi].
  rewrite (index_parsed method form R Hm Hne Hp). split.
  - intros Ho. rewrite (protocol2_sessions_None R) by lia.
    destruct (protocol1_sessions R) as [[bout maintenance]|]; reflexivity.
  - intros Ho.
    pose proof (protocol1_sessions_eq R ltac:(lia)) as Hp1.
    pose proof (protocol2_sessions_eq R ltac:(lia)) as Hp2.
    destruct (calendars_of_sessions R _ _ _ _ _ Hv Hp1 Hp2)
      as (cal1 & cal2 & Hi & _).
    eexists _, _, _, _, _, cal1, cal2.
    split; [exact Hp1|]. split; [exact Hp2|]. split; [exact Hi|].
    rewrite Hp1, bind_Some_eq. cbv beta iota.
    rewrite Hp2, bind_Some_eq. cbv beta iota.
    rewrite Hi, bind_Some_eq. reflexivity.
Qed.

(** X16: [index] does not catch the [OverflowError] of the schedulers: a POST
    whose race date parses raises exactly when that date is before
    0001-02-17, and no other request raises. *)
Theorem index_raises_iff (method : string) (form : gmap string string) :
  index strip strptime method form = None
  ↔ method = "POST"%string
    /\ ∃ R, strptime (strip (default ""%string (form !! "race_date"%string)))
            = Some R
            /\ strip (default ""%string (form !! "race_date"%string)) ≠ ""%string
            /\ toordinal R < 48.
Proof.
  split.
  - intros Hnone. unfold index in Hnone.
    destruct (decide (method = "POST"%string)) as [Hm|Hm].
    2: { rewrite (bool_decide_eq_false_2 _ Hm) in Hnone. discriminate. }
    split; [exact Hm|]. rewrite (bool_decide_eq_true_2 _ Hm) in Hnone.
    cbv zeta in Hnone.
    destruct (decide (strip (default ""%string (form !! "race_date"%string))
                      = ""%string)) as [He|He].
    { rewrite (bool_decide_eq_true_2 _ He) in Hnone. discriminate. }
    destruct (strptime (strip (default ""%string (form !! "race_date"%string))))
      as [R|] eqn:Hp.
    2: { rewrite (bool_decide_eq_false_2 _ He) in Hnone. discriminate. }
    exists R. split; [reflexivity|]. split; [exact He|].
    destruct (Z_lt_le_dec (toordinal R) 48) as [Ho|Ho]; [exact Ho|].
    destruct (proj2 (index_of_date method form R Hm He Hp) Ho)
      as (? & ? & ? & ? & ? & ? & ? & _ & _ & _ & Hsome).
    unfold index in Hsome.
    rewrite (bool_decide_eq_true_2 _ Hm) in Hsome. cbv zeta in Hsome.
    rewrite (bool_decide_eq_false_2 _ He), Hp in Hsome.
    rewrite (bool_decide_eq_false_2 _ He) in Hnone. congruence.
  - intros (Hm & R & Hp & He & Ho).
    by apply (proj1 (index_of_date method form R Hm He Hp)).
Qed.

(** X17: What [index] renders is always one of three pages: the blank page (any
    request but a POST), an error page with one of the two messages and no
    date and no schedule, or the page of a race date from 0001-02-17 on with
    no error, the complete schedules of both protocols and their calendars. *)
Theorem index_pages (method : string) (form : gmap string string) (p : page) :
  index strip strptime method form = Some p ->
  (method ≠ "POST"%string /\ p = Page None [] [] [] [] [] [] [] None)
  \/ (method = "POST"%string
      /\ (∃ msg, p = Page None [] [] [] [] [] [] [] (Some msg)
                 /\ (msg = "Please enter a race date."%string
                     /\ strip (default ""%string (form !! "race_date"%string))
                        = ""%string
                     \/ msg = "Invalid date format. Use YYYY-MM-DD."%string
                        /\ strptime
                             (strip (default ""%string
                                       (form !! "race_date"%string)))
                           = None)))
  \/ (method = "POST"%string
      /\ ∃ R, strptime (strip (default ""%string (form !! "race_date"%string)))
              = Some R
              /\ 48 <= toordinal R
              /\ page_race_date p = Some R /\ page_error p = None
              /\ protocol1_sessions R
                 = Some (page_protocol1_bout p, page_protocol1_maintenance p)
              /\ protocol2_sessions R
                 = Some (page_protocol2_bout1 p, page_protocol2_maintenance p,
                         page_protocol2_bout2 p)
              /\ index_calendars R
                 = Some (page_protocol1_calendar_months p,
                         page_protocol2_calendar_months p)
              /\ page_protocol1_calendar_months p ≠ []
              /\ page_protocol2_calendar_months p ≠ []).
Proof.
  intros Hsome.
  destruct (decide (method = "POST"%string)) as [Hm|Hm].
  2: { left. split; [exact Hm|]. unfold index in Hsome.
       rewrite (bool_decide_eq_false_2 _ Hm) in Hsome. congruence. }
  right.
  destruct (decide (strip (default ""%string (form !! "race_date"%string))
                    = ""%string)) as [He|He].
  { left. split; [exact Hm|]. unfold index in Hsome.
    rewrite (bool_decide_eq_true_2 _ Hm) in Hsome. cbv zeta in Hsome.
    rewrite (bool_decide_eq_true_2 _ He) in Hsome. injection Hsome as <-.
    eexists. split; [reflexivity|]. left. auto. }
  destruct (strptime (strip (default ""%string (form !! "race_date"%string))))
    as [R|] eqn:Hp.
  2: { left. split; [exact Hm|]. unfold index in Hsome.
       rewrite (bool_decide_eq_true_2 _ Hm) in Hsome. cbv zeta in Hsome.
       rewrite (bool_decide_eq_false_2 _ He), Hp in Hsome. injection Hsome as <-.
       eexists. split; [reflexivity|]. right. auto. }
  right. split; [exact Hm|]. exists R. split; [reflexivity|].
  destruct (index_of_date method form R Hm He Hp) as [Hlo Hhi].
  destruct (Z_lt_le_dec (toordinal R) 48) as [Ho|Ho].
  { rewrite (Hlo Ho) in Hsome. discriminate. }
  split; [exact Ho|].
  destruct (Hhi Ho) as (bout & maintenance & bout1 & maintenance2 & bout2 & cal1
                        & cal2 & Hp1 & Hp2 & Hi & Hidx).
  rewrite Hidx in Hsome. injection Hsome as <-. cbn.
  split; [reflexivity|]. split; [reflexivity|].
  split; [exact Hp1|]. split; [exact Hp2|]. split; [exact Hi|].
  pose proof (strptime_valid _ _ Hp) as Hv.
  destruct (calendars_of_sessions R _ _ _ _ _ Hv Hp1 Hp2)
    as (c1 & c2 & Hi' & Hf1 & Hf2 & _).
  rewrite Hi in Hi'. injection Hi' as <- <-.
  split; intros E.
  - rewrite E in Hf1. cbn in Hf1.
    by apply (months_to_show_nonempty (bout ++ maintenance) R).
  - rewrite E in Hf2. cbn in Hf2.
    by apply (months_to_show_nonempty ((bout1 ++ maintenance2) ++ bout2) R).
Qed.
End IndexProperties.


(** A POST for the example race, with a parser that knows this date. *)
Lemma index_pages_witness :
  ∃ p, index (λ _, "2024-08-10"%string) (λ _, Some example_race) "POST" ∅ = Some p
       /\ page_error p = None /\ page_race_date p = Some example_race.
Proof.
  assert (Hvalid : ∀ (s : string) d,
            (λ _ : string, Some example_race) s = Some d -> valid_datetime d).
  { intros s d [= <-]. compute_done. }
  assert (Ho : 48 <= toordinal example_race) by compute_done.
  assert (Hne : (λ _ : string, "2024-08-10"%string)
                  (default ""%string
                     ((∅ : gmap string string) !! "race_date"%string))
                ≠ ""%string) by discriminate.
  destruct (proj2 (index_of_date (λ _, "2024-08-10"%string)
                     (λ _, Some example_race) Hvalid "POST" ∅ example_race
                     eq_refl Hne eq_refl) Ho)
    as (b & m & b1 & m2 & b2 & c1 & c2 & _ & _ & _ & Hp).
  eexists. split; [exact Hp|].
  destruct (index_pages (λ _, "2024-08-10"%string) (λ _, Some example_race)
              Hvalid _ _ _ Hp)
    as [[Hm _]|[[_ (msg & Hmsg & _)]|[_ (R & HR & _ & Hd & He & _)]]].
  - exfalso. apply Hm. reflexivity.
  - exfalso. clear -Hmsg. discriminate Hmsg.
  - injection HR as <-. split; [exact He|exact Hd].
Defined.

(** A POST for a race on 0001-01-05. *)
Lemma index_raises_iff_witness :
  index (λ _, "0001-01-05"%string) (λ _, Some early_race) "POST" ∅ = None.
Proof.
  assert (Hvalid : ∀ (s : string) d,
            (λ _ : string, Some early_race) s = Some d -> valid_datetime d).
  { intros s d [= <-]. compute_done. }
  refine (proj2 (index_raises_iff (λ _, "0001-01-05"%string)
                   (λ _, Some early_race) Hvalid _ _) _).
  split; [reflexivity|]. exists early_race.
  split; [reflexivity|]. split; [discriminate|compute_done].
Defined.
